(** * Vehicle-registration pipeline: normalisation, aggregation, growth

    A shallow embedding of [src/data_loader.py] and [src/processing.py],
    and of the code of [src/utils.py], [src/plots.py] and [app.py] that
    shows their results.

    A pandas frame is the list of its rows together with the list of the
    column labels it carries.  A float64 cell is a rational ([Qc]), with
    [None] for NaN; the result of a float division additionally ranges
    over the two infinities.  Sums come in two readings: [sum_skipna] adds
    the exact values, and serves the properties that no rounding touches;
    [Float64.sum] and [Float64.group_sum] round every addition to the
    nearest number with a 53-bit significand, as float64 does within its
    exponent range, and [aggregate64] is [aggregate] with the sum of each
    group taken so.  Signed zeros, overflow and subnormal numbers are not
    part of the model.  Strings are byte strings: case mapping and white
    space are the ASCII ones.  A file of the data folder is what
    [pd.read_csv] makes of it; files with two header labels that differ by
    their case or surrounding white space only are left out.  What
    [pd.to_numeric] and [pd.to_datetime] read in a text is a parameter of
    the functions that call them; the readers [decimal_literal] and
    [iso_date] instantiate it on worked inputs.  The arrangement that
    [sort_values] with its default kind leaves among equal
    keys is a parameter as well. *)

From Stdlib Require Import String Ascii ZArith QArith Qcanon.
From stdpp Require Import base list strings sorting numbers pretty.

Open Scope string_scope.
Open Scope list_scope.
Open Scope Z_scope.

(** ** Python's [str] methods *)

Module PyStr.

Definition is_upper (c : ascii) : bool :=
  let n := N_of_ascii c in ((65 <=? n) && (n <=? 90))%N.

Definition lower_ascii (c : ascii) : ascii :=
  if is_upper c then ascii_of_N (N_of_ascii c + 32) else c.

(** [s.lower()] *)
Fixpoint lower (s : string) : string :=
  match s with
  | EmptyString => EmptyString
  | String c t => String (lower_ascii c) (lower t)
  end.

(** [needle in hay] *)
Fixpoint contains (needle hay : string) : bool :=
  String.prefix needle hay ||
  match hay with
  | EmptyString => false
  | String _ t => contains needle t
  end.

(** [str.isspace] on one ASCII character: TAB, LF, VT, FF, CR, the four
    separators FS, GS, RS, US, and the blank. *)
Definition is_space (c : ascii) : bool :=
  let n := N_of_ascii c in
  (((9 <=? n) && (n <=? 13)) || ((28 <=? n) && (n <=? 32)))%N.

Fixpoint lstrip (s : string) : string :=
  match s with
  | EmptyString => EmptyString
  | String c t => if is_space c then lstrip t else s
  end.

Fixpoint rstrip (s : string) : string :=
  match s with
  | EmptyString => EmptyString
  | String c t =>
      match rstrip t with
      | EmptyString => if is_space c then EmptyString else String c EmptyString
      | t' => String c t'
      end
  end.

(** [s.strip()] *)
Definition strip (s : string) : string := rstrip (lstrip s).

(** [s.replace(c, '')] for a one-character [c] *)
Fixpoint remove_char (c : ascii) (s : string) : string :=
  match s with
  | EmptyString => EmptyString
  | String d t => if Ascii.eqb c d then remove_char c t else String d (remove_char c t)
  end.

(** [s.endswith(suffix)] *)
Definition endswith (suffix s : string) : bool :=
  String.prefix (String.rev suffix) (String.rev s).

Definition is_digit (c : ascii) : bool :=
  let n := N_of_ascii c in ((48 <=? n) && (n <=? 57))%N.

Definition digit_value (c : ascii) : Z := Z.of_N (N_of_ascii c) - 48.

End PyStr.

(** ** [src/data_loader.py]: the category classifier *)

Module Classifier.

(** [map_category], after its [str(x)]: the argument is the text of the
    cell. *)
Definition map_category (x : string) : string :=
  let s := PyStr.lower x in
  if PyStr.contains "two" s || PyStr.contains "2w" s then "2W"
  else if PyStr.contains "three" s || PyStr.contains "3w" s || PyStr.contains "auto" s then "3W"
  else if PyStr.contains "four" s || PyStr.contains "4w" s || PyStr.contains "car" s
          || PyStr.contains "jeep" s then "4W"
  else "OTHER".

End Classifier.

(** ** The pandas operations the two modules call *)

Module Pandas.

(** *** Raised exceptions *)

Inductive exn : Type :=
| FileNotFoundError
| KeyError (label : string)
| TypeError
| AttributeError
| DateParseError
| ValueError (msg : string)
| InvalidIndexError.

Definition result (A : Type) : Type := exn + A.
Definition Ok {A} (x : A) : result A := inr x.
Definition Raise {A} (e : exn) : result A := inl e.

Definition bind {A B} (m : result A) (k : A -> result B) : result B :=
  match m with
  | inl e => inl e
  | inr x => k x
  end.

Notation "'let*' x ':=' m 'in' k" := (bind m (fun x => k))
  (at level 10, x pattern, m at level 100, k at level 200).

(** A loop body run over a list, stopping at the first exception. *)
Fixpoint traverse {A B} (f : A -> result B) (l : list A) : result (list B) :=
  match l with
  | [] => Ok []
  | x :: l' => let* y := f x in let* ys := traverse f l' in Ok (y :: ys)
  end.

(** *** float64 cells *)

Inductive float : Type :=
| Finite (q : Qc)
| PosInf
| NegInf
| NaN.

Definition inf (positive : bool) : float := if positive then PosInf else NegInf.

Definition positive_or_zero (q : Qc) : bool :=
  match (q ?= 0)%Qc with Lt => false | _ => true end.

Definition fsub (a b : float) : float :=
  match a, b with
  | NaN, _ | _, NaN => NaN
  | Finite x, Finite y => Finite (x - y)
  | PosInf, PosInf | NegInf, NegInf => NaN
  | PosInf, _ | _, NegInf => PosInf
  | NegInf, _ | _, PosInf => NegInf
  end.

Definition fmul (a b : float) : float :=
  match a, b with
  | NaN, _ | _, NaN => NaN
  | Finite x, Finite y => Finite (x * y)
  | Finite x, PosInf | PosInf, Finite x =>
      match (x ?= 0)%Qc with Eq => NaN | Gt => PosInf | Lt => NegInf end
  | Finite x, NegInf | NegInf, Finite x =>
      match (x ?= 0)%Qc with Eq => NaN | Gt => NegInf | Lt => PosInf end
  | PosInf, PosInf | NegInf, NegInf => PosInf
  | PosInf, NegInf | NegInf, PosInf => NegInf
  end.

Definition fdiv (a b : float) : float :=
  match a, b with
  | NaN, _ | _, NaN => NaN
  | Finite x, Finite y =>
      match (y ?= 0)%Qc with
      | Eq => match (x ?= 0)%Qc with Eq => NaN | Gt => PosInf | Lt => NegInf end
      | _ => Finite (x / y)
      end
  | Finite _, _ => Finite 0
  | PosInf, Finite y => inf (positive_or_zero y)
  | NegInf, Finite y => inf (negb (positive_or_zero y))
  | _, _ => NaN
  end.

(** [Series.sum()] of a float column: NaN cells are skipped. *)
Definition sum_skipna (l : list (option Qc)) : Qc :=
  foldr Qcplus 0%Qc (omap id l).

(** *** float64 addition

    The cells of a float64 column are numbers with a 53-bit significand.
    Every addition and subtraction is rounded to the nearest such number,
    ties to the even significand.  [Float64.sum] adds the cells one after
    the other; [Float64.group_sum] adds them as [groupby(...).sum()]
    does, with a running compensation for the error of each addition.
    The exponent is not bounded. *)
Module Float64.

(** [floor (log2 (a / d))] for positive [a] and [d] *)
Definition ilog2 (a d : Z) : Z :=
  let e := Z.log2 a - Z.log2 d in
  if (if 0 <=? e then d * 2 ^ e <=? a else d <=? a * 2 ^ (- e)) then e else e - 1.

(** The number nearest to [a / d] among those with a 53-bit significand,
    for positive [a] and [d] *)
Definition round_pos (a d : Z) : Q :=
  let s := ilog2 a d - 52 in
  let n := if 0 <=? s then a else a * 2 ^ (- s) in
  let m := if 0 <=? s then d * 2 ^ s else d in
  let f := n / m in
  let r := n mod m in
  let f := if 2 * r <? m then f
           else if m <? 2 * r then f + 1
           else if Z.even f then f else f + 1 in
  if 0 <=? s then inject_Z (f * 2 ^ s) else Qmake f (Z.to_pos (2 ^ (- s))).

Definition round (q : Qc) : Qc :=
  match Qnum q with
  | Z0 => 0%Qc
  | Zpos a => Q2Qc (round_pos (Zpos a) (Zpos (Qden q)))
  | Zneg a => Q2Qc (- round_pos (Zpos a) (Zpos (Qden q)))
  end.

(** [x + y] on two float64 numbers *)
Definition add (x y : Qc) : Qc := round (x + y).

(** [x - y] on two float64 numbers *)
Definition sub (x y : Qc) : Qc := round (x - y).

(** [Series.sum()] of a float64 column: NaN cells are skipped. *)
Definition sum (l : list (option Qc)) : Qc := fold_left add (omap id l) 0%Qc.

(** One step of the sum of a group, on the sum so far and its
    compensation:
    [y = val - compensation; t = sumx + y; compensation = t - sumx - y; sumx = t] *)
Definition compensated (st : Qc * Qc) (val : Qc) : Qc * Qc :=
  let y := sub val st.2 in
  let t := add st.1 y in
  (t, sub (sub t st.1) y).

(** The sum of the cells of a group: NaN cells are skipped. *)
Definition group_sum (l : list (option Qc)) : Qc :=
  (fold_left compensated (omap id l) (0%Qc, 0%Qc)).1.

End Float64.

(** *** Timestamps *)

Record Timestamp : Type := MkTimestamp {
  ts_year : Z;
  ts_month : Z;
  ts_day : Z;
  ts_time : Z  (* nanoseconds since midnight *)
}.

#[global] Instance Timestamp_eq_dec : EqDecision Timestamp.
Proof. solve_decision. Defined.

(** [.dt.to_period(f).dt.to_timestamp()] for f = "M", "Q", "Y" *)
Definition floor_month (t : Timestamp) : Timestamp :=
  MkTimestamp (ts_year t) (ts_month t) 1 0.
Definition floor_quarter (t : Timestamp) : Timestamp :=
  MkTimestamp (ts_year t) (3 * ((ts_month t - 1) / 3) + 1) 1 0.
Definition floor_year (t : Timestamp) : Timestamp :=
  MkTimestamp (ts_year t) 1 1 0.

(** A cell of a column handed to [pd.to_datetime]. *)
Inductive datetime_cell : Type :=
| NaT
| Stamp (t : Timestamp)
| Text (s : string).

(** *** Orders used by [sort_values] and by [groupby]'s sorted keys *)

Definition lex (c1 c2 : comparison) : comparison :=
  match c1 with Eq => c2 | _ => c1 end.

Definition cmp_timestamp (a b : Timestamp) : comparison :=
  lex (Z.compare (ts_year a) (ts_year b))
    (lex (Z.compare (ts_month a) (ts_month b))
       (lex (Z.compare (ts_day a) (ts_day b)) (Z.compare (ts_time a) (ts_time b)))).

(** Missing values sort last ([na_position='last']). *)
Definition cmp_option {A} (cmp : A -> A -> comparison) (a b : option A) : comparison :=
  match a, b with
  | Some x, Some y => cmp x y
  | Some _, None => Lt
  | None, Some _ => Gt
  | None, None => Eq
  end.

Section Sorting.
Context {A : Type} (cmp : A -> A -> comparison).

Definition leb (x y : A) : bool :=
  match cmp x y with Gt => false | _ => true end.

Fixpoint insert_sorted (x : A) (l : list A) : list A :=
  match l with
  | [] => [x]
  | y :: l' => if leb x y then x :: l else y :: insert_sorted x l'
  end.

(** A stable sort: equal elements keep their order. *)
Definition sort (l : list A) : list A := foldr insert_sorted [] l.
End Sorting.

(** *** Frames *)

Record frame (R : Type) : Type := Frame {
  columns : list string;
  rows : list R
}.
Arguments Frame {R} _ _.
Arguments columns {R} _.
Arguments rows {R} _.

(** [df.empty] *)
Definition empty {R} (df : frame R) : bool :=
  bool_decide (columns df = []) || bool_decide (length (rows df) = 0%nat).

(** [label in df.columns] *)
Definition has_column {R} (label : string) (df : frame R) : bool :=
  bool_decide (label ∈ columns df).

(** Looking up [df[label]] raises [KeyError] on a missing label. *)
Fixpoint require_columns {R} (labels : list string) (df : frame R) : result unit :=
  match labels with
  | [] => Ok tt
  | l :: ls => if has_column l df then require_columns ls df else Raise (KeyError l)
  end.

(** [df[label] = ...] adds the label when the frame does not have it. *)
Definition with_column (label : string) (cols : list string) : list string :=
  if bool_decide (label ∈ cols) then cols else cols ++ [label].

(** [df.head(n)] *)
Definition head {R} (n : Z) (l : list R) : list R :=
  if 0 <=? n then take (Z.to_nat n) l
  else take (length l - Z.to_nat (- n)) l.

(** *** groupby(keys).agg(sum)

    Rows with a missing key are dropped; the groups come out in the order
    of their sorted keys; each group's value is the NaN-skipping sum of
    its cells. *)
Section GroupBy.
Context {K : Type} `{EqDecision K} (cmp : K -> K -> comparison).

Definition group (k : K) (kvs : list (option K * option Qc)) : list (option Qc) :=
  snd <$> filter (fun kv => kv.1 = Some k) kvs.

Definition groupby_sum (kvs : list (option K * option Qc)) : list (K * Qc) :=
  (fun k => (k, sum_skipna (group k kvs))) <$> sort cmp (remove_dups (omap fst kvs)).

(** The same with each group added in float64, in the order of its rows. *)
Definition groupby_sum64 (kvs : list (option K * option Qc)) : list (K * Qc) :=
  (fun k => (k, Float64.group_sum (group k kvs))) <$> sort cmp (remove_dups (omap fst kvs)).
End GroupBy.

(** *** groupby(keys)[col].transform(f)

    [f] is run on each group's cells, in row order, and its results are
    put back at the rows of the group; rows with a missing key get NaN. *)
Section Transform.
Context {R K : Type} `{EqDecision K}.
Variable key : R -> option K.
Variable value : R -> Qc.
Variable f : list Qc -> list float.

Definition in_group (k : K) (r : R) : Prop := key r = Some k.

#[global] Instance in_group_dec k r : Decision (in_group k r).
Proof. unfold in_group. apply _. Defined.

Definition transform (df : list R) : list float :=
  imap (fun p r =>
          match key r with
          | None => NaN
          | Some k =>
              default NaN
                (f (value <$> filter (in_group k) df)
                   !! length (filter (in_group k) (take p df)))
          end) df.
End Transform.

(** [s.shift(k)]: the first [k] cells become NaN. *)
Definition shift (k : nat) (s : list float) : list float :=
  take (length s) (replicate k NaN ++ s).

(** [s.pct_change(k)]: [s / s.shift(k) - 1] *)
Definition pct_change (k : nat) (s : list Qc) : list float :=
  let s := Finite <$> s in
  zip_with (fun x d => fsub (fdiv x d) (Finite 1)) s (shift k s).

End Pandas.


(** ** [src/data_loader.py] *)

Module DataLoader.
Import Pandas.

(** A cell of an object column: a missing value, a text, or the integer
    that the loader writes into the [year] column. *)
Inductive cell : Type :=
| NA
| Str (s : string)
| Int (z : Z).

(** [c.strip().lower()] on a label *)
Definition standard_label (c : string) : string := PyStr.lower (PyStr.strip c).

(** No text occurs twice in a list. *)
Fixpoint distinct (l : list string) : bool :=
  match l with
  | [] => true
  | x :: l => negb (bool_decide (x ∈ l)) && distinct l
  end.

(** One file of the data folder, as [pd.read_csv(file, dtype=str)] sees
    it: its name, its header, and its data lines (blank lines left out),
    each a list of fields in which [None] is a field that the reader takes
    as missing.  The labels of the header differ by more than their case
    and the white space around them: files with two labels that the loop
    standardises to the same text are left out of this development. *)
Record Source : Type := MkSource {
  basename : string;
  header : list string;
  lines : list (list (option string));
  header_distinct : distinct (standard_label <$> header) = true
}.

(** [temp_df]: the labels and, per row, one cell per label. *)
Record table : Type := Table {
  labels : list string;
  cells : list (list cell)
}.

(** The fields by which the first data line is longer than the header:
    the reader takes that many leading fields of every line as the index
    of the rows, not as cells. *)
Definition leading_cols (src : Source) : nat :=
  match lines src with
  | [] => 0%nat
  | ln :: _ => (length ln - length (header src))%nat
  end.

(** [pd.read_csv(file, dtype=str, on_bad_lines='skip')].  The width of a
    line is that of the header and the index; a line with more fields is a
    bad line and is skipped; a shorter line is filled up with missing
    values; the fields of the index are left out of the cells. *)
Definition read_csv (src : Source) : table :=
  let lead := leading_cols src in
  let width := (length (header src) + lead)%nat in
  Table (header src)
    ((fun ln =>
        drop lead ((from_option Str NA <$> ln) ++ replicate (width - length ln) NA))
       <$> filter (fun ln => (length ln <= width)%nat) (lines src)).

(** [re.search(r'maker (\d{4})', name, re.IGNORECASE)], and [int] of its
    group. *)
Definition int_of_digits (d : string) : Z :=
  fold_left (fun acc c => 10 * acc + PyStr.digit_value c) (list_ascii_of_string d) 0.

Definition match_maker_year (s : string) : option Z :=
  let d := String.substring 6 4 s in
  if bool_decide (PyStr.lower (String.substring 0 6 s) = "maker ")
     && bool_decide (String.length d = 4%nat)
     && forallb PyStr.is_digit (list_ascii_of_string d)
  then Some (int_of_digits d) else None.

Fixpoint year_from_name (s : string) : option Z :=
  match match_maker_year s with
  | Some y => Some y
  | None => match s with
            | EmptyString => None
            | String _ t => year_from_name t
            end
  end.

(** [glob.glob(folder / "maker *.csv")] on the names of the folder *)
Definition glob_match (name : string) : bool :=
  String.prefix "maker " name && PyStr.endswith ".csv" name
  && (10 <=? String.length name)%nat.

(** [temp_df[label] = v] for a scalar [v] *)
Definition assign_scalar (label : string) (v : cell) (t : table) : table :=
  match list_find (eq label) (labels t) with
  | Some (i, _) => Table (labels t) ((fun r => <[i := v]> r) <$> cells t)
  | None => Table (labels t ++ [label]) ((fun r => r ++ [v]) <$> cells t)
  end.

(** [temp_df.rename(columns={old: new})] *)
Definition rename (old new : string) (t : table) : table :=
  Table ((fun l => if bool_decide (l = old) then new else l) <$> labels t) (cells t).

Definition has_label (label : string) (t : table) : bool :=
  bool_decide (label ∈ labels t).

Definition count_label (label : string) (t : table) : nat :=
  length (filter (eq label) (labels t)).

(** The cell of a row under a label (the first column that carries it). *)
Definition at_label (label : string) (t : table) (r : list cell) : cell :=
  match list_find (eq label) (labels t) with
  | Some (i, _) => default NA (r !! i)
  | None => NA
  end.

(** The cells of a row under a label, one for each column that carries
    it, as [temp_df[[label]]] selects them. *)
Definition at_labels (label : string) (t : table) (r : list cell) : list cell :=
  snd <$> filter (fun lc => lc.1 = label) (zip (labels t) r).

(** [str(x)] of a cell, as [astype(str)] and [map_category] take it *)
Definition str (c : cell) : string :=
  match c with
  | NA => "nan"
  | Str s => s
  | Int z => pretty z
  end.

(** The first step of the loop: the file as read, with the year of its
    name written into the [year] column when the name has one. *)
Definition year_from_file (src : Source) : table :=
  let temp_df := read_csv src in
  match year_from_name (basename src) with
  | Some y => assign_scalar "year" (Int y) temp_df
  | None => temp_df
  end.

(** The steps up to and including the renames: the [year] column from the
    file name, the standardised labels, the two synonyms. *)
Definition standardize (src : Source) : table :=
  let temp_df := year_from_file src in
  let temp_df := Table (standard_label <$> labels temp_df) (cells temp_df) in
  let temp_df :=
    if has_label "total" temp_df then rename "total" "registrations" temp_df else temp_df in
  if has_label "maker" temp_df then rename "maker" "manufacturer" temp_df else temp_df.

(** Rows of the canonical table.  When more than one column of a file
    carries the label [manufacturer], the table has them all:
    [manufacturer] is the first, [more_manufacturers] holds the others. *)
Module Canonical.
Record t : Type := Row {
  period : option Timestamp;
  year : option Qc;
  vehicle_category : string;
  manufacturer : cell;
  registrations : option Qc;
  more_manufacturers : list cell
}.

(** A row of a table with a single manufacturer column. *)
Definition Make (period : option Timestamp) (year : option Qc) (vehicle_category : string)
    (manufacturer : cell) (registrations : option Qc) : t :=
  Row period year vehicle_category manufacturer registrations [].
End Canonical.

Section Loader.

(** What [pd.to_numeric(..., errors='coerce')] reads in a text, and what
    [pd.to_datetime(..., errors='coerce')] reads in one; [None] is the
    coerced failure. *)
Variable to_numeric_str : string -> option Qc.
Variable to_datetime_str : string -> option Timestamp.

Definition to_numeric (c : cell) : option Qc :=
  match c with
  | NA => None
  | Str s => to_numeric_str s
  | Int z => Some (Q2Qc (inject_Z z))
  end.

Definition is_integral (q : Qc) : bool := bool_decide (Qden q = 1%positive).

(** [year.astype('Int64').astype(str) + '-01-01'] *)
Definition year_text (y : option Qc) : string :=
  match y with
  | Some q => pretty (Qnum q) +:+ "-01-01"
  | None => "<NA>" +:+ "-01-01"
  end.

(** [pd.to_numeric(col.astype(str).str.replace(',', '').str.strip(),
    errors='coerce').fillna(0).astype(float)] on one cell *)
Definition clean_registrations (c : cell) : option Qc :=
  Some (default 0%Qc (to_numeric_str (PyStr.strip (PyStr.remove_char "," (str c))))).

(** The body of the loop over the files. *)
Definition normalize_file (src : Source) : result (list Canonical.t) :=
  let temp_df := standardize src in
  (* temp_df['year'] = pd.to_numeric(temp_df['year'], errors='coerce') *)
  let* year :=
    match count_label "year" temp_df with
    | O => Raise (KeyError "year")
    | S O => Ok (fun r => to_numeric (at_label "year" temp_df r))
    | _ => Raise TypeError
    end in
  (* temp_df['period'] = pd.to_datetime(year.astype('Int64').astype(str) + '-01-01') *)
  let* period :=
    if forallb (fun r => from_option is_integral true (year r)) (cells temp_df)
    then Ok (fun r => to_datetime_str (year_text (year r)))
    else Raise TypeError in
  let* registrations :=
    if has_label "registrations" temp_df then
      match count_label "registrations" temp_df with
      | S O => Ok (fun r => clean_registrations (at_label "registrations" temp_df r))
      | _ => Raise AttributeError
      end
    else Ok (fun _ => Some 0%Qc) in
  (* temp_df['vehicle_category'] = temp_df['vehicle_category'].apply(map_category) *)
  let vehicle_category :=
    if has_label "vehicle_category" temp_df
    then fun r => Classifier.map_category (str (at_label "vehicle_category" temp_df r))
    else fun _ => "OTHER" in
  (* temp_df[['period', 'year', 'vehicle_category', 'manufacturer', 'registrations']] *)
  if has_label "manufacturer" temp_df then
    Ok ((fun r => Canonical.Row (period r) (year r) (vehicle_category r)
                    (at_label "manufacturer" temp_df r) (registrations r)
                    (tail (at_labels "manufacturer" temp_df r)))
          <$> cells temp_df)
  else Raise (KeyError "manufacturer").

Definition canonical_columns : list string :=
  ["period"; "year"; "vehicle_category"; "manufacturer"; "registrations"].

(** The labels of the table that the loop appends for a file: the five
    canonical labels, [manufacturer] as often as the file carries it. *)
Definition file_columns (src : Source) : list string :=
  ["period"; "year"; "vehicle_category"]
  ++ replicate (count_label "manufacturer" (standardize src)) "manufacturer"
  ++ ["registrations"].

(** [load_and_normalize(path)], [folder] being the files of the folder
    that [path] names.  [pd.concat] takes tables that all have the same
    labels as they are; it cannot line up a table in which a label is
    repeated with tables of other labels. *)
Definition load_and_normalize (folder : list Source)
  : result (frame Canonical.t * list (string * string)) :=
  let all_files := filter (fun src => glob_match (basename src)) folder in
  match all_files with
  | [] => Raise FileNotFoundError
  | file :: _ =>
      let* df_list := traverse normalize_file all_files in
      if forallb (fun src => bool_decide (file_columns src = file_columns file)) all_files
      then Ok (Frame (file_columns file) (concat df_list), [("granularity", "yearly")])
      else Raise InvalidIndexError
  end.

End Loader.

(** Readers for the plain literals: an optionally signed decimal number,
    and a calendar date written year-month-day within the range of a
    pandas timestamp. *)
Definition all_digits (s : string) : bool :=
  negb (bool_decide (s = "")) && forallb PyStr.is_digit (list_ascii_of_string s).

Definition unsigned_decimal (s : string) : option Q :=
  match String.index 0 "." s with
  | None => if all_digits s then Some (inject_Z (int_of_digits s)) else None
  | Some i =>
      let ip := String.substring 0 i s in
      let fp := String.substring (S i) (String.length s - S i) s in
      if all_digits ip && all_digits fp
      then Some (inject_Z (int_of_digits ip)
                 + inject_Z (int_of_digits fp) / inject_Z (10 ^ Z.of_nat (String.length fp)))%Q
      else None
  end.

Definition decimal_literal (s : string) : option Qc :=
  match s with
  | String "-" t => (fun q => Q2Qc (- q)) <$> unsigned_decimal t
  | String "+" t => Q2Qc <$> unsigned_decimal t
  | _ => Q2Qc <$> unsigned_decimal s
  end.

Definition days_in_month (y m : Z) : Z :=
  if bool_decide (m = 2) then
    if bool_decide (y mod 4 = 0) && (negb (bool_decide (y mod 100 = 0)) || bool_decide (y mod 400 = 0))
    then 29 else 28
  else if bool_decide (m ∈ [4; 6; 9; 11]) then 30 else 31.

Definition iso_date (s : string) : option Timestamp :=
  let y := String.substring 0 4 s in
  let m := String.substring 5 2 s in
  let d := String.substring 8 2 s in
  if bool_decide (String.length s = 10%nat)
     && bool_decide (String.substring 4 1 s = "-") && bool_decide (String.substring 7 1 s = "-")
     && all_digits y && all_digits m && all_digits d
  then
    let y := int_of_digits y in
    let m := int_of_digits m in
    let d := int_of_digits d in
    if (1678 <=? y) && (y <=? 2261) && (1 <=? m) && (m <=? 12)
       && (1 <=? d) && (d <=? days_in_month y m)
    then Some (MkTimestamp y m d 0) else None
  else None.

End DataLoader.


(** ** [src/processing.py] *)

Module Processing.
Import Pandas.

(** Rows of a table handed to [aggregate]. *)
Module Fact.
Record t : Type := Make {
  period : datetime_cell;
  vehicle_category : option string;
  manufacturer : option string;
  registrations : option Qc
}.
End Fact.

(** Rows of an aggregated table, with the growth columns that
    [compute_growth] adds. *)
Module Agg.
Record t : Type := Make {
  period : option Timestamp;
  vehicle_category : option string;
  manufacturer : option string;
  total : Qc;
  yoy_pct : float;
  qoq_pct : float;
  pop_pct : float
}.

Definition with_growth (r : t) (yoy qoq pop : float) : t :=
  Make (period r) (vehicle_category r) (manufacturer r) (total r) yoy qoq pop.
End Agg.

(** Rows of the result of [top_n_manufacturers]. *)
Module Top.
Record t : Type := Make {
  manufacturer : string;
  total : Qc
}.
End Top.

Definition agg_columns : list string :=
  ["period"; "vehicle_category"; "manufacturer"; "total"].

Definition unsupported_frequency : exn := ValueError "freq must be 'M', 'Q', or 'Y'".

(** The key of [groupby(["period_floor", "vehicle_category",
    "manufacturer"])] and the order of its groups. *)
Definition key : Type := Timestamp * string * string.

Definition cmp_key (a b : key) : comparison :=
  lex (cmp_timestamp a.1.1 b.1.1)
    (lex (String.compare a.1.2 b.1.2) (String.compare a.2 b.2)).

(** [sort_values(["vehicle_category", "manufacturer", "period"])] *)
Definition cmp_row (a b : Agg.t) : comparison :=
  lex (cmp_option String.compare (Agg.vehicle_category a) (Agg.vehicle_category b))
    (lex (cmp_option String.compare (Agg.manufacturer a) (Agg.manufacturer b))
       (cmp_option cmp_timestamp (Agg.period a) (Agg.period b))).

Definition row_of_group (g : key * Qc) : Agg.t :=
  Agg.Make (Some g.1.1.1) (Some g.1.1.2) (Some g.1.2) g.2 NaN NaN NaN.

(** The bucket of each supported frequency. *)
Definition period_floor (freq : string) : result (Timestamp -> Timestamp) :=
  if bool_decide (freq = "M") then Ok floor_month
  else if bool_decide (freq = "Q") then Ok floor_quarter
  else if bool_decide (freq = "Y") then Ok floor_year
  else Raise unsupported_frequency.

Section WithReader.

(** What [pd.to_datetime] reads in a text; [None] is a text it cannot
    read. *)
Variable to_datetime_str : string -> option Timestamp.

(** [pd.to_datetime(col, errors="coerce")] on one cell *)
Definition to_datetime (c : datetime_cell) : option Timestamp :=
  match c with
  | NaT => None
  | Stamp t => Some t
  | Text s => to_datetime_str s
  end.

Definition fact_key (floor : Timestamp -> Timestamp) (r : Fact.t) : option key :=
  match to_datetime (Fact.period r), Fact.vehicle_category r, Fact.manufacturer r with
  | Some t, Some c, Some m => Some (floor t, c, m)
  | _, _, _ => None
  end.

Definition aggregate (df : frame Fact.t) (freq : string) : result (frame Agg.t) :=
  if empty df || negb (has_column "registrations" df) then Ok (Frame agg_columns [])
  else
    let* _ := require_columns ["period"] df in
    let* floor := period_floor freq in
    let* _ := require_columns ["vehicle_category"; "manufacturer"] df in
    let agg :=
      groupby_sum cmp_key ((fun r => (fact_key floor r, Fact.registrations r)) <$> rows df) in
    Ok (Frame agg_columns (sort cmp_row (row_of_group <$> agg))).

(** [aggregate] with the sum of each group taken in float64. *)
Definition aggregate64 (df : frame Fact.t) (freq : string) : result (frame Agg.t) :=
  if empty df || negb (has_column "registrations" df) then Ok (Frame agg_columns [])
  else
    let* _ := require_columns ["period"] df in
    let* floor := period_floor freq in
    let* _ := require_columns ["vehicle_category"; "manufacturer"] df in
    let agg :=
      groupby_sum64 cmp_key ((fun r => (fact_key floor r, Fact.registrations r)) <$> rows df) in
    Ok (Frame agg_columns (sort cmp_row (row_of_group <$> agg))).

(** [pd.to_datetime(period)] on a scalar: a text it cannot read raises. *)
Definition to_datetime_scalar (c : datetime_cell) : result (option Timestamp) :=
  match c with
  | NaT => Ok None
  | Stamp t => Ok (Some t)
  | Text s => match to_datetime_str s with
              | Some t => Ok (Some t)
              | None => Raise DateParseError
              end
  end.

Definition top_columns : list string := ["manufacturer"; "total"].

Section WithSort.

(** [sort_values("total", ascending=False)] with the default [kind]: some
    arrangement of the rows in which the totals descend. *)
Variable sort_total_desc : list Top.t -> list Top.t.

Definition top_n_manufacturers (df_agg : frame Agg.t) (period : datetime_cell)
    (n : option Z) : result (frame Top.t) :=
  let n := default 10 n in
  if empty df_agg || negb (has_column "manufacturer" df_agg) then Ok (Frame top_columns [])
  else
    let* _ := require_columns ["period"] df_agg in
    let* p := to_datetime_scalar period in
    let mask r := bool_decide (is_Some p /\ Agg.period r = p) in
    match filter (fun r => mask r = true) (rows df_agg) with
    | [] => Ok (Frame top_columns [])
    | selected =>
        let* _ := require_columns ["total"] df_agg in
        let groups :=
          groupby_sum String.compare
            ((fun r => (Agg.manufacturer r, Some (Agg.total r))) <$> selected) in
        let top := head n (sort_total_desc ((fun g => Top.Make g.1 g.2) <$> groups)) in
        Ok (Frame top_columns top)
    end.

End WithSort.
End WithReader.

(** The group of a row in [groupby(["vehicle_category", "manufacturer"])] *)
Definition series_key (r : Agg.t) : option (string * string) :=
  match Agg.vehicle_category r, Agg.manufacturer r with
  | Some c, Some m => Some (c, m)
  | _, _ => None
  end.

(** [lambda s: s.pct_change(k) * 100] *)
Definition pct_change_100 (k : nat) (s : list Qc) : list float :=
  (fun x => fmul x (Finite (Q2Qc 100))) <$> pct_change k s.

(** [groupby(["vehicle_category", "manufacturer"])["total"].transform(...)] *)
Definition growth (k : nat) (df : list Agg.t) : list float :=
  transform series_key Agg.total (pct_change_100 k) df.

Definition quarter_key (r : Agg.t) : option key :=
  match Agg.period r, Agg.vehicle_category r, Agg.manufacturer r with
  | Some t, Some c, Some m => Some (floor_quarter t, c, m)
  | _, _, _ => None
  end.

Definition growth_columns (cols : list string) : list string :=
  with_column "pop_pct" (with_column "qoq_pct" (with_column "yoy_pct" cols)).

Definition compute_growth (agg : frame Agg.t) (freq : string)
  : result (frame Agg.t * option (frame Agg.t)) :=
  if empty agg || negb (has_column "total" agg) then Ok (agg, None)
  else
    let* _ := require_columns ["vehicle_category"; "manufacturer"; "period"] agg in
    let df := sort cmp_row (rows agg) in
    let cols := growth_columns (columns agg) in
    let df := (fun r => Agg.with_growth r NaN NaN NaN) <$> df in
    if bool_decide (freq = "M") then
      let df := zip_with (fun r yoy => Agg.with_growth r yoy NaN NaN) df (growth 12 df) in
      let q :=
        sort cmp_row
          (row_of_group <$>
             groupby_sum cmp_key ((fun r => (quarter_key r, Some (Agg.total r))) <$> df)) in
      let q := zip_with (fun r qoq => Agg.with_growth r NaN qoq NaN) q (growth 1 q) in
      Ok (Frame cols df, Some (Frame (agg_columns ++ ["qoq_pct"]) q))
    else if bool_decide (freq = "Q") then
      let df :=
        zip_with (fun r g => Agg.with_growth r g.1 g.2 NaN) df (zip (growth 4 df) (growth 1 df)) in
      Ok (Frame cols df, None)
    else if bool_decide (freq = "Y") then
      let df := zip_with (fun r yoy => Agg.with_growth r yoy NaN yoy) df (growth 1 df) in
      Ok (Frame cols df, None)
    else Raise unsupported_frequency.

(** Two arrangements that [sort_values("total", ascending=False)] may
    return: the stable one, and one that lets later rows overtake earlier
    rows of the same total. *)
Definition cmp_total_desc (a b : Top.t) : comparison :=
  (Top.total b ?= Top.total a)%Qc.

Definition sort_desc_stable (l : list Top.t) : list Top.t := sort cmp_total_desc l.

Definition sort_desc_unstable (l : list Top.t) : list Top.t :=
  reverse (sort (fun a b => cmp_total_desc b a) l).

(** An aggregated table read as input of [aggregate], its [total] taken as
    [registrations]. *)
Definition fact_of_row (r : Agg.t) : Fact.t :=
  Fact.Make (from_option Stamp NaT (Agg.period r)) (Agg.vehicle_category r)
    (Agg.manufacturer r) (Some (Agg.total r)).

Definition as_registrations (out : frame Agg.t) : frame Fact.t :=
  Frame ((fun c => if bool_decide (c = "total") then "registrations" else c) <$> columns out)
    (fact_of_row <$> rows out).

End Processing.



(** ** [src/processing.py]: the helper columns *)

Module TimeColumns.
Import Pandas Processing.

(** Rows of a table with the columns that [aggregate] reads and the three
    helper columns; [year] is also the year column of the canonical table,
    which the function overwrites. *)
Module Timed.
Record t : Type := Make {
  period : datetime_cell;
  vehicle_category : option string;
  manufacturer : option string;
  registrations : option Qc;
  year : option Z;
  month : option Z;
  quarter : option Timestamp
}.

(** The row as [aggregate] reads it. *)
Definition fact (r : t) : Fact.t :=
  Fact.Make (period r) (vehicle_category r) (manufacturer r) (registrations r).
End Timed.

Section WithReader.

Variable to_datetime_str : string -> option Timestamp.

Definition add_time_period_columns (df : frame Timed.t) : frame Timed.t :=
  if empty df || negb (has_column "period" df) then df
  else
    Frame (with_column "quarter" (with_column "month" (with_column "year" (columns df))))
      ((fun r =>
          let p := to_datetime to_datetime_str (Timed.period r) in
          Timed.Make (from_option Stamp NaT p) (Timed.vehicle_category r)
            (Timed.manufacturer r) (Timed.registrations r)
            (ts_year <$> p) (ts_month <$> p) (floor_quarter <$> p)) <$> rows df).

End WithReader.

(** The table as [aggregate] reads it. *)
Definition facts (df : frame Timed.t) : frame Fact.t :=
  Frame (columns df) (Timed.fact <$> rows df).

End TimeColumns.


(** ** [src/utils.py] *)

Module Utils.
Import Pandas.

Section Format.

(** The text of a finite float with two decimals, [f"{x:.2f}"]. *)
Variable format_2f : Qc -> string.

(** [safe_pct(x)], [None] being Python's [None]. *)
Definition safe_pct (x : option float) : string :=
  match x with
  | None => "N/A"
  | Some NaN => "N/A"
  | Some (Finite q) => format_2f q +:+ "%"
  | Some PosInf => "inf%"
  | Some NegInf => "-inf%"
  end.

End Format.
End Utils.


(** ** [src/plots.py] *)

Module Plots.
Import Pandas Processing.

(** A figure, as far as its data go: the figure without data, or the
    table that is drawn. *)
Inductive figure (R : Type) : Type :=
| NoData
| Chart (data : list R).
Arguments NoData {R}.
Arguments Chart {R} _.

Definition _validate_df {R} (df : frame R) (required_cols : list string) : bool :=
  negb (empty df) && forallb (fun col => has_column col df) required_cols.

Section WithSort.

(** [sort_values("total", ascending=False)], as in [top_n_manufacturers] *)
Variable sort_total_desc : list Top.t -> list Top.t.

Definition plot_top_manufacturers (df_period : frame Agg.t) (top_n : option Z)
  : figure Top.t :=
  let top_n := default 10 top_n in
  if negb (_validate_df df_period ["manufacturer"; "total"]) then NoData
  else
    let groups :=
      groupby_sum String.compare
        ((fun r => (Agg.manufacturer r, Some (Agg.total r))) <$> rows df_period) in
    Chart (head top_n (sort_total_desc ((fun g => Top.Make g.1 g.2) <$> groups))).

End WithSort.
End Plots.


(** ** [app.py]: the indicators

    [agg_growth] and [agg_q] are the two results of [compute_growth] on a
    result of [aggregate]; the first has the columns period and total. *)

Module App.
Import Pandas Processing.

(** [agg_growth['period'].max()], [None] when no row has a period *)
Definition latest_period (agg_growth : list Agg.t) : option Timestamp :=
  foldr (fun r acc =>
           match Agg.period r, acc with
           | Some t, Some a => Some (match cmp_timestamp a t with Lt => t | _ => a end)
           | Some t, None => Some t
           | None, _ => acc
           end) None agg_growth.

(** [agg_growth[agg_growth['period'] == latest_period]['total'].sum()] *)
Definition total_latest (agg_growth : list Agg.t) : Qc :=
  let latest := latest_period agg_growth in
  sum_skipna
    ((fun r => Some (Agg.total r))
       <$> filter (fun r => is_Some latest /\ Agg.period r = latest) agg_growth).

(** [df.groupby('period', as_index=False).agg(total=('total', 'sum'))
    .sort_values('period')] *)
Definition agg_ts (df : list Agg.t) : list (Timestamp * Qc) :=
  sort (fun a b => cmp_timestamp a.1 b.1)
    (groupby_sum cmp_timestamp ((fun r => (Agg.period r, Some (Agg.total r))) <$> df)).

(** [t - pd.DateOffset(years=1)]: the same day of the year before, the
    29th of February becoming the 28th. *)
Definition minus_one_year (t : Timestamp) : Timestamp :=
  MkTimestamp (ts_year t - 1) (ts_month t)
    (Z.min (ts_day t) (DataLoader.days_in_month (ts_year t - 1) (ts_month t))) (ts_time t).

(** [(last / prev - 1) * 100] on two floats *)
Definition change (last prev : Qc) : float :=
  fmul (fsub (fdiv (Finite last) (Finite prev)) (Finite 1)) (Finite (Q2Qc 100)).

(** [series.iloc[-1]] against [series.iloc[-2]], [None] when the total of
    the latter is zero *)
Definition prev_change (series : list (Timestamp * Qc)) : option float :=
  match last series, series !! (length series - 2)%nat with
  | Some l, Some prev =>
      if bool_decide (prev.2 <> 0%Qc) then Some (change l.2 prev.2) else None
  | _, _ => None
  end.

Definition yoy_pct (freq : string) (agg_growth : list Agg.t) : option float :=
  let agg_ts := agg_ts agg_growth in
  if (2 <=? length agg_ts)%nat then
    if bool_decide (freq = "M") then
      match last agg_ts with
      | Some l =>
          match filter (fun g => g.1 = minus_one_year l.1) agg_ts with
          | prev :: _ => Some (change l.2 prev.2)
          | [] => None
          end
      | None => None
      end
    else prev_change agg_ts
  else None.

(** The change of the last row of a series of at least two rows *)
Definition last_change (series : list (Timestamp * Qc)) : option float :=
  if (2 <=? length series)%nat then prev_change series else None.

Definition qoq_pct (agg_growth : list Agg.t) (agg_q : option (frame Agg.t)) : option float :=
  match agg_q with
  | Some q =>
      if negb (empty q) then last_change (agg_ts (rows q))
      else last_change (agg_ts agg_growth)
  | None => last_change (agg_ts agg_growth)
  end.

(** [metadata.get(key, default)] *)
Fixpoint get (key default : string) (metadata : list (string * string)) : string :=
  match metadata with
  | [] => default
  | (k, v) :: rest => if bool_decide (k = key) then v else get key default rest
  end.

(** The frequency that the dashboard aggregates at. *)
Definition freq (metadata : list (string * string)) : string :=
  let gran := get "granularity" "yearly" metadata in
  if bool_decide (gran = "monthly") then "M"
  else if bool_decide (gran = "quarterly") then "Q"
  else "Y".

End App.
(** * Vocabulary of the properties *)

Import Pandas.

(** The sum of a column without missing cells. *)
Definition Qsum (l : list Qc) : Qc := foldr Qcplus 0%Qc l.

(** A comparison that is a strict total order in its [Lt] and identifies
    only equal elements. *)
Class Order {A : Type} (cmp : A -> A -> comparison) : Prop := {
  cmp_eq x y : cmp x y = Eq <-> x = y;
  cmp_antisym x y : cmp y x = CompOpp (cmp x y);
  cmp_lt_trans x y z : cmp x y = Lt -> cmp y z = Lt -> cmp x z = Lt
}.

Definition le {A : Type} (cmp : A -> A -> comparison) (x y : A) : Prop :=
  leb cmp x y = true.

Definition cmp_pair {A B} (ca : A -> A -> comparison) (cb : B -> B -> comparison)
    (x y : A * B) : comparison :=
  lex (ca x.1 y.1) (cb x.2 y.2).

(** [kw] occurs in [s] when the case of the letters of [s] is ignored. *)
Definition occurs_in (kw s : string) : Prop :=
  exists pre mid post, s = pre +:+ mid +:+ post /\ PyStr.lower mid = kw.

Definition categories : list string := ["2W"; "3W"; "4W"; "OTHER"].

Definition is_two (s : string) : Prop := occurs_in "two" s \/ occurs_in "2w" s.
Definition is_three (s : string) : Prop :=
  occurs_in "three" s \/ occurs_in "3w" s \/ occurs_in "auto" s.
Definition is_four (s : string) : Prop :=
  occurs_in "four" s \/ occurs_in "4w" s \/ occurs_in "car" s \/ occurs_in "jeep" s.

Section GroupVocabulary.
Context {K : Type} `{EqDecision K}.

(** The rows whose key is one of [L]. *)
Definition key_in (L : list K) (kv : option K * option Qc) : Prop :=
  match kv.1 with Some k => k ∈ L | None => False end.

#[global] Instance key_in_dec L kv : Decision (key_in L kv).
Proof. unfold key_in. destruct kv.1; apply _. Defined.

Definition with_key (g : K * Qc) : option K * option Qc := (Some g.1, Some g.2).

End GroupVocabulary.

Section FactVocabulary.
Import Processing.

Variable rd : string -> option Timestamp.

(** The keys and cells that [aggregate] groups. *)
Definition keyed (floor : Timestamp -> Timestamp) (l : list Fact.t)
  : list (option key * option Qc) :=
  (fun r => (fact_key rd floor r, Fact.registrations r)) <$> l.

(** A row that [groupby] does not drop: its period is read as a
    timestamp, and its category and manufacturer are present. *)
Definition kept (r : Fact.t) : Prop :=
  is_Some (to_datetime rd (Fact.period r))
  /\ is_Some (Fact.vehicle_category r) /\ is_Some (Fact.manufacturer r).

#[global] Instance kept_dec r : Decision (kept r).
Proof. unfold kept. apply _. Defined.

(** A row whose period is set and can be read. *)
Definition has_period (r : Fact.t) : Prop := is_Some (to_datetime rd (Fact.period r)).

#[global] Instance has_period_dec r : Decision (has_period r).
Proof. unfold has_period. apply _. Defined.

End FactVocabulary.

Section TopVocabulary.
Import Processing.

Definition descending (a b : Top.t) : Prop := (Top.total b <= Top.total a)%Qc.

(** The rows of the table at the period [p]. *)
Definition at_period (p : option Timestamp) (r : Agg.t) : Prop :=
  is_Some p /\ Agg.period r = p.

#[global] Instance at_period_dec p r : Decision (at_period p r).
Proof. unfold at_period. apply _. Defined.

Definition made_by (m : string) (r : Agg.t) : Prop := Agg.manufacturer r = Some m.

#[global] Instance made_by_dec m r : Decision (made_by m r).
Proof. unfold made_by. apply _. Defined.

(** Rows of [out] with equal totals come in the order in which [order]
    lists their manufacturers. *)
Definition ties_in_order (order : list string) (out : list Top.t) : Prop :=
  forall i j a b,
    (i < j)%nat -> out !! i = Some a -> out !! j = Some b ->
    Top.total a = Top.total b ->
    exists i' j',
      (i' < j')%nat /\ order !! i' = Some (Top.manufacturer a)
      /\ order !! j' = Some (Top.manufacturer b).

End TopVocabulary.

Section LoaderVocabulary.
Import DataLoader.

Variable to_numeric_str : string -> option Qc.
Variable to_datetime_str : string -> option Timestamp.

(** The registrations of a row of the standardised table, as the loader
    computes them. *)
Definition registrations_of (t : table) (line : list cell) : Qc :=
  if has_label "registrations" t
  then default 0%Qc
         (to_numeric_str
            (PyStr.strip (PyStr.remove_char "," (str (at_label "registrations" t line)))))
  else 0%Qc.

Definition category_of (t : table) (line : list cell) : string :=
  if has_label "vehicle_category" t
  then Classifier.map_category (str (at_label "vehicle_category" t line))
  else "OTHER".

(** The canonical record of a row of the standardised table. *)
Definition record_of (t : table) (line : list cell) : Canonical.t :=
  let year := to_numeric to_numeric_str (at_label "year" t line) in
  Canonical.Row (to_datetime_str (year_text year)) year (category_of t line)
    (at_label "manufacturer" t line) (Some (registrations_of t line))
    (tail (at_labels "manufacturer" t line)).

End LoaderVocabulary.

Section GrowthVocabulary.
Import Processing.

(** The percentage change of [x] against [d], in float arithmetic. *)
Definition pct (x d : Qc) : float :=
  fmul (fsub (fdiv (Finite x) (Finite d)) (Finite 1)) (Finite (Q2Qc 100)).

(** The rows of one (vehicle_category, manufacturer) pair, in row order. *)
Definition sub_series (k : string * string) (l : list Agg.t) : list Agg.t :=
  filter (in_group series_key k) l.

(** The growth cell of the row at index [i] of a sub-series, against the
    row [n] places before it. *)
Definition growth_cell (n : nat) (s : list Agg.t) (i : nat) : float :=
  match s !! i, (if Nat.leb n i then s !! (i - n)%nat else None) with
  | Some r, Some r' => pct (Agg.total r) (Agg.total r')
  | _, _ => NaN
  end.

(** The growth cells of one row of the result, at each frequency. *)
Definition cells_at (freq : string) (s : list Agg.t) (i : nat) (r : Agg.t) : Prop :=
  if bool_decide (freq = "M") then
    Agg.yoy_pct r = growth_cell 12 s i /\ Agg.qoq_pct r = NaN /\ Agg.pop_pct r = NaN
  else if bool_decide (freq = "Q") then
    Agg.yoy_pct r = growth_cell 4 s i /\ Agg.qoq_pct r = growth_cell 1 s i
    /\ Agg.pop_pct r = NaN
  else
    Agg.yoy_pct r = growth_cell 1 s i /\ Agg.qoq_pct r = NaN
    /\ Agg.pop_pct r = growth_cell 1 s i.

(** The columns that [sort_values] compares, and their order. *)
Definition sort_key (r : Agg.t) : option string * option string * option Timestamp :=
  (Agg.vehicle_category r, Agg.manufacturer r, Agg.period r).

Definition cmp_sort_key :=
  cmp_pair (cmp_pair (cmp_option String.compare) (cmp_option String.compare))
    (cmp_option cmp_timestamp).

(** Ascending period, rows without a period last. *)
Definition by_period (a b : Agg.t) : Prop :=
  le (cmp_option cmp_timestamp) (Agg.period a) (Agg.period b).

End GrowthVocabulary.

(** ** Worked tables *)

Section Examples.
Import Processing DataLoader.

Definition jan1 (y : Z) : Timestamp := MkTimestamp y 1 1 0.

Definition fact_columns : list string :=
  ["period"; "year"; "vehicle_category"; "manufacturer"; "registrations"].

(** Seven facts: two years of one manufacturer, a date given as text, a
    missing registrations cell, and three rows that the grouping drops. *)
Definition sample_facts : frame Fact.t :=
  Frame fact_columns
    [ Fact.Make (Stamp (jan1 2022)) (Some "2W") (Some "Acme") (Some (Q2Qc 1100));
      Fact.Make (Stamp (jan1 2021)) (Some "2W") (Some "Acme") (Some (Q2Qc 1000));
      Fact.Make (Text "2021-06-15") (Some "2W") (Some "Acme") (Some (Q2Qc 50));
      Fact.Make (Stamp (jan1 2021)) (Some "4W") (Some "Tata") None;
      Fact.Make NaT (Some "2W") (Some "Acme") (Some (Q2Qc 7));
      Fact.Make (Text "n/a") (Some "4W") (Some "Tata") (Some (Q2Qc 3));
      Fact.Make (Stamp (jan1 2021)) None (Some "Tata") (Some (Q2Qc 9)) ].

Definition agg_row (y : Z) (c m : string) (t : Q) : Agg.t :=
  Agg.Make (Some (jan1 y)) (Some c) (Some m) (Q2Qc t) NaN NaN NaN.

Definition sample_yearly : frame Agg.t :=
  Frame agg_columns
    [ agg_row 2021 "2W" "Acme" 1050; agg_row 2022 "2W" "Acme" 1100;
      agg_row 2021 "4W" "Tata" 0 ].

(** A manufacturer with no registrations in 2021 and five in 2022. *)
Definition zero_base : frame Agg.t :=
  Frame agg_columns [ agg_row 2021 "2W" "Acme" 0; agg_row 2022 "2W" "Acme" 5 ].

Definition zero_base_facts : frame Fact.t :=
  Frame fact_columns
    [ Fact.Make (Stamp (jan1 2021)) (Some "2W") (Some "Acme") (Some (Q2Qc 0));
      Fact.Make (Stamp (jan1 2022)) (Some "2W") (Some "Acme") (Some (Q2Qc 5)) ].

(** Two manufacturers with the same total in one period. *)
Definition tied : frame Agg.t :=
  Frame agg_columns [ agg_row 2021 "2W" "Zeta" 5; agg_row 2021 "4W" "Acme" 5 ].

Definition yearly : list (string * string) := [("granularity", "yearly")].

(** A file named for 2021 whose rows carry their own year. *)
Definition maker_2021 : Source :=
  MkSource "maker 2021.csv" ["year"; "Maker"; "Total"]
    [[Some "2019"; Some "Acme"; Some "10"]] eq_refl.

(** A file that the pattern finds, with no year in its name or columns. *)
Definition maker_data : Source :=
  MkSource "maker data.csv" ["Maker"; "Total"] [[Some "Acme"; Some "10"]] eq_refl.

(** A file with a negative count and with blanks around a name. *)
Definition maker_2022 : Source :=
  MkSource "maker 2022.csv" ["Maker"; "Total"; "Vehicle_Category"]
    [[Some " Honda "; Some "-5"; Some "Two Wheeler"]] eq_refl.

Definition maker_2022_record : Canonical.t :=
  Canonical.Make (Some (MkTimestamp 2022 1 1 0)) (Some (Q2Qc 2022)) "2W"
    (Str " Honda ") (Some (Q2Qc (-5))).

(** The tables of the scenarios of the specification. *)
Definition scenario_folder : list Source :=
  [ MkSource "maker 2021.csv" ["Vehicle_Category"; "Maker"; "Total"]
      [[Some "Two Wheeler"; Some "Acme"; Some "1,000"]] eq_refl;
    MkSource "maker 2022.csv" ["Vehicle_Category"; "Maker"; "Total"]
      [[Some "two wheeler"; Some "Acme"; Some "1,100"]] eq_refl ].

Definition scenario_facts : frame Fact.t :=
  Frame fact_columns
    [ Fact.Make (Stamp (jan1 2021)) (Some "2W") (Some "Acme") (Some (Q2Qc 1000));
      Fact.Make (Stamp (jan1 2022)) (Some "2W") (Some "Acme") (Some (Q2Qc 1100)) ].

Definition month (y m : Z) (t : Q) : Agg.t :=
  Agg.Make (Some (MkTimestamp y m 1 0)) (Some "2W") (Some "Acme") (Q2Qc t) NaN NaN NaN.

Definition thirteen_months : frame Agg.t :=
  Frame agg_columns
    (((fun m => month 2021 m 500) <$> [1; 2; 3; 4; 5; 6; 7; 8; 9; 10; 11; 12])
     ++ [month 2022 1 500]).

End Examples.


Section CountVocabulary.

(** The whole number that a cell holds, zero for a missing cell, and its
    absolute value. *)
Definition count_of (v : option Qc) : Z := from_option (fun q : Qc => Qnum q) 0 v.

Definition Zsum (l : list Z) : Z := foldr Z.add 0 l.

(** The sum of the absolute values of the cells. *)
Definition mass (l : list (option Qc)) : Z := Zsum ((fun v => Z.abs (count_of v)) <$> l).

(** Cells that hold whole numbers whose absolute values add up to at most
    [2 ^ 53]: no addition of such cells rounds in float64, in whatever
    order they are added. *)
Definition whole_counts (l : list (option Qc)) : Prop :=
  Forall (fun v => from_option (fun q : Qc => Qden q = 1%positive) True v) l
  /\ mass l <= 2 ^ 53.

End CountVocabulary.

(** * Vocabulary of the further properties *)

Section AggregateVocabulary.
Import Processing.

Variable rd : string -> option Timestamp.

(** The rows of the input that [aggregate] puts into the group [k]. *)
Definition in_bucket (floor : Timestamp -> Timestamp) (k : key) (r : Fact.t) : Prop :=
  fact_key rd floor r = Some k.

#[global] Instance in_bucket_dec floor k r : Decision (in_bucket floor k r).
Proof. unfold in_bucket. apply _. Defined.

(** Strictly ascending in (vehicle_category, manufacturer, period). *)
Definition ascending (a b : Agg.t) : Prop := cmp_row a b = Lt.

(** The buckets of [coarse] are unions of buckets of [fine]. *)
Definition refines (fine coarse : string) : Prop :=
  (fine, coarse) ∈ [("M", "M"); ("M", "Q"); ("M", "Y"); ("Q", "Q"); ("Q", "Y"); ("Y", "Y")].

(** An aggregated table handed to [aggregate] as it is: it has no
    [registrations] column. *)
Definition as_facts (out : frame Agg.t) : frame Fact.t :=
  Frame (columns out)
    ((fun r => Fact.Make (from_option Stamp NaT (Agg.period r)) (Agg.vehicle_category r)
                 (Agg.manufacturer r) None) <$> rows out).

End AggregateVocabulary.

Section GrowthTableVocabulary.
Import Processing.

(** A row with its growth cells set to NaN, as [compute_growth] sets them
    before it fills them. *)
Definition clear_growth (r : Agg.t) : Agg.t := Agg.with_growth r NaN NaN NaN.

(** A row of the quarterly table of the monthly path, which has the
    [qoq_pct] column only. *)
Definition only_qoq (r : Agg.t) : Agg.t := Agg.with_growth r NaN (Agg.qoq_pct r) NaN.

End GrowthTableVocabulary.

Section RankingVocabulary.
Import Processing.

(** The manufacturers of the rows at the period [p], each once. *)
Definition manufacturers_at (p : option Timestamp) (l : list Agg.t) : list string :=
  remove_dups (omap Agg.manufacturer (filter (at_period p) l)).

(** The total of the manufacturer [m] at the period [p]. *)
Definition total_at (p : option Timestamp) (m : string) (l : list Agg.t) : Qc :=
  Qsum (Agg.total <$> filter (made_by m) (filter (at_period p) l)).

(** The number of rows that [head(n)] keeps of [len] rows. *)
Definition kept_by_head (n : Z) (len : nat) : nat :=
  if 0 <=? n then Nat.min (Z.to_nat n) len else (len - Z.to_nat (- n))%nat.

End RankingVocabulary.

Section FolderVocabulary.
Import DataLoader.

(** The files of a folder that [glob] finds. *)
Definition found (folder : list Source) : list Source :=
  filter (fun src => glob_match (basename src)) folder.

(** The number of lines of a file that [read_csv] keeps: those with no
    more fields than the header and the index have. *)
Definition data_rows (src : Source) : nat :=
  length (filter (fun ln => (length ln <= length (header src) + leading_cols src)%nat)
            (lines src)).

(** The rows of the standardised tables of the files that [glob] finds, in
    the order of the files and of their lines, each with its table. *)
Definition lines_of (folder : list Source) : list (table * list cell) :=
  concat ((fun src => (fun line => (standardize src, line)) <$> cells (standardize src))
            <$> found folder).

(** The text that the loader hands to [pd.to_datetime] for a year. *)
Definition year_start (y : Z) : string := pretty y +:+ "-01-01".

(** A substring that [maker (\d{4})] matches when case is ignored: the
    word and a blank, then four digits. *)
Definition maker_year (m d : string) : Prop :=
  PyStr.lower m = "maker " /\ String.length d = 4%nat
  /\ forallb PyStr.is_digit (list_ascii_of_string d) = true.

End FolderVocabulary.

(** ** More worked tables *)

Section MoreExamples.
Import Processing DataLoader TimeColumns.

(** The facts of [sample_facts] by month. *)
Definition sample_monthly : frame Agg.t :=
  Frame agg_columns
    [ month 2021 1 1000; month 2021 6 50; month 2022 1 1100;
      Agg.Make (Some (jan1 2021)) (Some "4W") (Some "Tata") (Q2Qc 0) NaN NaN NaN ].

(** The yearly growth of [zero_base]. *)
Definition zero_base_growth : frame Agg.t :=
  Frame (agg_columns ++ ["yoy_pct"; "qoq_pct"; "pop_pct"])
    [ Agg.with_growth (agg_row 2021 "2W" "Acme" 0) NaN NaN NaN;
      Agg.with_growth (agg_row 2022 "2W" "Acme" 5) PosInf NaN PosInf ].

(** A table with a row that has no vehicle_category, and its growth. *)
Definition no_category : Agg.t :=
  Agg.Make (Some (jan1 2021)) None (Some "Tata") (Q2Qc 3) NaN NaN NaN.

Definition unkeyed : frame Agg.t :=
  Frame agg_columns [ no_category; agg_row 2021 "2W" "Acme" 5 ].

Definition unkeyed_growth : frame Agg.t :=
  Frame (agg_columns ++ ["yoy_pct"; "qoq_pct"; "pop_pct"])
    [ agg_row 2021 "2W" "Acme" 5; no_category ].

(** Three months of one manufacturer over two quarters, with the two
    tables of the monthly path. *)
Definition two_quarters : frame Agg.t :=
  Frame agg_columns [ month 2021 1 100; month 2021 2 100; month 2021 4 300 ].

Definition two_quarters_growth : frame Agg.t :=
  Frame (agg_columns ++ ["yoy_pct"; "qoq_pct"; "pop_pct"])
    [ month 2021 1 100; month 2021 2 100; month 2021 4 300 ].

Definition two_quarters_table : frame Agg.t :=
  Frame (agg_columns ++ ["qoq_pct"])
    [ month 2021 1 200;
      Agg.with_growth (month 2021 4 300) NaN (Finite (Q2Qc 50)) NaN ].

(** The float64 number nearest to a decimal, as [pd.to_numeric] reads
    its text. *)
Definition float64 (q : Q) : Qc := Float64.round (Q2Qc q).

(** Three facts with the registrations 0.1, 0.1 and 0.4, and their yearly
    table in float64. *)
Definition decimal_facts : frame Fact.t :=
  Frame fact_columns
    [ Fact.Make (Stamp (jan1 2021)) (Some "2W") (Some "Acme") (Some (float64 (1 # 10)));
      Fact.Make (Stamp (jan1 2021)) (Some "2W") (Some "Beta") (Some (float64 (1 # 10)));
      Fact.Make (Stamp (jan1 2021)) (Some "2W") (Some "Beta") (Some (float64 (4 # 10))) ].

Definition decimal_yearly : frame Agg.t :=
  Frame agg_columns
    [ Agg.Make (Some (jan1 2021)) (Some "2W") (Some "Acme") (float64 (1 # 10)) NaN NaN NaN;
      Agg.Make (Some (jan1 2021)) (Some "2W") (Some "Beta") (float64 (1 # 2)) NaN NaN NaN ].

(** A file of two lines, and the folder of it and [maker_2022] with the
    table of the folder. *)
Definition maker_2023 : Source :=
  MkSource "maker 2023.csv" ["Maker"; "Total"]
    [[Some "Acme"; Some "10"]; [Some "Zeta"; Some "999"]] eq_refl.

Definition two_files : list Source := [maker_2022; maker_2023].

Definition two_files_table : frame Canonical.t :=
  Frame canonical_columns
    [ maker_2022_record;
      Canonical.Make (Some (MkTimestamp 2023 1 1 0)) (Some (Q2Qc 2023)) "OTHER"
        (Str "Acme") (Some (Q2Qc 10));
      Canonical.Make (Some (MkTimestamp 2023 1 1 0)) (Some (Q2Qc 2023)) "OTHER"
        (Str "Zeta") (Some (Q2Qc 999)) ].

(** A file whose lines end in a comma: the reader takes the first field of
    each line as the index of the row. *)
Definition maker_2024 : Source :=
  MkSource "maker 2024.csv" ["Maker"; "Total"]
    [[Some "Acme"; Some "10"; None]; [Some "Beta"; Some "20"; None]] eq_refl.

Definition maker_2024_table : frame Canonical.t :=
  Frame canonical_columns
    [ Canonical.Make (Some (MkTimestamp 2024 1 1 0)) (Some (Q2Qc 2024)) "OTHER"
        (Str "10") (Some (Q2Qc 0));
      Canonical.Make (Some (MkTimestamp 2024 1 1 0)) (Some (Q2Qc 2024)) "OTHER"
        (Str "20") (Some (Q2Qc 0)) ].

(** A file with a Maker and a Manufacturer column. *)
Definition maker_2025 : Source :=
  MkSource "maker 2025.csv" ["Maker"; "Manufacturer"; "Total"]
    [[Some "Acme"; Some "Acme Ltd"; Some "10"]] eq_refl.

(** A table with no period column. *)
Definition no_period : frame Timed.t :=
  Frame ["manufacturer"; "registrations"]
    [Timed.Make NaT None (Some "Acme") (Some (Q2Qc 10)) None None None].

Definition maker_2021_record : Canonical.t :=
  Canonical.Make (Some (MkTimestamp 2021 1 1 0)) (Some (Q2Qc 2021)) "OTHER"
    (Str "Acme") (Some (Q2Qc 10)).

End MoreExamples.
(** * Properties *)

(** ** Strings *)

Section StringFacts.

Lemma prefix_app (p s : string) :
  String.prefix p s = true <-> exists post, s = p +:+ post.
Proof.
  revert s. induction p as [|c p IH]; intros s.
  - split; [intros _; by exists s | by destruct s].
  - destruct s as [|d s]; simpl.
    + split; [done | intros [post H]; discriminate].
    + destruct (Ascii.ascii_dec c d) as [->|Hne].
      * rewrite IH. split; intros [post H]; exists post; [by rewrite H | by injection H].
      * split; [done | intros [post H]; injection H; congruence].
Qed.

Lemma contains_app (needle hay : string) :
  PyStr.contains needle hay = true <-> exists pre post, hay = pre +:+ needle +:+ post.
Proof.
  induction hay as [|c hay IH]; cbn [PyStr.contains].
  - rewrite orb_false_r, prefix_app. split.
    + intros [post H]. by exists "", post.
    + intros [[|d pre] [post H]]; [by exists post | discriminate].
  - rewrite orb_true_iff, prefix_app, IH. split.
    + intros [[post H] | (pre & post & H)].
      * by exists "", post.
      * exists (String c pre), post. simpl. by rewrite H.
    + intros ([|d pre] & post & H); simpl in H.
      * left. by exists post.
      * right. exists pre, post. by injection H.
Qed.

Lemma lower_app (a b : string) :
  PyStr.lower (a +:+ b) = PyStr.lower a +:+ PyStr.lower b.
Proof. induction a as [|c a IH]; simpl; [done | by rewrite IH]. Qed.

Lemma lower_app_inv (s a b : string) :
  PyStr.lower s = a +:+ b ->
  exists s1 s2, s = s1 +:+ s2 /\ PyStr.lower s1 = a /\ PyStr.lower s2 = b.
Proof.
  revert s. induction a as [|c a IH]; intros s H; simpl in H.
  - by exists "", s.
  - destruct s as [|d s]; simpl in H; [discriminate|].
    injection H as Hc Hs. destruct (IH _ Hs) as (s1 & s2 & -> & H1 & H2).
    exists (String d s1), s2. simpl. by rewrite Hc, H1.
Qed.

End StringFacts.

(** ** The category classifier *)

Section ClassifierFacts.
Import Classifier.


Lemma contains_lower (kw s : string) :
  PyStr.contains kw (PyStr.lower s) = true <-> occurs_in kw s.
Proof.
  rewrite contains_app. split.
  - intros (pre & post & H).
    destruct (lower_app_inv _ _ _ H) as (s1 & s2 & -> & _ & H2).
    destruct (lower_app_inv _ _ _ H2) as (s3 & s4 & -> & H3 & _).
    by exists s1, s3, s4.
  - intros (pre & mid & post & -> & <-).
    exists (PyStr.lower pre), (PyStr.lower post). by rewrite !lower_app.
Qed.


(** C5. The classifier is a total function from strings into the closed
    set of four categories, and its value is decided by the
    case-insensitive occurrence of the key words, in the fixed priority
    order: "two" or "2w" gives 2W; otherwise "three", "3w" or "auto" gives
    3W; otherwise "four", "4w", "car" or "jeep" gives 4W; otherwise
    OTHER. *)
Theorem map_category_priority (s : string) :
  map_category s ∈ categories
  /\ (map_category s = "2W" <-> is_two s)
  /\ (map_category s = "3W" <-> ~ is_two s /\ is_three s)
  /\ (map_category s = "4W" <-> ~ is_two s /\ ~ is_three s /\ is_four s)
  /\ (map_category s = "OTHER" <-> ~ is_two s /\ ~ is_three s /\ ~ is_four s).
Proof.
  assert (H2 : PyStr.contains "two" (PyStr.lower s) || PyStr.contains "2w" (PyStr.lower s)
               = true <-> is_two s).
  { unfold is_two. by rewrite orb_true_iff, !contains_lower. }
  assert (H3 : PyStr.contains "three" (PyStr.lower s) || PyStr.contains "3w" (PyStr.lower s)
               || PyStr.contains "auto" (PyStr.lower s) = true <-> is_three s).
  { unfold is_three. rewrite !orb_true_iff, !contains_lower. tauto. }
  assert (H4 : PyStr.contains "four" (PyStr.lower s) || PyStr.contains "4w" (PyStr.lower s)
               || PyStr.contains "car" (PyStr.lower s) || PyStr.contains "jeep" (PyStr.lower s)
               = true <-> is_four s).
  { unfold is_four. rewrite !orb_true_iff, !contains_lower. tauto. }
  unfold map_category, categories. cbv zeta.
  destruct (_ || _) eqn:E2 in H2 |- *.
  - repeat split; try (intros; discriminate); try tauto; rewrite !elem_of_cons; tauto.
  - destruct (_ || _ || _) eqn:E3 in H3 |- *.
    + assert (~ is_two s) by (rewrite <- H2; discriminate).
      repeat split; try (intros; discriminate); try tauto; rewrite !elem_of_cons; tauto.
    + destruct (_ || _ || _ || _) eqn:E4 in H4 |- *.
      * assert (~ is_two s) by (rewrite <- H2; discriminate).
        assert (~ is_three s) by (rewrite <- H3; discriminate).
        repeat split; try (intros; discriminate); try tauto; rewrite !elem_of_cons; tauto.
      * assert (~ is_two s) by (rewrite <- H2; discriminate).
        assert (~ is_three s) by (rewrite <- H3; discriminate).
        assert (~ is_four s) by (rewrite <- H4; discriminate).
        repeat split; try (intros; discriminate); try tauto; rewrite !elem_of_cons; tauto.
Qed.

End ClassifierFacts.


(** ** Sums *)

Section Sums.


Lemma Qsum_app (l1 l2 : list Qc) : Qsum (l1 ++ l2) = (Qsum l1 + Qsum l2)%Qc.
Proof. induction l1 as [|x l1 IH]; simpl; [ring | rewrite IH; ring]. Qed.

Lemma Qsum_perm (l1 l2 : list Qc) : l1 ≡ₚ l2 -> Qsum l1 = Qsum l2.
Proof.
  induction 1 as [|x l1 l2 _ IH|x y l|l1 l2 l3 _ IH1 _ IH2]; simpl.
  - done.
  - by rewrite IH.
  - ring.
  - by rewrite IH1.
Qed.

Lemma sum_skipna_cons (v : option Qc) (l : list (option Qc)) :
  sum_skipna (v :: l) = (default 0%Qc v + sum_skipna l)%Qc.
Proof. unfold sum_skipna. destruct v; simpl; [done | by rewrite Qcplus_0_l]. Qed.

Lemma sum_skipna_somes (l : list Qc) : sum_skipna (Some <$> l) = Qsum l.
Proof. induction l as [|x l IH]; [done|]. by rewrite fmap_cons, sum_skipna_cons, IH. Qed.

End Sums.

(** ** The stable sort *)


Section SortFacts.
Context {A : Type} (cmp : A -> A -> comparison).


Lemma insert_sorted_perm (x : A) (l : list A) : insert_sorted cmp x l ≡ₚ x :: l.
Proof.
  induction l as [|y l IH]; simpl; [done|].
  destruct (leb cmp x y); [done|]. by rewrite IH, Permutation_swap.
Qed.

Lemma sort_perm (l : list A) : sort cmp l ≡ₚ l.
Proof.
  unfold sort. induction l as [|x l IH]; simpl; [done|].
  by rewrite insert_sorted_perm, IH.
Qed.

Lemma sort_fmap {B} (f : B -> A) (l : list B) :
  sort cmp (f <$> l) = f <$> sort (fun a b => cmp (f a) (f b)) l.
Proof.
  unfold sort. induction l as [|x l IH]; [done|].
  rewrite fmap_cons. cbn [foldr]. rewrite IH. clear IH.
  induction (foldr _ _ l) as [|y k IH]; [done|]. rewrite fmap_cons. cbn [insert_sorted].
  unfold leb. destruct (cmp (f x) (f y)); rewrite ?fmap_cons; fold (leb cmp); by rewrite ?IH.
Qed.

Section Total.
Hypothesis cmp_opp : forall x y, cmp y x = CompOpp (cmp x y).

Lemma le_total (x y : A) : le cmp x y \/ le cmp y x.
Proof.
  unfold le, leb. rewrite (cmp_opp x y). destruct (cmp x y); simpl; auto.
Qed.

Lemma insert_sorted_Sorted (x : A) (l : list A) :
  Sorted (le cmp) l -> Sorted (le cmp) (insert_sorted cmp x l).
Proof.
  induction 1 as [|y l Hl IH Hhd]; simpl; [by repeat constructor|].
  destruct (leb cmp x y) eqn:Hxy.
  - constructor; [by constructor | by constructor].
  - constructor; [done|].
    assert (le cmp y x) by (destruct (le_total x y) as [H|H]; [unfold le in H; congruence | done]).
    destruct Hhd as [|z l Hyz]; simpl; [by constructor|].
    destruct (leb cmp x z); by constructor.
Qed.

Lemma sort_Sorted_total (l : list A) : Sorted (le cmp) (sort cmp l).
Proof.
  unfold sort. induction l as [|x l IH]; simpl; [constructor | by apply insert_sorted_Sorted].
Qed.
End Total.

Context `{!Order cmp}.

#[local] Instance le_trans : Transitive (le cmp).
Proof.
  intros x y z. unfold le, leb.
  destruct (cmp x y) eqn:Hxy; [|  |done].
  - apply cmp_eq in Hxy as ->. done.
  - destruct (cmp y z) eqn:Hyz; [| |done].
    + apply cmp_eq in Hyz as <-. by rewrite Hxy.
    + by rewrite (cmp_lt_trans (cmp:=cmp) x y z).
Qed.

#[local] Instance le_antisym : AntiSymm (=) (le cmp).
Proof.
  intros x y. unfold le, leb. rewrite (cmp_antisym (cmp:=cmp) x y).
  destruct (cmp x y) eqn:Hxy; simpl; try done.
  intros _ _. by apply cmp_eq.
Qed.

Lemma sort_Sorted (l : list A) : Sorted (le cmp) (sort cmp l).
Proof. apply sort_Sorted_total, cmp_antisym. Qed.

Lemma sort_unique (l1 l2 : list A) : l1 ≡ₚ l2 -> sort cmp l1 = sort cmp l2.
Proof.
  intros H. apply (Sorted_unique (le cmp)); [apply sort_Sorted | apply sort_Sorted |].
  by rewrite !sort_perm.
Qed.

Lemma sort_of_Sorted (l : list A) : Sorted (le cmp) l -> sort cmp l = l.
Proof.
  intros H. apply (Sorted_unique (le cmp)); [apply sort_Sorted | done | apply sort_perm].
Qed.

End SortFacts.

(** ** The orders of the keys *)

Section Orders.

Lemma lex_assoc (a b c : comparison) : lex (lex a b) c = lex a (lex b c).
Proof. by destruct a. Qed.

Lemma Order_ext {A} (cmp cmp' : A -> A -> comparison) :
  (forall x y, cmp x y = cmp' x y) -> Order cmp' -> Order cmp.
Proof.
  intros E [H1 H2 H3]. split; intros *; rewrite !E; [apply H1 | apply H2 | apply H3].
Qed.

Lemma Order_inj {A B} (f : A -> B) (cmp : B -> B -> comparison) :
  Inj (=) (=) f -> Order cmp -> Order (fun x y => cmp (f x) (f y)).
Proof.
  intros Hf [H1 H2 H3]. split; intros *.
  - rewrite H1. split; [apply Hf | by intros ->].
  - apply H2.
  - apply H3.
Qed.

#[global] Instance Z_order : Order Z.compare.
Proof.
  split; intros *.
  - apply Z.compare_eq_iff.
  - apply Z.compare_antisym.
  - rewrite !Z.compare_lt_iff. lia.
Qed.

#[global] Instance N_order : Order N.compare.
Proof.
  split; intros *.
  - apply N.compare_eq_iff.
  - apply N.compare_antisym.
  - rewrite !N.compare_lt_iff. lia.
Qed.

#[global] Instance ascii_order : Order Ascii.compare.
Proof.
  apply (Order_inj N_of_ascii N.compare); [|apply _].
  intros a b H. by rewrite <- (ascii_N_embedding a), <- (ascii_N_embedding b), H.
Qed.


#[global] Instance pair_order {A B} (ca : A -> A -> comparison) (cb : B -> B -> comparison) :
  Order ca -> Order cb -> Order (cmp_pair ca cb).
Proof.
  intros Ha Hb. split; unfold cmp_pair, lex.
  - intros [a b] [a' b']; simpl. destruct (ca a a') eqn:E.
    + apply cmp_eq in E as ->. rewrite cmp_eq. split; [by intros -> | by intros [=]].
    + split; [done | intros [= -> ->]]. rewrite (proj2 (cmp_eq (cmp:=ca) a' a')) in E; done.
    + split; [done | intros [= -> ->]]. rewrite (proj2 (cmp_eq (cmp:=ca) a' a')) in E; done.
  - intros [a b] [a' b']; simpl. rewrite (cmp_antisym (cmp:=ca) a a'), (cmp_antisym (cmp:=cb) b b').
    by destruct (ca a a').
  - intros [a b] [a' b'] [a'' b'']; simpl.
    destruct (ca a a') eqn:E1; [|  |done].
    + apply cmp_eq in E1 as ->. destruct (ca a' a''); [|done..]. apply cmp_lt_trans.
    + destruct (ca a' a'') eqn:E2; [| |done].
      * apply cmp_eq in E2 as <-. by rewrite E1.
      * by rewrite (cmp_lt_trans (cmp:=ca) a a' a'').
Qed.

#[global] Instance string_order : Order String.compare.
Proof.
  split.
  - intros x y. split; [apply String.compare_eq_iff|]. intros <-.
    induction x as [|c x IH]; simpl; [done|].
    by rewrite (proj2 (cmp_eq (cmp:=Ascii.compare) c c)).
  - intros x y. apply String.compare_antisym.
  - intros x. induction x as [|a x IH]; intros [|b y] [|c z]; simpl; try done.
    destruct (Ascii.compare a b) eqn:E1; [|  |done].
    + apply cmp_eq in E1 as ->. destruct (Ascii.compare b c); [|done..]. apply IH.
    + destruct (Ascii.compare b c) eqn:E2; [| |done].
      * apply cmp_eq in E2 as <-. by rewrite E1.
      * by rewrite (cmp_lt_trans (cmp:=Ascii.compare) a b c).
Qed.

#[global] Instance timestamp_order : Order cmp_timestamp.
Proof.
  apply (Order_ext _
    (fun a b => cmp_pair (cmp_pair (cmp_pair Z.compare Z.compare) Z.compare) Z.compare
                  (ts_year a, ts_month a, ts_day a, ts_time a)
                  (ts_year b, ts_month b, ts_day b, ts_time b))).
  - intros a b. unfold cmp_timestamp, cmp_pair; simpl. by rewrite !lex_assoc.
  - apply (Order_inj (fun a => (ts_year a, ts_month a, ts_day a, ts_time a))); [|apply _].
    intros [] [] [=]; by subst.
Qed.

#[global] Instance key_order : Order Processing.cmp_key.
Proof.
  apply (Order_ext _ (cmp_pair (cmp_pair cmp_timestamp String.compare) String.compare)).
  - intros a b. unfold Processing.cmp_key, cmp_pair. by rewrite lex_assoc.
  - apply _.
Qed.

End Orders.

(** ** groupby *)

Section GroupByFacts.
Context {K : Type} `{EqDecision K} (cmp : K -> K -> comparison).
Implicit Types kvs : list (option K * option Qc).

Lemma filter_ext_in {A} (P Q : A -> Prop) `{!forall x, Decision (P x), !forall x, Decision (Q x)}
    (l : list A) :
  (forall x, x ∈ l -> P x <-> Q x) -> filter P l = filter Q l.
Proof.
  induction l as [|x l IH]; intros Hext; [done|].
  rewrite !filter_cons.
  rewrite IH by (intros y Hy; apply Hext; by right).
  pose proof (Hext x (list_elem_of_here _ _)) as Hx.
  destruct (decide (P x)), (decide (Q x)); tauto || done.
Qed.

Lemma remove_dups_NoDup {A} `{EqDecision A} (l : list A) : NoDup l -> remove_dups l = l.
Proof.
  induction 1 as [|x l Hx _ IH]; simpl; [done|].
  destruct (decide_rel _ x l); [done | by rewrite IH].
Qed.

Lemma group_cons k kv kvs :
  group k (kv :: kvs) = if decide (kv.1 = Some k) then kv.2 :: group k kvs else group k kvs.
Proof. unfold group. rewrite filter_cons. by destruct (decide _). Qed.


Lemma sum_groups_step k L kvs :
  k ∉ L ->
  sum_skipna (snd <$> filter (key_in (k :: L)) kvs)
  = (sum_skipna (group k kvs) + sum_skipna (snd <$> filter (key_in L) kvs))%Qc.
Proof.
  intros Hk. induction kvs as [|[k' v] kvs IH].
  - unfold sum_skipna; simpl. ring.
  - rewrite group_cons, !filter_cons.
    destruct (decide ((k', v).1 = Some k)) as [E|E]; simpl in E.
    + subst k'.
      rewrite decide_True by (unfold key_in; simpl; by left).
      rewrite (decide_False (P:=key_in L _)) by done.
      rewrite fmap_cons, !sum_skipna_cons, IH. simpl. ring.
    + destruct (decide (key_in L (k', v))) as [Hin|Hin].
      * rewrite decide_True
          by (unfold key_in in *; simpl in *; destruct k'; [by right | done]).
        rewrite !fmap_cons, !sum_skipna_cons, IH. simpl. ring.
      * rewrite decide_False; [done|].
        unfold key_in in *; simpl in *. destruct k' as [k'|]; [|done].
        rewrite elem_of_cons. intros [->|?]; [by apply E | by apply Hin].
Qed.

Lemma sum_groups L kvs :
  NoDup L ->
  Qsum ((fun k => sum_skipna (group k kvs)) <$> L)
  = sum_skipna (snd <$> filter (key_in L) kvs).
Proof.
  induction 1 as [|k L Hk _ IH].
  - rewrite (filter_ext_in _ (fun _ => False)).
    + by induction kvs as [|kv kvs IHk]; [|rewrite filter_cons, decide_False by tauto].
    + intros [[k|] v] _; unfold key_in; simpl; [by rewrite elem_of_nil | done].
  - rewrite fmap_cons, sum_groups_step by done. simpl. by rewrite IH.
Qed.

Lemma groupby_sum_keys kvs :
  (groupby_sum cmp kvs).*1 = sort cmp (remove_dups (omap fst kvs)).
Proof.
  unfold groupby_sum. rewrite <- list_fmap_compose.
  by rewrite (list_fmap_ext _ id) by done; rewrite list_fmap_id.
Qed.

Lemma groupby_sum_NoDup kvs : NoDup (groupby_sum cmp kvs).*1.
Proof. rewrite groupby_sum_keys, sort_perm. apply NoDup_remove_dups. Qed.

Lemma elem_of_groupby_sum kvs k t :
  (k, t) ∈ groupby_sum cmp kvs
  <-> (exists v, (Some k, v) ∈ kvs) /\ t = sum_skipna (group k kvs).
Proof.
  unfold groupby_sum. rewrite list_elem_of_fmap. setoid_rewrite sort_perm.
  setoid_rewrite elem_of_remove_dups. setoid_rewrite list_elem_of_omap. split.
  - intros (k' & [= -> ->] & [k0 v] & Hin & Hk). simpl in Hk. subst. eauto.
  - intros [[v Hin] ->]. exists k. split; [done|]. by exists (Some k, v).
Qed.

(** Grouping keeps the mass of the rows that have a key. *)
Lemma groupby_sum_total kvs :
  Qsum (groupby_sum cmp kvs).*2
  = sum_skipna (snd <$> filter (fun kv => is_Some kv.1) kvs).
Proof.
  unfold groupby_sum. rewrite <- list_fmap_compose.
  rewrite (list_fmap_ext _ (fun k => sum_skipna (group k kvs))) by done.
  rewrite (Qsum_perm _ ((fun k => sum_skipna (group k kvs)) <$> remove_dups (omap fst kvs)))
    by (by rewrite sort_perm).
  rewrite sum_groups by apply NoDup_remove_dups.
  f_equal. f_equal. apply filter_ext_in. intros [[k|] v] Hin; unfold key_in; simpl.
  - rewrite elem_of_remove_dups, list_elem_of_omap. split; [by eauto|].
    intros _. by exists (Some k, v).
  - split; [done | by intros [? ?]].
Qed.

(** Rows without a key play no part. *)
Lemma groupby_sum_ext kvs kvs' :
  omap fst kvs = omap fst kvs' -> (forall k, group k kvs = group k kvs') ->
  groupby_sum cmp kvs = groupby_sum cmp kvs'.
Proof.
  intros H1 H2. unfold groupby_sum. rewrite H1.
  apply list_fmap_ext. intros _ k _. by rewrite H2.
Qed.

Lemma filter_key_NoDup (G : list (K * Qc)) k t :
  NoDup G.*1 -> (k, t) ∈ G -> filter (fun g => g.1 = k) G = [(k, t)].
Proof.
  induction G as [|[k' t'] G IH]; intros Hnd Hin; [by apply elem_of_nil in Hin|].
  rewrite fmap_cons in Hnd. apply NoDup_cons in Hnd as [Hk' Hnd].
  rewrite filter_cons. simpl. apply elem_of_cons in Hin as [[= <- <-]|Hin].
  - rewrite decide_True by done. f_equal.
    rewrite (filter_ext_in _ (fun _ => False)).
    + clear. by induction G as [|g G IHk]; [|rewrite filter_cons, decide_False by tauto].
    + intros [k2 t2] Hin2. simpl. split; [|done]. intros ->.
      apply Hk'. apply list_elem_of_fmap. by exists (k, t2).
  - rewrite decide_False; [by apply IH|].
    intros ->. apply Hk'. apply list_elem_of_fmap. by exists (k, t).
Qed.


(** Grouping a table that already has one row per key, in the order of
    the keys, gives the table back, whatever the order its rows come in. *)
Lemma groupby_sum_fixed `{!Order cmp} (G l : list (K * Qc)) :
  Sorted (le cmp) G.*1 -> NoDup G.*1 -> l ≡ₚ G ->
  groupby_sum cmp (with_key <$> l) = G.
Proof.
  intros Hs Hnd Hp. unfold groupby_sum.
  assert (Hk : omap fst (with_key <$> l) = l.*1).
  { clear. induction l as [|g l IH]; [done|]. rewrite !fmap_cons. simpl. f_equal. apply IH. }
  rewrite Hk, remove_dups_NoDup by (by rewrite Hp).
  rewrite (sort_unique cmp _ G.*1) by (by rewrite Hp).
  rewrite sort_of_Sorted by done.
  assert (Hg : forall g, g ∈ G ->
             sum_skipna (group g.1 (with_key <$> l)) = g.2).
  { intros [k t] Hin. simpl.
    assert (E : group k (with_key <$> l)
                = Some <$> (filter (fun g => g.1 = k) l).*2).
    { clear. unfold group. induction l as [|g l IH]; [done|].
      rewrite fmap_cons, !filter_cons. simpl.
      destruct (decide (g.1 = k)) as [->|Hne].
      - rewrite decide_True by done. rewrite !fmap_cons. by rewrite IH.
      - rewrite decide_False by congruence. done. }
    rewrite E, sum_skipna_somes.
    rewrite (Qsum_perm _ (filter (fun g => g.1 = k) G).*2) by (by rewrite Hp).
    rewrite (filter_key_NoDup G k t) by done. simpl. ring. }
  clear Hs Hnd Hp Hk. induction G as [|[k t] G IH]; [done|].
  rewrite !fmap_cons. simpl. f_equal.
  - f_equal. apply (Hg (k, t)). by left.
  - apply IH. intros g Hin. apply Hg. by right.
Qed.

End GroupByFacts.

(** ** float64 sums of whole numbers *)

Section FloatFacts.

Lemma Q2Qc_inject (z : Z) : this (Q2Qc (inject_Z z)) = inject_Z z.
Proof. simpl. apply Qred_identity. simpl. apply Z.gcd_1_r. Qed.

Lemma inject_add (a b : Z) :
  (Q2Qc (inject_Z a) + Q2Qc (inject_Z b))%Qc = Q2Qc (inject_Z (a + b)).
Proof.
  apply Qc_is_canon. simpl. rewrite !Qred_correct. by rewrite inject_Z_plus.
Qed.

Lemma whole_inject (q : Qc) : Qden q = 1%positive -> q = Q2Qc (inject_Z (Qnum q)).
Proof.
  intros Hd. apply Qc_is_canon. simpl. rewrite Qred_correct.
  destruct q as [[n d] Hc]. simpl in *. by rewrite Hd.
Qed.

Lemma round_pos_whole (a : Z) :
  0 < a <= 2 ^ 53 -> (Float64.round_pos a 1 == inject_Z a)%Q.
Proof.
  intros [Ha Hb]. unfold Float64.round_pos, Float64.ilog2.
  change (Z.log2 1) with 0. rewrite Z.sub_0_r.
  pose proof (Z.log2_nonneg a) as Hl0.
  destruct (Z.log2_spec a Ha) as [Hlo Hhi].
  assert (Hl53 : Z.log2 a <= 53).
  { change 53 with (Z.log2 (2 ^ 53)). by apply Z.log2_le_mono. }
  rewrite (proj2 (Z.leb_le 0 (Z.log2 a)) Hl0).
  rewrite (proj2 (Z.leb_le (1 * 2 ^ Z.log2 a) a)) by lia.
  set (s := Z.log2 a - 52).
  destruct (Z.leb_spec 0 s) as [Hs|Hs].
  - assert (Hm : a mod (1 * 2 ^ s) = 0 /\ 0 < 1 * 2 ^ s).
    { destruct (Z.eq_dec (Z.log2 a) 53) as [E|E].
      - assert (a = 2 ^ 53) as -> by (rewrite E in Hlo; lia).
        unfold s. rewrite E. by vm_compute.
      - assert (s = 0) as -> by (unfold s; lia). split; [|lia].
        change (1 * 2 ^ 0) with 1. apply Z.mod_1_r. }
    destruct Hm as [Hm Hpos]. rewrite Hm.
    rewrite (proj2 (Z.ltb_lt (2 * 0) (1 * 2 ^ s))) by lia.
    unfold Qeq. simpl. rewrite !Z.mul_1_r.
    rewrite Z.mul_1_l in *. rewrite Z.mul_comm. symmetry.
    apply Z.div_exact; [lia|done].
  - assert (Hp : 0 < 2 ^ (- s)) by (apply Z.pow_pos_nonneg; lia).
    rewrite Z.mod_1_r, Z.div_1_r. change (2 * 0 <? 1) with true. cbv iota.
    unfold Qeq. simpl. rewrite Z2Pos.id by done. lia.
Qed.

(** A whole number of absolute value at most [2 ^ 53] is a float64 number. *)
Lemma round_whole (z : Z) :
  Z.abs z <= 2 ^ 53 -> Float64.round (Q2Qc (inject_Z z)) = Q2Qc (inject_Z z).
Proof.
  intros Hz. unfold Float64.round. rewrite Q2Qc_inject. simpl.
  destruct z as [|a|a]; [by apply Qc_is_canon| |].
  - apply Q2Qc_eq_iff. apply round_pos_whole. lia.
  - apply Q2Qc_eq_iff. rewrite (round_pos_whole (Z.pos a)) by lia. reflexivity.
Qed.

Lemma Zsum_cons (x : Z) (l : list Z) : Zsum (x :: l) = x + Zsum l.
Proof. done. Qed.

Lemma Zsum_app (l1 l2 : list Z) : Zsum (l1 ++ l2) = Zsum l1 + Zsum l2.
Proof. induction l1 as [|x l1 IH]; simpl; lia. Qed.

Lemma Zsum_perm (l1 l2 : list Z) : l1 ≡ₚ l2 -> Zsum l1 = Zsum l2.
Proof. induction 1; simpl; lia. Qed.

Lemma mass_cons (v : option Qc) (l : list (option Qc)) :
  mass (v :: l) = Z.abs (count_of v) + mass l.
Proof. done. Qed.

Lemma mass_nonneg (l : list (option Qc)) : 0 <= mass l.
Proof.
  induction l as [|v l IH]; [done|]. rewrite mass_cons.
  pose proof (Z.abs_nonneg (count_of v)). lia.
Qed.

Lemma whole_counts_perm (l1 l2 : list (option Qc)) :
  l1 ≡ₚ l2 -> whole_counts l1 -> whole_counts l2.
Proof.
  intros Hp [Hw Hm]. split; [by rewrite <- Hp|].
  unfold mass in *. by rewrite <- (Zsum_perm _ _ (fmap_Permutation _ _ _ Hp)).
Qed.

(** The exact sum of whole numbers. *)
Lemma sum_skipna_whole (l : list (option Qc)) :
  Forall (fun v => from_option (fun q : Qc => Qden q = 1%positive) True v) l ->
  sum_skipna l = Q2Qc (inject_Z (Zsum (count_of <$> l))).
Proof.
  induction 1 as [|v l Hv _ IH]; [by apply Qc_is_canon|].
  rewrite sum_skipna_cons, IH, fmap_cons. cbn [Zsum foldr]. fold (Zsum (count_of <$> l)).
  rewrite <- inject_add. f_equal.
  destruct v as [q|]; simpl in *; [by apply whole_inject|by apply Qc_is_canon].
Qed.

Lemma float_sum_from (l : list (option Qc)) (acc : Z) :
  Forall (fun v => from_option (fun q : Qc => Qden q = 1%positive) True v) l ->
  Z.abs acc + mass l <= 2 ^ 53 ->
  fold_left Float64.add (omap id l) (Q2Qc (inject_Z acc))
  = Q2Qc (inject_Z (acc + Zsum (count_of <$> l))).
Proof.
  intros Hw. revert acc. induction Hw as [|v l Hv _ IH]; intros acc Hm.
  - simpl. by rewrite Z.add_0_r.
  - rewrite mass_cons in Hm. pose proof (mass_nonneg l) as Hn.
    rewrite fmap_cons. cbn [Zsum foldr]. fold (Zsum (count_of <$> l)).
    destruct v as [q|]; cbn [omap list_omap id count_of from_option] in *.
    + pose proof (whole_inject q Hv) as Hq. set (z := Qnum q) in *. clearbody z.
      cbn [fold_left]. unfold Float64.add at 2.
      rewrite Hq, inject_add, round_whole by lia.
      rewrite IH by lia. f_equal. f_equal. lia.
    + rewrite IH by lia. repeat f_equal; lia.
Qed.

(** The float64 sum of such cells is their exact sum. *)
Lemma float_sum_whole (l : list (option Qc)) :
  whole_counts l -> Float64.sum l = sum_skipna l.
Proof.
  intros [Hw Hm]. rewrite (sum_skipna_whole l Hw). unfold Float64.sum.
  change 0%Qc with (Q2Qc (inject_Z 0)).
  rewrite (float_sum_from l 0 Hw) by (simpl; lia). done.
Qed.

Lemma inject_sub (a b : Z) :
  (Q2Qc (inject_Z a) - Q2Qc (inject_Z b))%Qc = Q2Qc (inject_Z (a - b)).
Proof.
  apply Qc_is_canon. simpl. rewrite !Qred_correct.
  unfold Z.sub. by rewrite inject_Z_plus, inject_Z_opp.
Qed.

Lemma group_sum_from (l : list (option Qc)) (acc : Z) :
  Forall (fun v => from_option (fun q : Qc => Qden q = 1%positive) True v) l ->
  Z.abs acc + mass l <= 2 ^ 53 ->
  fold_left Float64.compensated (omap id l) (Q2Qc (inject_Z acc), Q2Qc (inject_Z 0))
  = (Q2Qc (inject_Z (acc + Zsum (count_of <$> l))), Q2Qc (inject_Z 0)).
Proof.
  intros Hw. revert acc. induction Hw as [|v l Hv _ IH]; intros acc Hm.
  - simpl. by rewrite Z.add_0_r.
  - rewrite mass_cons in Hm. pose proof (mass_nonneg l) as Hn.
    rewrite fmap_cons. cbn [Zsum foldr]. fold (Zsum (count_of <$> l)).
    destruct v as [q|]; cbn [omap list_omap id count_of from_option] in *.
    + pose proof (whole_inject q Hv) as Hq. set (z := Qnum q) in *. clearbody z.
      cbn [fold_left]. rewrite Hq.
      assert (Hstep : Float64.compensated (Q2Qc (inject_Z acc), Q2Qc (inject_Z 0))
                        (Q2Qc (inject_Z z))
                      = (Q2Qc (inject_Z (acc + z)), Q2Qc (inject_Z 0))).
      { unfold Float64.compensated, Float64.sub, Float64.add. cbn [fst snd].
        rewrite inject_sub, Z.sub_0_r, round_whole by lia.
        rewrite inject_add, round_whole by lia.
        rewrite inject_sub, round_whole by (replace (acc + z - acc) with z; lia).
        rewrite inject_sub, round_whole by (replace (acc + z - acc - z) with 0; lia).
        do 3 f_equal. lia. }
      rewrite Hstep, IH by lia. by rewrite Z.add_assoc.
    + by rewrite IH by lia.
Qed.

(** The float64 sum of a group of such cells is their exact sum. *)
Lemma group_sum_whole (l : list (option Qc)) :
  whole_counts l -> Float64.group_sum l = sum_skipna l.
Proof.
  intros [Hw Hm]. rewrite (sum_skipna_whole l Hw). unfold Float64.group_sum.
  change 0%Qc with (Q2Qc (inject_Z 0)).
  by rewrite (group_sum_from l 0 Hw) by (simpl; lia).
Qed.

Lemma abs_count_sum (l : list (option Qc)) : Z.abs (Zsum (count_of <$> l)) <= mass l.
Proof.
  induction l as [|v l IH]; [done|]. rewrite mass_cons, fmap_cons.
  cbn [Zsum foldr]. fold (Zsum (count_of <$> l)). lia.
Qed.

Lemma Zsum_le {A} (g1 g2 : A -> Z) (l : list A) :
  (forall x, x ∈ l -> g1 x <= g2 x) -> Zsum (g1 <$> l) <= Zsum (g2 <$> l).
Proof.
  induction l as [|x l IH]; intros Hle; [done|].
  rewrite !fmap_cons, !Zsum_cons.
  pose proof (Hle x (list_elem_of_here _ _)).
  assert (Zsum (g1 <$> l) <= Zsum (g2 <$> l)) by (apply IH; intros y Hy; apply Hle; by right).
  lia.
Qed.

Section Groups.
Context {K : Type} `{EqDecision K} (cmp : K -> K -> comparison).
Implicit Types kvs : list (option K * option Qc).

Variable f : option Qc -> Z.

Lemma Zsum_groups_step k L kvs :
  k ∉ L ->
  Zsum (f <$> (snd <$> filter (key_in (k :: L)) kvs))
  = Zsum (f <$> group k kvs) + Zsum (f <$> (snd <$> filter (key_in L) kvs)).
Proof.
  intros Hk. induction kvs as [|[k' v] kvs IH]; [done|].
  rewrite group_cons, !filter_cons.
  destruct (decide ((k', v).1 = Some k)) as [E|E]; simpl in E.
  - subst k'.
    rewrite decide_True by (unfold key_in; simpl; by left).
    rewrite (decide_False (P:=key_in L _)) by done.
    rewrite !fmap_cons, !Zsum_cons, IH. cbn [snd]. lia.
  - destruct (decide (key_in L (k', v))) as [Hin|Hin].
    + rewrite decide_True
        by (unfold key_in in *; simpl in *; destruct k'; [by right | done]).
      rewrite !fmap_cons, !Zsum_cons, IH. cbn [snd]. lia.
    + rewrite decide_False; [done|].
      unfold key_in in *; simpl in *. destruct k' as [k'|]; [|done].
      rewrite elem_of_cons. intros [->|?]; [by apply E | by apply Hin].
Qed.

(** The groups of distinct keys share out the cells of the rows that carry
    those keys. *)
Lemma Zsum_groups L kvs :
  NoDup L ->
  Zsum ((fun k => Zsum (f <$> group k kvs)) <$> L)
  = Zsum (f <$> (snd <$> filter (key_in L) kvs)).
Proof.
  induction 1 as [|k L Hk _ IH].
  - rewrite (filter_ext_in _ (fun _ => False)).
    + by induction kvs as [|kv kvs IHk]; [|rewrite filter_cons, decide_False by tauto].
    + intros [[k|] v] _; unfold key_in; simpl; [by rewrite elem_of_nil | done].
  - by rewrite fmap_cons, Zsum_groups_step, Zsum_cons, IH by done.
Qed.

End Groups.

Section WholeGroups.
Context {K : Type} `{EqDecision K} (cmp : K -> K -> comparison).
Implicit Types kvs : list (option K * option Qc).

Lemma mass_filter_le (P Q : option K * option Qc -> Prop)
    `{!forall x, Decision (P x), !forall x, Decision (Q x)} kvs :
  (forall kv, P kv -> Q kv) ->
  mass (snd <$> filter P kvs) <= mass (snd <$> filter Q kvs).
Proof.
  intros HPQ. induction kvs as [|kv kvs IH]; [done|].
  rewrite !filter_cons. pose proof (Z.abs_nonneg (count_of kv.2)).
  destruct (decide (P kv)) as [HP|HP].
  - rewrite decide_True by auto. rewrite !fmap_cons, !mass_cons. lia.
  - destruct (decide (Q kv)); [|done]. rewrite fmap_cons, mass_cons. lia.
Qed.

(** A group of cells that are whole counts is one as well. *)
Lemma group_whole k kvs :
  whole_counts (snd <$> filter (fun kv => is_Some kv.1) kvs) -> whole_counts (group k kvs).
Proof.
  intros [Hw Hm]. split.
  - rewrite Forall_forall in Hw |- *. intros v Hv. apply Hw.
    unfold group in Hv. rewrite list_elem_of_fmap in Hv |- *.
    destruct Hv as (kv & -> & Hin). exists kv. split; [done|].
    apply list_elem_of_filter in Hin as [Hk Hin]. apply list_elem_of_filter.
    split; [by rewrite Hk|done].
  - etrans; [|exact Hm]. unfold group. apply mass_filter_le. intros kv ->. done.
Qed.

(** On whole counts the float64 sum of each group is its exact sum. *)
Lemma groupby_sum64_whole kvs :
  whole_counts (snd <$> filter (fun kv => is_Some kv.1) kvs) ->
  groupby_sum64 cmp kvs = groupby_sum cmp kvs.
Proof.
  intros Hw. unfold groupby_sum64, groupby_sum. apply list_fmap_ext.
  intros i k _. f_equal. apply group_sum_whole. by apply group_whole.
Qed.

(** The sums of the groups of whole counts are whole counts. *)
Lemma groupby_sum_whole (l : list (K * Qc)) kvs :
  l ≡ₚ groupby_sum cmp kvs ->
  whole_counts (snd <$> filter (fun kv => is_Some kv.1) kvs) ->
  whole_counts ((fun g => Some g.2) <$> l).
Proof.
  intros Hl Hw.
  apply (whole_counts_perm ((fun g : K * Qc => Some g.2) <$> groupby_sum cmp kvs));
    [by rewrite Hl|].
  pose proof Hw as [_ Hm]. unfold groupby_sum. rewrite <- list_fmap_compose.
  set (L := sort cmp (remove_dups (omap fst kvs))).
  assert (Hsum : forall k, sum_skipna (group k kvs)
                           = Q2Qc (inject_Z (Zsum (count_of <$> group k kvs)))).
  { intros k. apply sum_skipna_whole. by apply (group_whole k kvs). }
  split.
  - apply Forall_forall. intros v Hv. apply list_elem_of_fmap in Hv as (k & -> & _).
    cbn. rewrite Hsum, Q2Qc_inject. done.
  - etrans; [|exact Hm]. unfold mass. rewrite <- list_fmap_compose.
    etrans; [apply (Zsum_le _ (fun k => Zsum ((fun v => Z.abs (count_of v)) <$> group k kvs)))|].
    + intros k _. cbn. rewrite Hsum, Q2Qc_inject. cbn. apply abs_count_sum.
    + rewrite (Zsum_groups (fun v => Z.abs (count_of v)) L kvs)
        by (unfold L; rewrite sort_perm; apply NoDup_remove_dups).
      apply (mass_filter_le (key_in L) (fun kv => is_Some kv.1)).
      intros [[k|] v]; unfold key_in; simpl; [by eexists|done].
Qed.

End WholeGroups.

End FloatFacts.

(** ** [aggregate] *)

Section AggregateFacts.
Import Processing.

Variable rd : string -> option Timestamp.


(** The two ways in which [aggregate] returns. *)
Lemma aggregate_Ok (df : frame Fact.t) (freq : string) (out : frame Agg.t) :
  aggregate rd df freq = Ok out ->
  (empty df || negb (has_column "registrations" df) = true /\ out = Frame agg_columns [])
  \/ (exists floor,
        empty df = false /\ has_column "registrations" df = true
        /\ has_column "period" df = true /\ period_floor freq = Ok floor
        /\ has_column "vehicle_category" df = true /\ has_column "manufacturer" df = true
        /\ out = Frame agg_columns
                   (sort cmp_row (row_of_group <$> groupby_sum cmp_key (keyed rd floor (rows df))))).
Proof.
  unfold aggregate. destruct (empty df || negb (has_column "registrations" df)) eqn:Hg.
  - intros [= <-]. by left.
  - apply orb_false_iff in Hg as [He Hr]. apply negb_false_iff in Hr.
    unfold require_columns.
    destruct (has_column "period" df) eqn:Hp; [|done]. simpl.
    destruct (period_floor freq) as [e|floor] eqn:Hf; [done|]. simpl.
    destruct (has_column "vehicle_category" df) eqn:Hc; [|done].
    destruct (has_column "manufacturer" df) eqn:Hm; [|done]. simpl.
    intros [= <-]. right. by exists floor.
Qed.

Lemma supported_frequency (freq : string) (floor : Timestamp -> Timestamp) :
  period_floor freq = Ok floor -> freq ∈ ["M"; "Q"; "Y"].
Proof.
  unfold period_floor. repeat case_bool_decide; subst; rewrite ?elem_of_cons; auto; done.
Qed.

Lemma period_floor_idempotent (freq : string) (floor : Timestamp -> Timestamp) (t : Timestamp) :
  period_floor freq = Ok floor -> floor (floor t) = floor t.
Proof.
  unfold period_floor. repeat case_bool_decide; intros [= <-]; try done.
  unfold floor_quarter; simpl. f_equal.
  replace (3 * ((ts_month t - 1) / 3) + 1 - 1) with ((ts_month t - 1) / 3 * 3) by lia.
  by rewrite Z.div_mul.
Qed.


Lemma fact_key_kept floor r : is_Some (fact_key rd floor r) <-> kept rd r.
Proof.
  unfold fact_key, kept.
  destruct (to_datetime rd _), (Fact.vehicle_category r), (Fact.manufacturer r);
    split; intros H; try done; try (by destruct H as (?&?&?); exfalso; eapply is_Some_None);
    try (by apply is_Some_None in H).
Qed.

Lemma keyed_kept floor (l : list Fact.t) :
  snd <$> filter (fun kv => is_Some kv.1) (keyed rd floor l)
  = Fact.registrations <$> filter (kept rd) l.
Proof.
  unfold keyed. induction l as [|r l IH]; [done|].
  rewrite fmap_cons, !filter_cons. simpl.
  destruct (decide (is_Some (fact_key rd floor r))) as [Hk|Hk].
  - rewrite decide_True by (by apply (fact_key_kept floor)). by rewrite !fmap_cons, IH.
  - rewrite decide_False by (by rewrite <- (fact_key_kept floor)). done.
Qed.

Lemma total_row_of_group (G : list (key * Qc)) :
  Agg.total <$> (row_of_group <$> G) = G.*2.
Proof. rewrite <- list_fmap_compose. by apply list_fmap_ext. Qed.

(** With sums taken exactly: when the table has a registrations column,
    the totals of the result of [aggregate] add up to the registrations of
    the rows that the grouping does not drop. *)
Lemma aggregate_conserves_exactly (df : frame Fact.t) (freq : string)
    (out : frame Agg.t) :
  has_column "registrations" df = true ->
  aggregate rd df freq = Ok out ->
  Qsum (Agg.total <$> rows out)
  = sum_skipna (Fact.registrations <$> filter (kept rd) (rows df)).
Proof.
  intros Hreg Hagg. apply aggregate_Ok in Hagg as [[Hg ->]|(floor & _ & _ & _ & _ & _ & _ & ->)].
  - rewrite Hreg, orb_false_r in Hg. unfold empty in Hg.
    apply orb_true_iff in Hg as [Hc|Hr]; apply bool_decide_eq_true in Hc || apply bool_decide_eq_true in Hr.
    + unfold has_column in Hreg. apply bool_decide_eq_true in Hreg.
      rewrite Hc in Hreg. by apply elem_of_nil in Hreg.
    + apply length_zero_iff_nil in Hr. by rewrite Hr.
  - simpl. rewrite (Qsum_perm _ (Agg.total <$> (row_of_group <$> groupby_sum cmp_key
                                                   (keyed rd floor (rows df)))))
      by (by rewrite sort_perm).
    by rewrite total_row_of_group, groupby_sum_total, keyed_kept.
Qed.

Lemma fact_key_has_period floor r : ~ has_period rd r -> fact_key rd floor r = None.
Proof.
  unfold has_period, fact_key. destruct (to_datetime rd _); [|done].
  intros H. exfalso. apply H. by eexists.
Qed.

Lemma keyed_filter_has_period floor (l : list Fact.t) :
  omap fst (keyed rd floor (filter (has_period rd) l)) = omap fst (keyed rd floor l)
  /\ forall k, group k (keyed rd floor (filter (has_period rd) l)) = group k (keyed rd floor l).
Proof.
  unfold keyed. induction l as [|r l [IH1 IH2]]; [done|].
  rewrite filter_cons. destruct (decide (has_period rd r)) as [Hp|Hp].
  - rewrite !fmap_cons. split.
    + simpl. destruct (fact_key rd floor r); [f_equal|]; apply IH1.
    + intros k. by rewrite !group_cons, IH2.
  - rewrite fmap_cons. split.
    + simpl. rewrite (fact_key_has_period floor r Hp). apply IH1.
    + intros k. rewrite group_cons. simpl. rewrite (fact_key_has_period floor r Hp).
      rewrite decide_False by done. apply IH2.
Qed.

Lemma elem_of_keyed floor (l : list Fact.t) k v :
  (Some k, v) ∈ keyed rd floor l ->
  exists r t, r ∈ l /\ to_datetime rd (Fact.period r) = Some t
              /\ Fact.vehicle_category r = Some k.1.2 /\ Fact.manufacturer r = Some k.2
              /\ k.1.1 = floor t.
Proof.
  unfold keyed. rewrite list_elem_of_fmap. intros (r & [= Hk _] & Hin).
  unfold fact_key in Hk.
  destruct (to_datetime rd _) as [t|] eqn:Ht, (Fact.vehicle_category r) eqn:Hc,
    (Fact.manufacturer r) eqn:Hm; try done.
  injection Hk as ->. by exists r, t.
Qed.

(** C10. A row whose period is unset, or is a text that cannot be read as
    a date, is in no group of [aggregate]: every row of the result is the
    bucket of input rows whose period is a timestamp, and the result is the
    one obtained from the table without the rows that have no period. *)
Theorem aggregate_excludes_unset_periods (df : frame Fact.t) (freq : string)
    (out : frame Agg.t) :
  aggregate rd df freq = Ok out ->
  (forall r, r ∈ rows out ->
     exists r0 floor t,
       r0 ∈ rows df /\ period_floor freq = Ok floor
       /\ to_datetime rd (Fact.period r0) = Some t /\ Agg.period r = Some (floor t)
       /\ Agg.vehicle_category r = Fact.vehicle_category r0
       /\ Agg.manufacturer r = Fact.manufacturer r0)
  /\ aggregate rd (Frame (columns df) (filter (has_period rd) (rows df))) freq = Ok out.
Proof.
  intros Hagg.
  apply aggregate_Ok in Hagg as [[Hg ->]|(floor & He & Hr & Hp & Hf & Hc & Hm & ->)].
  - split; [intros r Hin; by apply elem_of_nil in Hin|].
    unfold aggregate.
    assert (empty (Frame (columns df) (filter (has_period rd) (rows df)))
            || negb (has_column "registrations" (Frame (columns df) (filter (has_period rd) (rows df))))
            = true) as ->; [|done].
    apply orb_true_iff in Hg as [Hg|Hg]; [|by rewrite orb_true_iff; right].
    rewrite orb_true_iff; left. unfold empty in *. simpl.
    apply orb_true_iff in Hg as [Hg|Hg]; [by rewrite Hg|].
    apply bool_decide_eq_true, length_zero_iff_nil in Hg. rewrite Hg. by rewrite orb_true_r.
  - split.
    + intros r Hin. simpl in Hin. rewrite sort_perm in Hin.
      apply list_elem_of_fmap in Hin as ([k v] & -> & Hin).
      apply elem_of_groupby_sum in Hin as [[v' Hin] _].
      apply elem_of_keyed in Hin as (r0 & t & Hin & Ht & Hvc & Hmf & Hk).
      exists r0, floor, t. simpl. by rewrite Hk, Hvc, Hmf.
    + destruct (keyed_filter_has_period floor (rows df)) as [K1 K2].
      unfold aggregate.
      destruct (empty (Frame (columns df) (filter (has_period rd) (rows df)))) eqn:He'.
      * simpl. f_equal. f_equal.
        unfold empty in He, He'. simpl in He'. apply orb_false_iff in He as [He _].
        rewrite He in He'. simpl in He'.
        apply bool_decide_eq_true, length_zero_iff_nil in He'.
        rewrite (groupby_sum_ext cmp_key _ (keyed rd floor (filter (has_period rd) (rows df))))
          by done.
        by rewrite He'.
      * unfold has_column in *. simpl. rewrite Hr. simpl.
        unfold require_columns, has_column. simpl. rewrite Hp, Hf, Hc, Hm. simpl.
        f_equal. f_equal. f_equal. f_equal. by apply groupby_sum_ext.
Qed.

Lemma aggregate_as_registrations (R : list Agg.t) (freq : string)
    (floor : Timestamp -> Timestamp) :
  period_floor freq = Ok floor ->
  aggregate rd (as_registrations (Frame agg_columns R)) freq
  = Ok (Frame agg_columns
          (sort cmp_row (row_of_group <$> groupby_sum cmp_key (keyed rd floor (fact_of_row <$> R))))).
Proof.
  intros Hf. unfold aggregate, as_registrations.
  destruct R as [|r R]; [done|].
  cbn [rows columns]. rewrite fmap_cons.
  change (empty _ || negb (has_column _ _)) with false. cbv iota.
  change (require_columns ["period"] _) with (Ok (A:=unit) tt).
  change (require_columns ["vehicle_category"; "manufacturer"] _) with (Ok (A:=unit) tt).
  cbn [bind Ok]. rewrite Hf. reflexivity.
Qed.

(** C7. Aggregating the result of [aggregate] again, at the same
    frequency and with its totals as registrations, gives that result
    back. *)
Theorem aggregate_idempotent (df : frame Fact.t) (freq : string) (out : frame Agg.t) :
  aggregate rd df freq = Ok out ->
  aggregate rd (as_registrations out) freq = Ok out.
Proof.
  intros Hagg.
  apply aggregate_Ok in Hagg as [[_ ->]|(floor & _ & _ & _ & Hf & _ & _ & ->)]; [done|].
  rewrite (aggregate_as_registrations _ freq floor Hf).
  set (G := groupby_sum cmp_key (keyed rd floor (rows df))).
  do 4 f_equal.
  rewrite sort_fmap.
  set (G2 := sort (fun a b => cmp_row (row_of_group a) (row_of_group b)) G).
  assert (Hp : G2 ≡ₚ G) by apply sort_perm.
  unfold keyed. rewrite <- !list_fmap_compose.
  rewrite (list_fmap_ext _ with_key G2).
  - apply groupby_sum_fixed; [apply _| | |done].
    + unfold G. rewrite groupby_sum_keys. apply sort_Sorted. apply _.
    + apply groupby_sum_NoDup.
  - intros i [[[p c] m] t] Hi. simpl. unfold with_key, fact_key. simpl.
    assert (Hin : (p, c, m, t) ∈ G).
    { rewrite <- Hp. by eapply list_elem_of_lookup_2. }
    apply elem_of_groupby_sum in Hin as [[v Hin] _].
    apply elem_of_keyed in Hin as (r & t' & _ & _ & _ & _ & Hk). simpl in Hk.
    by rewrite Hk, (period_floor_idempotent freq floor t' Hf).
Qed.

End AggregateFacts.

(** ** [aggregate] in float64 *)

Section AggregateWhole.
Import Processing.

Variable rd : string -> option Timestamp.

(** On whole counts the float64 sums of [aggregate] are exact. *)
Lemma aggregate64_whole (df : frame Fact.t) (freq : string) :
  whole_counts (Fact.registrations <$> filter (kept rd) (rows df)) ->
  aggregate64 rd df freq = aggregate rd df freq.
Proof.
  intros Hw. unfold aggregate64, aggregate.
  destruct (_ || _); [done|].
  destruct (require_columns ["period"] df); [done|]. cbn [bind Ok].
  destruct (period_floor freq) as [e|floor]; [done|]. cbn [bind Ok].
  destruct (require_columns _ df); [done|]. cbn [bind Ok].
  do 4 f_equal. apply groupby_sum64_whole.
  fold (keyed rd floor (rows df)). by rewrite keyed_kept.
Qed.

Lemma kept_fact_of_row (g : key * Qc) : kept rd (fact_of_row (row_of_group g)).
Proof. unfold kept. cbn. by repeat split. Qed.

(** The totals of the groups of whole counts are whole counts. *)
Lemma aggregate_whole_totals (df : frame Fact.t) (freq : string) (out : frame Agg.t) :
  whole_counts (Fact.registrations <$> filter (kept rd) (rows df)) ->
  aggregate rd df freq = Ok out ->
  whole_counts ((fun r => Some (Agg.total r)) <$> rows out)
  /\ Fact.registrations <$> filter (kept rd) (rows (as_registrations out))
     = (fun r => Some (Agg.total r)) <$> rows out.
Proof.
  intros Hw Hagg.
  apply aggregate_Ok in Hagg as [[_ ->]|(floor & _ & _ & _ & _ & _ & _ & ->)].
  { split; [|done]. split; [constructor|done]. }
  cbn [rows as_registrations]. rewrite sort_fmap.
  set (G := sort _ (groupby_sum cmp_key (keyed rd floor (rows df)))).
  assert (HG : G ≡ₚ groupby_sum cmp_key (keyed rd floor (rows df))) by apply sort_perm.
  split.
  - rewrite <- list_fmap_compose.
    apply (groupby_sum_whole cmp_key G (keyed rd floor (rows df)) HG).
    by rewrite keyed_kept.
  - clear HG. clearbody G. induction G as [|g G IH]; [done|].
    rewrite !fmap_cons, filter_cons, decide_True by apply kept_fact_of_row.
    rewrite fmap_cons. f_equal. apply IH.
Qed.

(** C2, as the code has it.  When the table has a registrations column
    and the registrations of the rows that the grouping does not drop are
    whole numbers whose absolute values add up to at most [2 ^ 53], the
    float64 sum of the totals of the result of [aggregate] is the float64
    sum of those registrations: no addition rounds. *)
Theorem aggregate_conserves_whole_registrations (df : frame Fact.t) (freq : string)
    (out : frame Agg.t) :
  has_column "registrations" df = true ->
  whole_counts (Fact.registrations <$> filter (kept rd) (rows df)) ->
  aggregate64 rd df freq = Ok out ->
  Float64.sum ((fun r => Some (Agg.total r)) <$> rows out)
  = Float64.sum (Fact.registrations <$> filter (kept rd) (rows df)).
Proof.
  intros Hreg Hw Hagg. rewrite aggregate64_whole in Hagg by done.
  destruct (aggregate_whole_totals df freq out Hw Hagg) as [Hwt _].
  rewrite !float_sum_whole by done.
  rewrite <- (aggregate_conserves_exactly rd df freq out Hreg Hagg).
  by rewrite (list_fmap_compose Agg.total Some), sum_skipna_somes.
Qed.

End AggregateWhole.

(** ** Unsupported frequencies *)

Section FrequencyFacts.
Import Processing.

Variable rd : string -> option Timestamp.

Lemma period_floor_unsupported (freq : string) :
  freq ∉ ["M"; "Q"; "Y"] -> period_floor freq = Raise unsupported_frequency.
Proof.
  rewrite !elem_of_cons, elem_of_nil. intros H. unfold period_floor.
  repeat case_bool_decide; tauto.
Qed.

(** C8, as the code has it.  With a frequency other than "M", "Q" and "Y",
    [aggregate] raises the unsupported-frequency error on every non-empty
    table that has the registrations and period columns, and
    [compute_growth] raises it on every non-empty table that has the total
    column and the three columns it sorts by; an empty table, or one
    without the registrations (total) column, is answered before the
    frequency is looked at. *)
Theorem unsupported_frequency_raises (df : frame Fact.t) (agg : frame Agg.t)
    (freq : string) :
  freq ∉ ["M"; "Q"; "Y"] ->
  (empty df = false -> has_column "registrations" df = true ->
   has_column "period" df = true ->
   aggregate rd df freq = Raise unsupported_frequency)
  /\ (empty agg = false -> has_column "total" agg = true ->
      has_column "vehicle_category" agg = true -> has_column "manufacturer" agg = true ->
      has_column "period" agg = true ->
      compute_growth agg freq = Raise unsupported_frequency)
  /\ (empty df || negb (has_column "registrations" df) = true ->
      aggregate rd df freq = Ok (Frame agg_columns []))
  /\ (empty agg || negb (has_column "total" agg) = true ->
      compute_growth agg freq = Ok (agg, None)).
Proof.
  intros Hf. repeat split.
  - intros He Hr Hp. unfold aggregate, require_columns.
    rewrite He, Hr, Hp. simpl. by rewrite (period_floor_unsupported freq Hf).
  - intros He Ht Hc Hm Hp. unfold compute_growth, require_columns.
    rewrite He, Ht, Hc, Hm, Hp. simpl.
    rewrite !elem_of_cons, elem_of_nil in Hf.
    repeat case_bool_decide; tauto.
  - intros Hg. unfold aggregate. by rewrite Hg.
  - intros Hg. unfold compute_growth. by rewrite Hg.
Qed.

End FrequencyFacts.

(** ** [compute_growth] *)

Section GrowthFacts.
Import Processing.

Lemma pct_nonzero (x d : Qc) :
  d <> 0%Qc -> pct x d = Finite ((x / d - 1) * Q2Qc 100).
Proof.
  intros Hd. unfold pct, fdiv.
  destruct (d ?= 0)%Qc eqn:E; [by apply Qceq_alt in E|done..].
Qed.

Lemma pct_zero (x : Qc) :
  pct x 0 = match (x ?= 0)%Qc with Eq => NaN | Gt => PosInf | Lt => NegInf end.
Proof. unfold pct, fdiv. change (0 ?= 0)%Qc with Eq. by destruct (x ?= 0)%Qc. Qed.

Lemma lookup_shift (n : nat) (s : list float) (i : nat) :
  (i < length s)%nat ->
  shift n s !! i = if Nat.leb n i then s !! (i - n)%nat else Some NaN.
Proof.
  intros Hi. unfold shift. rewrite lookup_take_lt by done.
  destruct (Nat.leb n i) eqn:E.
  - apply Nat.leb_le in E. rewrite lookup_app_r by (by rewrite length_replicate).
    by rewrite length_replicate.
  - apply Nat.leb_gt in E. rewrite lookup_app_l by (by rewrite length_replicate).
    by apply lookup_replicate_2.
Qed.

Lemma lookup_pct_change (n : nat) (s : list Qc) (i : nat) (x : Qc) :
  s !! i = Some x ->
  pct_change n s !! i
  = Some (match (if Nat.leb n i then s !! (i - n)%nat else None) with
          | Some d => fsub (fdiv (Finite x) (Finite d)) (Finite 1)
          | None => NaN
          end).
Proof.
  intros Hx. pose proof (lookup_lt_Some _ _ _ Hx) as Hi.
  unfold pct_change. rewrite lookup_zip_with, list_lookup_fmap, Hx. simpl.
  rewrite lookup_shift by (by rewrite length_fmap).
  destruct (Nat.leb n i) eqn:E; [|done].
  rewrite list_lookup_fmap.
  destruct (s !! (i - n)%nat) as [d|] eqn:Hd; [done|].
  apply lookup_ge_None in Hd. apply Nat.leb_le in E. lia.
Qed.

Section Series.
Context {R C K : Type} `{EqDecision K}.
Variable key : R -> option K.
Variable value : R -> Qc.
Variable g : R -> C -> R.
Hypothesis g_key : forall r c, key (g r c) = key r.
Hypothesis g_value : forall r c, value (g r c) = value r.

Lemma filter_lookup_index (P : R -> Prop) `{!forall x, Decision (P x)} (l : list R)
    (i : nat) (x : R) :
  filter P l !! i = Some x ->
  exists p, l !! p = Some x /\ P x /\ length (filter P (take p l)) = i.
Proof.
  revert i. induction l as [|y l IH]; intros i; [done|].
  rewrite filter_cons. destruct (decide (P y)) as [Hy|Hy].
  - destruct i as [|i]; simpl.
    + intros [= ->]. by exists 0%nat.
    + intros Hi. destruct (IH _ Hi) as (p & Hp & Hx & Hlen).
      exists (S p). simpl. rewrite filter_cons, decide_True by done. simpl. by rewrite Hlen.
  - intros Hi. destruct (IH _ Hi) as (p & Hp & Hx & Hlen).
    exists (S p). simpl. by rewrite filter_cons, decide_False by done.
Qed.

Lemma filter_zip_with_value (k : K) (l : list R) (cs : list C) :
  length l = length cs ->
  value <$> filter (in_group key k) (zip_with g l cs)
  = value <$> filter (in_group key k) l.
Proof.
  revert cs. induction l as [|r l IH]; intros [|c cs] Hlen; try done.
  simpl. rewrite !filter_cons.
  destruct (decide (in_group key k (g r c))) as [H1|H1],
    (decide (in_group key k r)) as [H2|H2].
  - rewrite !fmap_cons, g_value. f_equal. apply IH. by injection Hlen.
  - unfold in_group in *. by rewrite g_key in H1.
  - unfold in_group in *. by rewrite g_key in H1.
  - apply IH. by injection Hlen.
Qed.

Lemma filter_zip_with_length (k : K) (l : list R) (cs : list C) :
  length l = length cs ->
  length (filter (in_group key k) (zip_with g l cs))
  = length (filter (in_group key k) l).
Proof.
  intros Hlen. by rewrite <- (length_fmap value), filter_zip_with_value, length_fmap.
Qed.

(** The cell that [transform] puts at a row of a group is the cell of [f]
    at the index of that row in the group. *)
Lemma transform_series (f : list Qc -> list float) (get : C -> float)
    (df : list R) (cs : list C) (k : K) (i : nat) (r : R) :
  get <$> cs = transform key value f df ->
  filter (in_group key k) (zip_with g df cs) !! i = Some r ->
  exists r0 c,
    r = g r0 c
    /\ get c = default NaN
                 (f (value <$> filter (in_group key k) (zip_with g df cs)) !! i).
Proof.
  intros Hcs Hr.
  assert (Hlen : length df = length cs).
  { rewrite <- (length_fmap get cs), Hcs. unfold transform. by rewrite length_imap. }
  apply filter_lookup_index in Hr as (p & Hp & Hk & Hi).
  apply lookup_zip_with_Some in Hp as (r0 & c & -> & Hr0 & Hc).
  exists r0, c. split; [done|].
  assert (Hget : (get <$> cs) !! p = Some (get c)) by (by rewrite list_lookup_fmap, Hc).
  rewrite Hcs in Hget. unfold transform in Hget.
  rewrite list_lookup_imap, Hr0 in Hget. simpl in Hget.
  unfold in_group in Hk. rewrite g_key in Hk. rewrite Hk in Hget.
  injection Hget as <-.
  rewrite filter_zip_with_value by done.
  rewrite zip_with_take, filter_zip_with_length in Hi.
  - by rewrite Hi.
  - rewrite !length_take. lia.
Qed.

End Series.

Lemma growth_series (n : nat) (s : list Agg.t) (i : nat) (r : Agg.t) :
  s !! i = Some r ->
  default NaN (pct_change_100 n (Agg.total <$> s) !! i) = growth_cell n s i.
Proof.
  intros Hr. unfold growth_cell, pct_change_100. rewrite Hr.
  rewrite list_lookup_fmap.
  rewrite (lookup_pct_change n _ i (Agg.total r)) by (by rewrite list_lookup_fmap, Hr).
  simpl. destruct (Nat.leb n i); [|done].
  rewrite list_lookup_fmap. by destruct (s !! (i - n)%nat).
Qed.

(** X11. What [compute_growth] computes.  In the result for a non-empty table
    with a total column, the row at index [i] of the sub-series of a
    (vehicle_category, manufacturer) pair carries, in each growth column
    that the frequency fills, the percentage change of its total against
    the total [k] rows earlier in that sub-series, [k] being the offset of
    the column, and NaN when the sub-series has no such row; the other
    growth columns are NaN. *)
Theorem compute_growth_cells (agg : frame Agg.t) (freq : string) (out : frame Agg.t)
    (q : option (frame Agg.t)) (k : string * string) (i : nat) (r : Agg.t) :
  empty agg = false -> has_column "total" agg = true ->
  compute_growth agg freq = Ok (out, q) ->
  sub_series k (rows out) !! i = Some r ->
  cells_at freq (sub_series k (rows out)) i r.
Proof.
  intros He Ht. unfold compute_growth. rewrite He, Ht. cbn [orb negb].
  destruct (require_columns _ agg); [done|]. cbn [bind Ok].
  set (df := (fun r => Agg.with_growth r NaN NaN NaN) <$> sort cmp_row (rows agg)).
  unfold cells_at, sub_series.
  destruct (bool_decide (freq = "M")).
  { intros [= <- _]. cbn [rows]. intros Hr.
    pose proof (growth_series 12 _ i r Hr) as G.
    destruct (transform_series series_key Agg.total
                (fun r yoy => Agg.with_growth r yoy NaN NaN) (fun _ _ => eq_refl)
                (fun _ _ => eq_refl) (pct_change_100 12) id df (growth 12 df) k i r)
      as (r0 & c & -> & Hc); [by rewrite list_fmap_id | done |].
    cbn [Agg.yoy_pct Agg.qoq_pct Agg.pop_pct Agg.with_growth]. cbn [id] in Hc.
    by rewrite Hc, G. }
  destruct (bool_decide (freq = "Q")).
  { intros [= <- _]. cbn [rows]. intros Hr.
    pose proof (growth_series 4 _ i r Hr) as G4.
    pose proof (growth_series 1 _ i r Hr) as G1.
    assert (L1 : length (growth 4 df) = length df) by apply length_imap.
    assert (L2 : length (growth 1 df) = length df) by apply length_imap.
    destruct (transform_series series_key Agg.total
                (fun r g => Agg.with_growth r g.1 g.2 NaN) (fun _ _ => eq_refl)
                (fun _ _ => eq_refl) (pct_change_100 1) snd df
                (zip (growth 4 df) (growth 1 df)) k i r)
      as (r0' & c' & E & Hc'); [by rewrite snd_zip by lia | done |].
    destruct (transform_series series_key Agg.total
                (fun r g => Agg.with_growth r g.1 g.2 NaN) (fun _ _ => eq_refl)
                (fun _ _ => eq_refl) (pct_change_100 4) fst df
                (zip (growth 4 df) (growth 1 df)) k i r)
      as (r0 & c & -> & Hc); [by rewrite fst_zip by lia | done |].
    injection E as _ _ _ _ _ E2.
    cbn [Agg.yoy_pct Agg.qoq_pct Agg.pop_pct Agg.with_growth].
    by rewrite Hc, E2, Hc', G4, G1. }
  destruct (bool_decide (freq = "Y")); [|done].
  intros [= <- _]. cbn [rows]. intros Hr.
  pose proof (growth_series 1 _ i r Hr) as G.
  destruct (transform_series series_key Agg.total
              (fun r yoy => Agg.with_growth r yoy NaN yoy) (fun _ _ => eq_refl)
              (fun _ _ => eq_refl) (pct_change_100 1) id df (growth 1 df) k i r)
    as (r0 & c & -> & Hc); [by rewrite list_fmap_id | done |].
  cbn [Agg.yoy_pct Agg.qoq_pct Agg.pop_pct Agg.with_growth]. cbn [id] in Hc.
  by rewrite Hc, G.
Qed.

End GrowthFacts.

(** ** The order of a sub-series *)

Section SeriesOrder.
Import Processing.

#[global] Instance option_order {A} (cmp : A -> A -> comparison) :
  Order cmp -> Order (cmp_option cmp).
Proof.
  intros Ho. split.
  - intros [x|] [y|]; simpl; try (split; done).
    rewrite cmp_eq. split; [by intros -> | by intros [=]].
  - intros [x|] [y|]; simpl; try done. apply cmp_antisym.
  - intros [x|] [y|] [z|]; simpl; try done. apply cmp_lt_trans.
Qed.



Lemma cmp_row_sort_key (a b : Agg.t) : cmp_row a b = cmp_sort_key (sort_key a) (sort_key b).
Proof. unfold cmp_row, cmp_sort_key, cmp_pair, sort_key. simpl. by rewrite lex_assoc. Qed.

Lemma cmp_row_opp (a b : Agg.t) : cmp_row b a = CompOpp (cmp_row a b).
Proof. rewrite !cmp_row_sort_key. apply cmp_antisym. Qed.

#[local] Instance le_cmp_row_trans : Transitive (le cmp_row).
Proof.
  intros a b c. unfold le, leb. rewrite !cmp_row_sort_key.
  apply (le_trans cmp_sort_key (sort_key a) (sort_key b) (sort_key c)).
Qed.


Lemma same_series_by_period (k : string * string) (a b : Agg.t) :
  series_key a = Some k -> series_key b = Some k -> le cmp_row a b -> by_period a b.
Proof.
  unfold series_key, by_period, le, leb, cmp_row.
  destruct (Agg.vehicle_category a) as [c1|], (Agg.manufacturer a) as [m1|]; try done.
  destruct (Agg.vehicle_category b) as [c2|], (Agg.manufacturer b) as [m2|]; try done.
  intros [= <-] [= -> ->]. simpl.
  by rewrite !(proj2 (cmp_eq (cmp:=String.compare) _ _) eq_refl).
Qed.

Lemma StronglySorted_zip_with {A C} (R : A -> A -> Prop) (g : A -> C -> A)
    (l : list A) (cs : list C) :
  (forall x y c d, R x y -> R (g x c) (g y d)) ->
  StronglySorted R l -> StronglySorted R (zip_with g l cs).
Proof.
  intros Hg Hl. revert cs. induction Hl as [|x l _ IH Hx]; intros [|c cs]; simpl;
    try constructor; [apply IH|].
  apply Forall_forall. intros z Hz.
  apply list_elem_of_lookup in Hz as [i Hi].
  apply lookup_zip_with_Some in Hi as (y & d & -> & Hy & _).
  apply Hg. rewrite Forall_forall in Hx. apply Hx. by eapply list_elem_of_lookup_2.
Qed.

Lemma StronglySorted_filter_impl {A} (R R' : A -> A -> Prop) (P : A -> Prop)
    `{!forall x, Decision (P x)} (l : list A) :
  (forall x y, P x -> P y -> R x y -> R' x y) ->
  StronglySorted R l -> StronglySorted R' (filter P l).
Proof.
  intros Himpl. induction 1 as [|x l _ IH Hx]; [constructor|].
  rewrite filter_cons. destruct (decide (P x)) as [Hp|Hp]; [|done].
  constructor; [done|]. apply Forall_forall. intros y Hy.
  apply list_elem_of_filter in Hy as [Hpy Hy].
  apply Himpl; [done..|]. rewrite Forall_forall in Hx. by apply Hx.
Qed.

(** X12. The rows of a sub-series of the result of [compute_growth] come in
    ascending period, rows without a period last. *)
Theorem sub_series_ordered (agg : frame Agg.t) (freq : string) (out : frame Agg.t)
    (q : option (frame Agg.t)) (k : string * string) :
  empty agg = false -> has_column "total" agg = true ->
  compute_growth agg freq = Ok (out, q) ->
  StronglySorted by_period (sub_series k (rows out)).
Proof.
  intros He Ht. unfold compute_growth. rewrite He, Ht. cbn [orb negb].
  destruct (require_columns _ agg); [done|]. cbn [bind Ok].
  set (df := (fun r => Agg.with_growth r NaN NaN NaN) <$> sort cmp_row (rows agg)).
  assert (Hdf : StronglySorted (le cmp_row) df).
  { unfold df. apply (StronglySorted_fmap _ (le cmp_row)); [by intros ??|].
    apply Sorted_StronglySorted; [apply _|]. apply sort_Sorted_total, cmp_row_opp. }
  assert (Hout : forall C (g : Agg.t -> C -> Agg.t) (cs : list C),
            (forall r c, sort_key (g r c) = sort_key r) ->
            StronglySorted by_period (sub_series k (zip_with g df cs))).
  { intros C g cs Hg. unfold sub_series.
    apply (StronglySorted_filter_impl (le cmp_row)); [apply same_series_by_period|].
    apply StronglySorted_zip_with; [|done].
    intros x y c d. unfold le, leb. by rewrite !cmp_row_sort_key, !Hg. }
  destruct (bool_decide (freq = "M")); [intros [= <- _]; by apply Hout|].
  destruct (bool_decide (freq = "Q")); [intros [= <- _]; by apply Hout|].
  destruct (bool_decide (freq = "Y")); [intros [= <- _]; by apply Hout|done].
Qed.

End SeriesOrder.

(** ** [top_n_manufacturers] *)

Section TopFacts.
Import Processing.


Lemma cmp_total_desc_opp (a b : Top.t) :
  cmp_total_desc b a = CompOpp (cmp_total_desc a b).
Proof. unfold cmp_total_desc, Qccompare, Qcompare. apply Z.compare_antisym. Qed.

Lemma le_cmp_total_desc (a b : Top.t) : le cmp_total_desc a b <-> descending a b.
Proof.
  unfold le, leb, cmp_total_desc, descending, Qcle, Qle, Qccompare, Qcompare, Z.le.
  destruct (_ ?= _)%Z; split; done.
Qed.

Lemma Sorted_iff {A} (R1 R2 : A -> A -> Prop) (l : list A) :
  (forall x y, R1 x y -> R2 x y) -> Sorted R1 l -> Sorted R2 l.
Proof.
  intros H. induction 1 as [|x l _ IH Hhd]; constructor; [done|].
  destruct Hhd; constructor; auto.
Qed.

Lemma sort_desc_stable_perm (l : list Top.t) : sort_desc_stable l ≡ₚ l.
Proof. apply sort_perm. Qed.

Lemma sort_desc_stable_sorted (l : list Top.t) : Sorted descending (sort_desc_stable l).
Proof.
  apply (Sorted_iff (le cmp_total_desc)); [intros x y; apply le_cmp_total_desc|].
  apply sort_Sorted_total, cmp_total_desc_opp.
Qed.

Lemma sort_desc_unstable_perm (l : list Top.t) : sort_desc_unstable l ≡ₚ l.
Proof. unfold sort_desc_unstable. by rewrite reverse_Permutation, sort_perm. Qed.

Lemma sort_desc_unstable_sorted (l : list Top.t) : Sorted descending (sort_desc_unstable l).
Proof.
  unfold sort_desc_unstable.
  apply (Sorted_iff (flip (le (fun a b => cmp_total_desc b a)))).
  - intros x y H. apply le_cmp_total_desc. exact H.
  - apply Sorted_reverse, sort_Sorted_total. intros x y. apply cmp_total_desc_opp.
Qed.

Variable rd : string -> option Timestamp.
Variable srt : list Top.t -> list Top.t.
Hypothesis srt_perm : forall l, srt l ≡ₚ l.
Hypothesis srt_sorted : forall l, Sorted descending (srt l).


Lemma group_manufacturer (m : string) (l : list Agg.t) :
  sum_skipna (group m ((fun r => (Agg.manufacturer r, Some (Agg.total r))) <$> l))
  = Qsum (Agg.total <$> filter (made_by m) l).
Proof.
  induction l as [|r l IH]; [done|].
  rewrite fmap_cons, group_cons, filter_cons. cbn [fst snd].
  destruct (decide (Agg.manufacturer r = Some m)) as [E|E].
  - rewrite decide_True by done. rewrite sum_skipna_cons, fmap_cons, IH. done.
  - rewrite decide_False by done. done.
Qed.

(** C6, as the code has it.  On a table with a manufacturer column,
    [top_n_manufacturers] returns the first [n] rows, [n] being 10 when it
    is not given, of a ranking that has one row per manufacturer of the
    rows at exactly the given period, carries the sum of their totals, and
    descends in the totals; the order of manufacturers with equal totals
    is the one the sort leaves. *)
Theorem top_n_manufacturers_ranking (df_agg : frame Agg.t) (period : datetime_cell)
    (n : option Z) (p : option Timestamp) (out : frame Top.t) :
  has_column "manufacturer" df_agg = true ->
  to_datetime_scalar rd period = Ok p ->
  top_n_manufacturers rd srt df_agg period n = Ok out ->
  exists ranked,
    columns out = ["manufacturer"; "total"]
    /\ rows out = head (default 10 n) ranked
    /\ Sorted descending ranked
    /\ NoDup (Top.manufacturer <$> ranked)
    /\ forall m t,
         Top.Make m t ∈ ranked
         <-> (exists r, r ∈ filter (at_period p) (rows df_agg) /\ Agg.manufacturer r = Some m)
             /\ t = Qsum (Agg.total <$> filter (made_by m) (filter (at_period p) (rows df_agg))).
Proof.
  intros Hm Hp. unfold top_n_manufacturers. rewrite Hm, orb_false_r.
  remember (filter (at_period p) (rows df_agg)) as sel eqn:Hs.
  assert (Hnone : sel = [] -> forall cols,
    cols = ["manufacturer"; "total"] ->
    exists ranked, cols = ["manufacturer"; "total"]
      /\ @nil Top.t = head (default 10 n) ranked
      /\ Sorted descending ranked /\ NoDup (Top.manufacturer <$> ranked)
      /\ forall m t, Top.Make m t ∈ ranked
           <-> (exists r, r ∈ sel /\ Agg.manufacturer r = Some m)
               /\ t = Qsum (Agg.total <$> filter (made_by m) sel)).
  { intros -> cols ->. exists []. split; [done|]. split.
    { unfold head. by destruct (0 <=? default 10 n); rewrite take_nil. }
    split; [constructor|]. split; [constructor|]. intros m t. split.
    - intros Hx. by apply elem_of_nil in Hx.
    - intros [(r & Hx & _) _]. by apply elem_of_nil in Hx. }
  destruct (empty df_agg) eqn:He.
  - intros [= <-]. cbn [rows columns]. apply Hnone; [|done].
    unfold empty in He. apply orb_true_iff in He as [He|He].
    + apply bool_decide_eq_true in He. unfold has_column in Hm.
      rewrite He in Hm. apply bool_decide_eq_true in Hm. by apply elem_of_nil in Hm.
    + apply bool_decide_eq_true, length_zero_iff_nil in He. by rewrite Hs, He.
  - cbv iota. unfold require_columns at 1.
    destruct (has_column "period" df_agg); [|done]. cbn [bind Ok].
    rewrite Hp. cbn [bind Ok]. cbv beta zeta.
    erewrite (list_filter_iff _ (at_period p)); [|intros r; by rewrite bool_decide_eq_true].
    rewrite <- Hs. destruct sel as [|r0 sel'].
    + intros [= <-]. cbn [rows columns]. by apply Hnone.
    + unfold require_columns.
      destruct (has_column "total" df_agg); [|done]. cbn [bind Ok].
      intros [= <-]. cbn [rows columns].
      set (sel := r0 :: sel') in *.
      set (kvs := (fun r => (Agg.manufacturer r, Some (Agg.total r))) <$> sel).
      exists (srt ((fun g => Top.Make g.1 g.2) <$> groupby_sum String.compare kvs)).
      split; [done|]. split; [done|]. split; [apply srt_sorted|].
      split; [|intros m t; split].
      * rewrite srt_perm, <- list_fmap_compose.
        apply (groupby_sum_NoDup String.compare kvs).
      * intros Hx. rewrite srt_perm, list_elem_of_fmap in Hx.
        destruct Hx as ([m' t'] & [= -> ->] & Hx).
        apply elem_of_groupby_sum in Hx as [[v Hx] Ht].
        apply list_elem_of_fmap in Hx as (r & [= Hr _] & Hin).
        split; [by exists r|]. rewrite Ht. apply group_manufacturer.
      * intros [(r & Hin & Hr) ->]. rewrite srt_perm, list_elem_of_fmap.
        eexists (m, _). split; [done|]. apply elem_of_groupby_sum. split.
        -- exists (Some (Agg.total r)). apply list_elem_of_fmap. exists r. by rewrite Hr.
        -- symmetry. apply group_manufacturer.
Qed.

End TopFacts.


(** ** Evaluations *)

Section Evaluations.
Import Processing DataLoader.

Example aggregate_sample : aggregate iso_date sample_facts "Y" = Ok sample_yearly.
Proof. vm_compute. reflexivity. Qed.

(** C1. On a sub-series whose earlier total is zero the growth cell is not
    null: for the yearly table with totals 0 and 5, [compute_growth] puts
    plus infinity into [yoy_pct] and [pop_pct] of the second row, and at
    the quarterly frequency into [qoq_pct]. *)
Theorem compute_growth_zero_denominator :
  aggregate iso_date zero_base_facts "Y" = Ok zero_base
  /\ compute_growth zero_base "Y"
     = Ok (Frame (agg_columns ++ ["yoy_pct"; "qoq_pct"; "pop_pct"])
             [ Agg.with_growth (agg_row 2021 "2W" "Acme" 0) NaN NaN NaN;
               Agg.with_growth (agg_row 2022 "2W" "Acme" 5) PosInf NaN PosInf ],
           None)
  /\ compute_growth zero_base "Q"
     = Ok (Frame (agg_columns ++ ["yoy_pct"; "qoq_pct"; "pop_pct"])
             [ Agg.with_growth (agg_row 2021 "2W" "Acme" 0) NaN NaN NaN;
               Agg.with_growth (agg_row 2022 "2W" "Acme" 5) NaN PosInf NaN ],
           None).
Proof. repeat split; vm_compute; reflexivity. Qed.

Ltac evaluated :=
  vm_compute; repeat first [reflexivity | apply Qc_is_canon; reflexivity | f_equal].

Lemma aggregate_conserves_whole_registrations_witness :
  Float64.sum ((fun r => Some (Agg.total r)) <$> rows sample_yearly)
  = Float64.sum (Fact.registrations <$> filter (kept iso_date) (rows sample_facts)).
Proof.
  apply (aggregate_conserves_whole_registrations iso_date sample_facts "Y" sample_yearly).
  - reflexivity.
  - split; [vm_compute; repeat constructor | vm_compute; discriminate].
  - evaluated.
Defined.

(** C2 as stated fails on decimals: of the registrations 0.1 for one
    manufacturer and 0.1 and 0.4 for another, the totals 0.1 and 0.5 add
    up to 0.6 in float64, and the registrations to the next float64
    number, 0.6000000000000001. *)
Lemma conservation_rounds_on_decimals :
  has_column "registrations" decimal_facts = true
  /\ aggregate64 iso_date decimal_facts "Y" = Ok decimal_yearly
  /\ filter (kept iso_date) (rows decimal_facts) = rows decimal_facts
  /\ Float64.sum ((fun r => Some (Agg.total r)) <$> rows decimal_yearly) = float64 (6 # 10)
  /\ Float64.sum (Fact.registrations <$> rows decimal_facts)
     = Q2Qc (1351079888211149 # 2251799813685248)
  /\ Float64.sum ((fun r => Some (Agg.total r)) <$> rows decimal_yearly)
     <> Float64.sum (Fact.registrations <$> rows decimal_facts).
Proof.
  split; [reflexivity|]. split; [evaluated|]. split; [reflexivity|].
  split; [evaluated|]. split; [evaluated|].
  intros H. apply (f_equal this) in H. vm_compute in H. discriminate H.
Qed.

Lemma aggregate_excludes_unset_periods_witness :
  aggregate iso_date
    (Frame (columns sample_facts) (filter (has_period iso_date) (rows sample_facts))) "Y"
  = Ok sample_yearly.
Proof.
  apply (aggregate_excludes_unset_periods iso_date sample_facts "Y" sample_yearly).
  vm_compute; reflexivity.
Defined.

Lemma aggregate_idempotent_witness :
  aggregate iso_date (as_registrations sample_yearly) "Y" = Ok sample_yearly.
Proof.
  apply (aggregate_idempotent iso_date sample_facts "Y" sample_yearly).
  vm_compute; reflexivity.
Defined.

(** C8 as stated fails on the empty table: both functions return, whatever
    the frequency. *)
Lemma unsupported_frequency_on_empty_table :
  ("W" ∉ ["M"; "Q"; "Y"])
  /\ aggregate iso_date (Frame fact_columns []) "W" = Ok (Frame agg_columns [])
  /\ (aggregate iso_date (Frame fact_columns []) "W" <> Raise unsupported_frequency)
  /\ compute_growth (Frame agg_columns []) "W" = Ok (Frame agg_columns [], None)
  /\ (compute_growth (Frame agg_columns []) "W" <> Raise unsupported_frequency).
Proof.
  repeat split; try done.
  rewrite !elem_of_cons, elem_of_nil. intros [|[|[|[]]]]; discriminate.
Qed.

Lemma unsupported_frequency_raises_witness :
  aggregate iso_date sample_facts "W" = Raise unsupported_frequency
  /\ compute_growth sample_yearly "W" = Raise unsupported_frequency.
Proof.
  assert (H : "W" ∉ ["M"; "Q"; "Y"]).
  { rewrite !elem_of_cons, elem_of_nil. intros [|[|[|[]]]]; discriminate. }
  destruct (unsupported_frequency_raises iso_date sample_facts sample_yearly "W" H)
    as (H1 & H2 & _).
  split; [by apply H1 | by apply H2].
Defined.

Lemma ties_swapped (m1 m2 : string) (t : Qc) :
  m1 <> m2 -> ~ ties_in_order [m1; m2] [Top.Make m2 t; Top.Make m1 t].
Proof.
  intros Hne Hties.
  destruct (Hties 0%nat 1%nat (Top.Make m2 t) (Top.Make m1 t))
    as (i' & j' & Hlt & Hi & Hj); [lia | done | done | done |].
  cbn [Top.manufacturer] in Hi, Hj.
  destruct i' as [|[|i']], j' as [|[|j']]; simplify_eq/=; lia.
Qed.

(** C6 as stated fails on [tied], a table that [aggregate] returns, whose
    rows have Zeta before Acme.  The grouping hands the two manufacturers
    to the sort in the order of their names, Acme before Zeta.  A sort that
    keeps the order it is given returns Acme before Zeta, which is not the
    order of the rows of the table.  A sort that does not keep it, as the
    default kind is free to, returns Zeta before Acme while still
    descending in the totals. *)
Lemma top_n_ties_order :
  omap Agg.manufacturer (rows tied) = ["Zeta"; "Acme"]
  /\ top_n_manufacturers iso_date sort_desc_stable tied (Stamp (jan1 2021)) None
     = Ok (Frame top_columns [Top.Make "Acme" (Q2Qc 5); Top.Make "Zeta" (Q2Qc 5)])
  /\ ~ ties_in_order ["Zeta"; "Acme"] [Top.Make "Acme" (Q2Qc 5); Top.Make "Zeta" (Q2Qc 5)]
  /\ (forall l, sort_desc_unstable l ≡ₚ l)
  /\ (forall l, Sorted descending (sort_desc_unstable l))
  /\ top_n_manufacturers iso_date sort_desc_unstable tied (Stamp (jan1 2021)) None
     = Ok (Frame top_columns [Top.Make "Zeta" (Q2Qc 5); Top.Make "Acme" (Q2Qc 5)])
  /\ ~ ties_in_order ["Acme"; "Zeta"] [Top.Make "Zeta" (Q2Qc 5); Top.Make "Acme" (Q2Qc 5)].
Proof.
  split; [done|]. split; [vm_compute; reflexivity|].
  split; [by apply ties_swapped|].
  split; [apply sort_desc_unstable_perm|]. split; [apply sort_desc_unstable_sorted|].
  split; [vm_compute; reflexivity | by apply ties_swapped].
Qed.

Lemma top_n_manufacturers_ranking_witness :
  exists ranked,
    columns (Frame top_columns [Top.Make "Acme" (Q2Qc 5); Top.Make "Zeta" (Q2Qc 5)])
    = ["manufacturer"; "total"]
    /\ rows (Frame top_columns [Top.Make "Acme" (Q2Qc 5); Top.Make "Zeta" (Q2Qc 5)])
       = head (default 10 None) ranked
    /\ Sorted descending ranked
    /\ NoDup (Top.manufacturer <$> ranked)
    /\ forall m t,
         Top.Make m t ∈ ranked
         <-> (exists r, r ∈ filter (at_period (Some (jan1 2021))) (rows tied)
                        /\ Agg.manufacturer r = Some m)
             /\ t = Qsum (Agg.total <$> filter (made_by m)
                                          (filter (at_period (Some (jan1 2021))) (rows tied))).
Proof.
  apply (top_n_manufacturers_ranking iso_date sort_desc_stable
           sort_desc_stable_perm sort_desc_stable_sorted tied (Stamp (jan1 2021)) None).
  - reflexivity.
  - reflexivity.
  - vm_compute; reflexivity.
Defined.

End Evaluations.

(** ** [load_and_normalize] *)

Section LoaderFacts.
Import DataLoader.

Variable to_numeric_str : string -> option Qc.
Variable to_datetime_str : string -> option Timestamp.

Lemma traverse_Ok {A B} (f : A -> result B) (l : list A) (ys : list B) :
  traverse f l = Ok ys -> Forall2 (fun x y => f x = Ok y) l ys.
Proof.
  revert ys. induction l as [|x l IH]; intros ys; simpl.
  - intros [= <-]. constructor.
  - destruct (f x) as [e|y] eqn:Hx; [done|]. simpl.
    destruct (traverse f l) as [e|ys'] eqn:Hl; [done|]. simpl.
    intros [= <-]. constructor; [done | by apply IH].
Qed.


Lemma Forall2_traverse {A B} (f : A -> result B) (l : list A) (k : list B) :
  Forall2 (fun x y => f x = Ok y) l k -> traverse f l = Ok k.
Proof.
  induction 1 as [|x y l k Hx _ IH]; [done|]. simpl. rewrite Hx. simpl. by rewrite IH.
Qed.

Lemma read_csv_rectangular (src : Source) (r : list cell) :
  r ∈ cells (read_csv src) -> length r = length (labels (read_csv src)).
Proof.
  unfold read_csv. cbn [cells labels]. intros Hr.
  apply list_elem_of_fmap in Hr as (ln & -> & Hln).
  apply list_elem_of_filter in Hln as [Hlen _].
  rewrite length_drop, length_app, length_fmap, length_replicate. lia.
Qed.

Lemma assign_scalar_rectangular (label : string) (v : cell) (t : table) :
  (forall r, r ∈ cells t -> length r = length (labels t)) ->
  forall r, r ∈ cells (assign_scalar label v t) ->
            length r = length (labels (assign_scalar label v t)).
Proof.
  intros Hrect r. unfold assign_scalar.
  destruct (list_find (eq label) (labels t)) as [[i l]|]; cbn [cells labels];
    intros (r0 & -> & Hr0)%list_elem_of_fmap.
  - rewrite length_insert. by apply Hrect.
  - rewrite !length_app. cbn. by rewrite (Hrect r0 Hr0).
Qed.

(** Every row of the standardised table has a cell for each label. *)
Lemma standardize_rectangular (src : Source) (r : list cell) :
  r ∈ cells (standardize src) -> length r = length (labels (standardize src)).
Proof.
  assert (Hy : forall r, r ∈ cells (year_from_file src) ->
                         length r = length (labels (year_from_file src))).
  { unfold year_from_file. destruct (year_from_name (basename src)).
    - apply assign_scalar_rectangular, read_csv_rectangular.
    - apply read_csv_rectangular. }
  unfold standardize. cbv zeta.
  destruct (has_label "total" _); destruct (has_label "maker" _);
    unfold rename; cbn [labels cells]; rewrite ?length_fmap; apply Hy.
Qed.

Lemma distinct_count (x : string) (l : list string) :
  distinct l = true -> (length (filter (eq x) l) <= 1)%nat.
Proof.
  induction l as [|y l IH]; cbn [distinct]; [simpl; lia|].
  rewrite andb_true_iff, negb_true_iff, bool_decide_eq_false. intros [Hy Hl].
  rewrite filter_cons. destruct (decide (x = y)) as [<-|]; [|by apply IH].
  cbn [length]. assert (filter (eq x) l = []) as ->; [|simpl; lia].
  clear IH Hl. induction l as [|z l IH]; [done|].
  rewrite not_elem_of_cons in Hy. destruct Hy as [Hz Hy].
  rewrite filter_cons, decide_False by done. by apply IH.
Qed.

Lemma count_fmap_le (f : string -> string) (x : string) (l : list string) :
  (forall y, f y = x -> y = x) ->
  (length (filter (eq x) (f <$> l)) <= length (filter (eq x) l))%nat.
Proof.
  intros Hf. induction l as [|y l IH]; [done|]. rewrite fmap_cons, !filter_cons.
  destruct (decide (x = f y)) as [Hx|Hx].
  - symmetry in Hx. apply Hf in Hx. subst y. rewrite decide_True by done. simpl. lia.
  - destruct (decide (x = y)); simpl; lia.
Qed.

(** The loop writes or renames the year, the registrations and the
    manufacturer; of any other label the standardised table has at most
    one column, period and vehicle_category among them. *)
Lemma standardize_single (src : Source) (label : string) :
  label ∉ ["year"; "registrations"; "manufacturer"] ->
  (count_label label (standardize src) <= 1)%nat.
Proof.
  intros Hl. rewrite !not_elem_of_cons in Hl. destruct Hl as (Hy & Hr & Hm & _).
  assert (Hstd : (length (filter (eq label)
                     (standard_label <$> labels (year_from_file src))) <= 1)%nat).
  { unfold year_from_file. destruct (year_from_name _) as [y|].
    - unfold assign_scalar, read_csv. cbn [labels].
      destruct (list_find _ _) as [[i l]|]; cbn [labels].
      + apply distinct_count, header_distinct.
      + rewrite fmap_app, filter_app, length_app.
        pose proof (distinct_count label _ (header_distinct src)) as Hh.
        change (standard_label <$> ["year"]) with ["year"].
        rewrite filter_cons, decide_False by done. simpl. lia.
    - apply distinct_count, header_distinct. }
  assert (Hren : forall old new (l : list string), new <> label ->
            (length (filter (eq label)
                       ((fun l => if bool_decide (l = old) then new else l) <$> l))
             <= length (filter (eq label) l))%nat).
  { intros old new l Hnew. apply count_fmap_le. intros y.
    destruct (bool_decide (y = old)); [by intros ->|done]. }
  unfold standardize, count_label. cbv zeta.
  destruct (has_label "total" _); destruct (has_label "maker" _);
    unfold rename; cbn [labels];
    repeat (etrans; [apply Hren; congruence|]); exact Hstd.
Qed.

(** The first of the cells under a label is the cell that a lookup of the
    label reads. *)
Lemma at_labels_first (label : string) (t : table) (r : list cell) :
  has_label label t = true -> length r = length (labels t) ->
  at_labels label t r = at_label label t r :: tail (at_labels label t r).
Proof.
  unfold has_label, at_labels, at_label. rewrite bool_decide_eq_true.
  generalize (labels t). intros ls. revert r.
  induction ls as [|l ls IH]; intros r Hin Hlen; [by apply elem_of_nil in Hin|].
  destruct r as [|c r]; [done|]. cbn [zip zip_with]. rewrite filter_cons. cbn [list_find].
  destruct (decide (label = l)) as [<-|Hne].
  - rewrite decide_True by done. done.
  - rewrite decide_False by (cbn; congruence).
    apply elem_of_cons in Hin as [?|Hin]; [done|].
    injection Hlen as Hlen. specialize (IH r Hin Hlen).
    destruct (list_find (eq label) ls) as [[i x]|]; exact IH.
Qed.

(** What a file that loads contributes. *)
Lemma normalize_file_Ok (src : Source) (rs : list Canonical.t) :
  normalize_file to_numeric_str to_datetime_str src = Ok rs ->
  count_label "year" (standardize src) = 1%nat
  /\ has_label "manufacturer" (standardize src) = true
  /\ rs = record_of to_numeric_str to_datetime_str (standardize src)
          <$> cells (standardize src).
Proof.
  unfold normalize_file. set (t := standardize src).
  destruct (count_label "year" t) as [|[|n]]; [done| |done]. cbn [bind Ok].
  destruct (forallb _ (cells t)); [|done]. cbn [bind Ok].
  assert (Hrec : forall reg,
    (forall line, reg line = Some (registrations_of to_numeric_str t line)) ->
    (if has_label "manufacturer" t
     then Ok ((fun r => Canonical.Row
                 (to_datetime_str (year_text (to_numeric to_numeric_str (at_label "year" t r))))
                 (to_numeric to_numeric_str (at_label "year" t r))
                 ((if has_label "vehicle_category" t
                   then fun r => Classifier.map_category (str (at_label "vehicle_category" t r))
                   else fun _ => "OTHER") r)
                 (at_label "manufacturer" t r) (reg r)
                 (tail (at_labels "manufacturer" t r))) <$> cells t)
     else Raise (KeyError "manufacturer")) = Ok rs ->
    1%nat = 1%nat /\ has_label "manufacturer" t = true
    /\ rs = record_of to_numeric_str to_datetime_str t <$> cells t).
  { intros reg Hreg. destruct (has_label "manufacturer" t); [|done]. intros [= <-].
    split; [done|]. split; [done|]. apply list_fmap_ext. intros _ line _.
    unfold record_of, category_of. rewrite Hreg.
    by destruct (has_label "vehicle_category" t). }
  unfold registrations_of in Hrec.
  destruct (has_label "registrations" t) eqn:Hr.
  - destruct (count_label "registrations" t) as [|[|n]]; [done| |done]. cbn [bind Ok].
    by apply Hrec.
  - cbn [bind Ok]. by apply Hrec.
Qed.

(** What a folder that loads gives: the records of its files, one after
    the other, under the labels that all its files share. *)
Lemma load_and_normalize_Ok (folder : list Source) (df : frame Canonical.t)
    (meta : list (string * string)) :
  load_and_normalize to_numeric_str to_datetime_str folder = Ok (df, meta) ->
  exists file df_list,
    found folder !! 0%nat = Some file
    /\ Forall2 (fun src rs => normalize_file to_numeric_str to_datetime_str src = Ok rs)
         (found folder) df_list
    /\ Forall (fun src => file_columns src = file_columns file) (found folder)
    /\ df = Frame (file_columns file) (concat df_list)
    /\ meta = [("granularity", "yearly")].
Proof.
  unfold load_and_normalize. fold (found folder).
  destruct (found folder) as [|file files] eqn:Hf; [done|]. rewrite <- Hf.
  destruct (traverse _ (found folder)) as [e|df_list] eqn:Ht; [done|]. cbn [bind Ok].
  destruct (forallb _ (found folder)) eqn:Hall; [|done]. intros [= <- <-].
  exists file, df_list. split; [by rewrite Hf|]. split; [by apply traverse_Ok|].
  split; [|done]. apply Forall_forall. intros src Hin.
  rewrite forallb_forall in Hall. apply list_elem_of_In in Hin.
  by apply (bool_decide_eq_true_1 _ (Hall src Hin)).
Qed.

(** The rows of the canonical table come from the rows of the files that
    match the pattern. *)
Lemma load_and_normalize_rows (folder : list Source) (df : frame Canonical.t)
    (meta : list (string * string)) (r : Canonical.t) :
  load_and_normalize to_numeric_str to_datetime_str folder = Ok (df, meta) ->
  r ∈ rows df ->
  exists src rs,
    src ∈ folder /\ glob_match (basename src) = true
    /\ normalize_file to_numeric_str to_datetime_str src = Ok rs /\ r ∈ rs.
Proof.
  intros Hload Hin.
  apply load_and_normalize_Ok in Hload as (file & df_list & _ & Ht & _ & -> & _).
  cbn [rows] in Hin.
  apply list_elem_of_In, in_concat in Hin as (rs & Hrs & Hr).
  apply list_elem_of_In in Hrs, Hr.
  apply list_elem_of_lookup in Hrs as [i Hi].
  destruct (Forall2_lookup_r _ _ _ _ _ Ht Hi) as (src & Hsrc & Hn).
  exists src, rs. apply list_elem_of_lookup_2 in Hsrc.
  apply list_elem_of_filter in Hsrc as [Hg Hsrc].
  split; [done|]. split; [by destruct (glob_match (basename src))|done].
Qed.

(** Every record is the record of its own line: the records of the table
    are those of the lines of the files, in their order. *)
Lemma load_and_normalize_records (folder : list Source) (df : frame Canonical.t)
    (meta : list (string * string)) :
  load_and_normalize to_numeric_str to_datetime_str folder = Ok (df, meta) ->
  rows df
  = (fun tl => record_of to_numeric_str to_datetime_str tl.1 tl.2) <$> lines_of folder
  /\ Forall (fun src => has_label "manufacturer" (standardize src) = true) (found folder).
Proof.
  intros Hload.
  apply load_and_normalize_Ok in Hload as (file & df_list & _ & Ht & _ & -> & _).
  cbn [rows]. unfold lines_of.
  induction Ht as [|src rs files dfs Hrs _ [IH1 IH2]]; [done|].
  apply normalize_file_Ok in Hrs as (_ & Hm & ->).
  rewrite fmap_cons. cbn [concat]. rewrite fmap_app, IH1, <- list_fmap_compose.
  split; [done|]. by constructor.
Qed.

(** C4, as the code has it.  The registrations of a canonical record are
    never null: record by record, in the order of the files and of their
    lines, they are the number read in the cell that the record's own line
    has in the registrations column, once its commas and its surrounding
    white space are removed, with its sign, and they are 0 when that text
    is not read as a number or when the file has no such column. *)
Theorem registrations_never_null (folder : list Source) (df : frame Canonical.t)
    (meta : list (string * string)) :
  load_and_normalize to_numeric_str to_datetime_str folder = Ok (df, meta) ->
  rows df
  = (fun tl => record_of to_numeric_str to_datetime_str tl.1 tl.2) <$> lines_of folder
  /\ Canonical.registrations <$> rows df
     = (fun tl => Some (registrations_of to_numeric_str tl.1 tl.2)) <$> lines_of folder
  /\ Forall (fun r => is_Some (Canonical.registrations r)) (rows df).
Proof.
  intros Hload. destruct (load_and_normalize_records folder df meta Hload) as [Hrows _].
  split; [done|]. split; [by rewrite Hrows, <- list_fmap_compose|].
  rewrite Hrows. apply Forall_fmap, Forall_forall. intros tl _. by eexists.
Qed.

(** C9, as the code has it.  The manufacturer of a canonical record is the
    cell that the record's own line has in the manufacturer column, as it
    was read: neither its case nor its white space is touched.  Record by
    record, in the order of the files and of their lines, the manufacturer
    cells of the table are the cells of the line under the columns that
    carry the label, and every file has such a column. *)
Theorem manufacturer_verbatim (folder : list Source) (df : frame Canonical.t)
    (meta : list (string * string)) :
  load_and_normalize to_numeric_str to_datetime_str folder = Ok (df, meta) ->
  rows df
  = (fun tl => record_of to_numeric_str to_datetime_str tl.1 tl.2) <$> lines_of folder
  /\ (fun r => Canonical.manufacturer r :: Canonical.more_manufacturers r) <$> rows df
     = (fun tl => at_labels "manufacturer" tl.1 tl.2) <$> lines_of folder
  /\ Forall (fun tl => has_label "manufacturer" tl.1 = true) (lines_of folder).
Proof.
  intros Hload. destruct (load_and_normalize_records folder df meta Hload) as [Hrows Hm].
  split; [done|].
  assert (Hlines : forall tl, tl ∈ lines_of folder ->
            has_label "manufacturer" tl.1 = true /\ length tl.2 = length (labels tl.1)).
  { intros [t line] Hin. unfold lines_of in Hin.
    apply list_elem_of_In, in_concat in Hin as (ls & Hls & Hin).
    apply list_elem_of_In in Hls, Hin.
    apply list_elem_of_fmap in Hls as (src & -> & Hsrc).
    apply list_elem_of_fmap in Hin as (line' & [= -> ->] & Hline).
    rewrite Forall_forall in Hm. split; [by apply Hm|by apply standardize_rectangular]. }
  split.
  - rewrite Hrows, <- list_fmap_compose. apply list_fmap_ext. intros i tl Hi.
    apply list_elem_of_lookup_2, Hlines in Hi as [Hl Hlen]. cbn.
    symmetry. by apply at_labels_first.
  - apply Forall_forall. intros tl Hin. by apply Hlines.
Qed.

End LoaderFacts.

Section LoaderEvaluations.
Import DataLoader.




(** C3. The year in the file name is written over the year column that the
    file has, and a file with neither a year in its name nor a year column
    stops the load with a key error. *)
Theorem year_from_file_name :
  year_from_name (basename maker_2021) = Some 2021
  /\ load_and_normalize decimal_literal iso_date [maker_2021]
     = Ok (Frame canonical_columns
             [Canonical.Make (Some (MkTimestamp 2021 1 1 0)) (Some (Q2Qc 2021)) "OTHER"
                (Str "Acme") (Some (Q2Qc 10))],
           yearly)
  /\ glob_match (basename maker_data) = true
  /\ year_from_name (basename maker_data) = None
  /\ load_and_normalize decimal_literal iso_date [maker_data] = Raise (KeyError "year").
Proof. repeat split; vm_compute; reflexivity. Qed.


Lemma load_maker_2022 :
  load_and_normalize decimal_literal iso_date [maker_2022]
  = Ok (Frame canonical_columns [maker_2022_record], yearly).
Proof. vm_compute; reflexivity. Qed.

(** C4 as stated fails on [maker_2022]: its record has registrations -5. *)
Lemma negative_registrations :
  load_and_normalize decimal_literal iso_date [maker_2022]
  = Ok (Frame canonical_columns [maker_2022_record], yearly)
  /\ Canonical.registrations maker_2022_record = Some (Q2Qc (-5))
  /\ ~ (0 <= Q2Qc (-5))%Qc.
Proof. split; [apply load_maker_2022|]. split; [done|]. by vm_compute. Qed.

(** C9 as stated fails on [maker_2022]: the blanks around the name stay. *)
Lemma manufacturer_not_trimmed :
  load_and_normalize decimal_literal iso_date [maker_2022]
  = Ok (Frame canonical_columns [maker_2022_record], yearly)
  /\ Canonical.manufacturer maker_2022_record = Str " Honda "
  /\ PyStr.strip " Honda " <> " Honda ".
Proof. split; [apply load_maker_2022|]. split; [done|]. by vm_compute. Qed.

Lemma load_two_files :
  load_and_normalize decimal_literal iso_date two_files = Ok (two_files_table, yearly).
Proof. vm_compute; reflexivity. Qed.

Lemma registrations_never_null_witness :
  rows two_files_table
  = (fun tl => record_of decimal_literal iso_date tl.1 tl.2) <$> lines_of two_files
  /\ Canonical.registrations <$> rows two_files_table
     = (fun tl => Some (registrations_of decimal_literal tl.1 tl.2)) <$> lines_of two_files
  /\ Forall (fun r => is_Some (Canonical.registrations r)) (rows two_files_table).
Proof.
  apply (registrations_never_null decimal_literal iso_date two_files two_files_table yearly).
  vm_compute; reflexivity.
Defined.

Lemma manufacturer_verbatim_witness :
  rows two_files_table
  = (fun tl => record_of decimal_literal iso_date tl.1 tl.2) <$> lines_of two_files
  /\ (fun r => Canonical.manufacturer r :: Canonical.more_manufacturers r)
       <$> rows two_files_table
     = (fun tl => at_labels "manufacturer" tl.1 tl.2) <$> lines_of two_files
  /\ Forall (fun tl => has_label "manufacturer" tl.1 = true) (lines_of two_files).
Proof.
  apply (manufacturer_verbatim decimal_literal iso_date two_files two_files_table yearly).
  vm_compute; reflexivity.
Defined.

(** Lines that end in a comma have one field more than the header: the
    reader takes their first field as the index, and the cells move one
    column to the left. *)
Example load_trailing_commas :
  load_and_normalize decimal_literal iso_date [maker_2024]
  = Ok (maker_2024_table, yearly).
Proof. vm_compute; reflexivity. Qed.

(** A file with a Maker and a Manufacturer column gives a table with two
    manufacturer columns, six columns in all; next to a file with one
    manufacturer column, [pd.concat] cannot line the two tables up. *)
Example load_two_manufacturer_columns :
  load_and_normalize decimal_literal iso_date [maker_2025]
  = Ok (Frame ["period"; "year"; "vehicle_category"; "manufacturer"; "manufacturer";
               "registrations"]
          [ Canonical.Row (Some (MkTimestamp 2025 1 1 0)) (Some (Q2Qc 2025)) "OTHER"
              (Str "Acme") (Some (Q2Qc 10)) [Str "Acme Ltd"] ],
        yearly)
  /\ load_and_normalize decimal_literal iso_date [maker_2022; maker_2025]
     = Raise InvalidIndexError.
Proof. split; vm_compute; reflexivity. Qed.

End LoaderEvaluations.

(** ** The year column *)

Section YearFacts.
Import DataLoader.

Variable to_numeric_str : string -> option Qc.
Variable to_datetime_str : string -> option Timestamp.

(** After [temp_df[label] = v] one column carries the label and holds [v]
    in every row. *)
Lemma assign_scalar_lookup (label : string) (v : cell) (t : table) :
  (forall r, r ∈ cells t -> length r = length (labels t)) ->
  exists i, labels (assign_scalar label v t) !! i = Some label
            /\ forall r, r ∈ cells (assign_scalar label v t) -> r !! i = Some v.
Proof.
  intros Hrect. unfold assign_scalar.
  destruct (list_find (eq label) (labels t)) as [[i l]|] eqn:Hfind.
  - apply list_find_Some in Hfind as (Hi & <- & _). exists i. cbn [labels cells].
    split; [done|]. intros r Hr. apply list_elem_of_fmap in Hr as (r0 & -> & Hr0).
    apply list_lookup_insert_eq. rewrite (Hrect r0 Hr0). by eapply lookup_lt_Some.
  - exists (length (labels t)). cbn [labels cells]. split.
    + rewrite lookup_app_r by done. by rewrite Nat.sub_diag.
    + intros r Hr. apply list_elem_of_fmap in Hr as (r0 & -> & Hr0).
      rewrite lookup_app_r by (by rewrite (Hrect r0 Hr0)).
      by rewrite (Hrect r0 Hr0), Nat.sub_diag.
Qed.

Lemma filter_two {A} (P : A -> Prop) `{!forall x, Decision (P x)} (l : list A)
    (i j : nat) (x y : A) :
  l !! j = Some x -> l !! i = Some y -> (j < i)%nat -> P x -> P y ->
  (2 <= length (filter P l))%nat.
Proof.
  revert i j. induction l as [|a l IH]; intros i j Hj Hi Hlt Hx Hy; [done|].
  rewrite filter_cons. destruct j as [|j], i as [|i]; try lia; simpl in *.
  - injection Hj as ->. rewrite decide_True by done. simpl.
    assert (Hin : y ∈ filter P l).
    { apply list_elem_of_filter. split; [done|]. by eapply list_elem_of_lookup_2. }
    destruct (filter P l); [by apply elem_of_nil in Hin|]. simpl. lia.
  - assert (Hlen : (2 <= length (filter P l))%nat) by (eapply (IH i j); eauto; lia).
    destruct (decide (P a)); simpl; lia.
Qed.

(** A label that occurs once is found where it is. *)
Lemma unique_label (label : string) (t : table) (i : nat) :
  count_label label t = 1%nat -> labels t !! i = Some label ->
  list_find (eq label) (labels t) = Some (i, label).
Proof.
  unfold count_label. intros Hc Hi. apply list_find_Some.
  split; [done|]. split; [done|]. intros j y Hj Hlt <-.
  pose proof (filter_two (eq label) (labels t) i j label label Hj Hi Hlt eq_refl eq_refl)
    as Htwo.
  lia.
Qed.

(** The standardised table has the cells of the first step, and a label of
    it is [year] exactly when the label of the first step standardises to
    [year]. *)
Lemma standardize_year (src : Source) :
  cells (standardize src) = cells (year_from_file src)
  /\ exists h, labels (standardize src) = h <$> labels (year_from_file src)
               /\ forall l, h l = "year" <-> standard_label l = "year".
Proof.
  unfold standardize. cbv zeta.
  set (t2 := Table (standard_label <$> labels (year_from_file src))
               (cells (year_from_file src))).
  set (r1 := fun l : string => if bool_decide (l = "total") then "registrations" else l).
  set (r2 := fun l : string => if bool_decide (l = "maker") then "manufacturer" else l).
  assert (H1 : forall l, r1 l = "year" <-> l = "year").
  { intros l. unfold r1. case_bool_decide; subst; split; done. }
  assert (H2 : forall l, r2 l = "year" <-> l = "year").
  { intros l. unfold r2. case_bool_decide; subst; split; done. }
  destruct (has_label "total" t2); destruct (has_label "maker" _);
    unfold rename; subst t2; cbn [labels cells]; (split; [done|]).
  - exists (fun l => r2 (r1 (standard_label l))).
    split; [by rewrite <- !list_fmap_compose|]. intros l. by rewrite H2, H1.
  - exists (fun l => r1 (standard_label l)).
    split; [by rewrite <- !list_fmap_compose|]. intros l. by rewrite H1.
  - exists (fun l => r2 (standard_label l)).
    split; [by rewrite <- !list_fmap_compose|]. intros l. by rewrite H2.
  - by exists standard_label.
Qed.

(** X19. The year of the file name wins.  When the name of a file carries a
    year, every record that the file contributes has that year, whatever
    its own year column holds. *)
Theorem year_of_name_overrides (src : Source) (y : Z) (rs : list Canonical.t)
    (r : Canonical.t) :
  year_from_name (basename src) = Some y ->
  normalize_file to_numeric_str to_datetime_str src = Ok rs ->
  r ∈ rs ->
  Canonical.year r = Some (Q2Qc (inject_Z y)).
Proof.
  intros Hy Hn Hr. apply normalize_file_Ok in Hn as (Hc & _ & ->).
  apply list_elem_of_fmap in Hr as (line & -> & Hline).
  destruct (standardize_year src) as (Hcells & h & Hlabels & Hh).
  rewrite Hcells in Hline.
  destruct (assign_scalar_lookup "year" (Int y) (read_csv src) (read_csv_rectangular src))
    as (i & Hi & Hrows).
  unfold year_from_file in Hline, Hlabels. rewrite Hy in Hline, Hlabels.
  assert (Hfind : list_find (eq "year") (labels (standardize src)) = Some (i, "year")).
  { apply unique_label; [done|]. rewrite Hlabels, list_lookup_fmap, Hi. simpl.
    f_equal. by apply Hh. }
  unfold record_of. cbn [Canonical.year]. unfold at_label. rewrite Hfind.
  by rewrite (Hrows line Hline).
Qed.

(** X20. A file with no year in its name and no label that standardises to
    [year] stops the load. *)
Theorem year_missing_raises (src : Source) :
  year_from_name (basename src) = None ->
  (forall l, l ∈ header src -> standard_label l <> "year") ->
  normalize_file to_numeric_str to_datetime_str src = Raise (KeyError "year").
Proof.
  intros Hy Hh. unfold normalize_file.
  assert (count_label "year" (standardize src) = 0%nat) as ->; [|done].
  destruct (standardize_year src) as (_ & h & Hlabels & Hyear).
  unfold count_label. rewrite Hlabels. unfold year_from_file. rewrite Hy.
  cbn [read_csv labels]. apply length_zero_iff_nil.
  induction (header src) as [|l ls IH]; [done|].
  rewrite fmap_cons, filter_cons, decide_False.
  - apply IH. intros l' Hl'. apply Hh. by right.
  - intros E. symmetry in E. apply Hyear in E. by apply (Hh l); [left|].
Qed.

End YearFacts.

(** ** The scenarios of the specification *)

Section Scenarios.
Import Processing DataLoader.

(** Equality of evaluated tables, the rationals compared by their values. *)
Ltac evaluated :=
  vm_compute; repeat first [reflexivity | apply Qc_is_canon; reflexivity | f_equal].

(** Two yearly files of one manufacturer: the records, the yearly totals,
    and a growth of ten per cent in the second year. *)
Example scenario_yearly :
  load_and_normalize decimal_literal iso_date scenario_folder
  = Ok (Frame canonical_columns
          [ Canonical.Make (Some (jan1 2021)) (Some (Q2Qc 2021)) "2W" (Str "Acme")
              (Some (Q2Qc 1000));
            Canonical.Make (Some (jan1 2022)) (Some (Q2Qc 2022)) "2W" (Str "Acme")
              (Some (Q2Qc 1100)) ],
        yearly)
  /\ aggregate iso_date scenario_facts "Y"
     = Ok (Frame agg_columns [agg_row 2021 "2W" "Acme" 1000; agg_row 2022 "2W" "Acme" 1100])
  /\ compute_growth
       (Frame agg_columns [agg_row 2021 "2W" "Acme" 1000; agg_row 2022 "2W" "Acme" 1100]) "Y"
     = Ok (Frame (agg_columns ++ ["yoy_pct"; "qoq_pct"; "pop_pct"])
             [ Agg.with_growth (agg_row 2021 "2W" "Acme" 1000) NaN NaN NaN;
               Agg.with_growth (agg_row 2022 "2W" "Acme" 1100)
                 (Finite (Q2Qc 10)) NaN (Finite (Q2Qc 10)) ],
           None).
Proof. repeat split; evaluated. Qed.

(** Thirteen months of a constant total: the first twelve have no growth
    cell, the thirteenth has zero growth. *)
Example scenario_monthly :
  exists main quarters,
    compute_growth thirteen_months "M" = Ok (main, Some quarters)
    /\ Agg.yoy_pct <$> rows main = replicate 12 NaN ++ [Finite 0]
    /\ Agg.qoq_pct <$> rows main = replicate 13 NaN
    /\ Agg.total <$> rows quarters = Q2Qc <$> [1500; 1500; 1500; 1500; 500]%Q
    /\ Agg.qoq_pct <$> rows quarters
       = [NaN; Finite 0; Finite 0; Finite 0; Finite (Q2Qc (-200 # 3))].
Proof. do 2 eexists. split; [reflexivity|]. repeat split; evaluated. Qed.

(** A period that the table does not have gives an empty ranking. *)
Example scenario_absent_period :
  top_n_manufacturers iso_date sort_desc_stable sample_yearly (Text "2030-01-01") None
  = Ok (Frame top_columns []).
Proof. vm_compute; reflexivity. Qed.

(** A folder without a matching file stops the load. *)
Example scenario_no_files :
  load_and_normalize decimal_literal iso_date
    [MkSource "notes.csv" ["Maker"] [[Some "Acme"]] eq_refl]
  = Raise FileNotFoundError.
Proof. vm_compute; reflexivity. Qed.

End Scenarios.

(** * Further properties *)

(** ** More on groupby *)

Lemma filter_fmap {A B} (f : A -> B) (P : B -> Prop) `{!forall x, Decision (P x)}
    (l : list A) :
  filter P (f <$> l) = f <$> filter (fun x => P (f x)) l.
Proof.
  induction l as [|x l IH]; [done|].
  rewrite fmap_cons, !filter_cons. destruct (decide (P (f x))); [|done].
  by rewrite fmap_cons, IH.
Qed.

Section GroupByOrder.
Context {K : Type} `{EqDecision K} (cmp : K -> K -> comparison) `{!Order cmp}.

Lemma sort_remove_dups_ext (l l' : list K) :
  (forall x, x ∈ l <-> x ∈ l') -> sort cmp (remove_dups l) = sort cmp (remove_dups l').
Proof.
  intros Hl. apply sort_unique; [done|].
  apply NoDup_Permutation; [apply NoDup_remove_dups..|].
  intros x. by rewrite !elem_of_remove_dups.
Qed.

Lemma sum_skipna_perm (l l' : list (option Qc)) : l ≡ₚ l' -> sum_skipna l = sum_skipna l'.
Proof. intros Hp. unfold sum_skipna. apply Qsum_perm. by rewrite Hp. Qed.

Lemma elem_of_keys (kvs : list (option K * option Qc)) (k : K) :
  k ∈ omap fst kvs <-> exists v, (Some k, v) ∈ kvs.
Proof.
  rewrite list_elem_of_omap. split.
  - intros ([k' v] & Hin & Hk). simpl in Hk. subst. by exists v.
  - intros [v Hin]. by exists (Some k, v).
Qed.

(** Two lists of keyed cells with the same keys and the same sum in each
    group have the same groups. *)
Lemma groupby_sum_eq (A B : list (option K * option Qc)) :
  (forall k, k ∈ omap fst A <-> k ∈ omap fst B) ->
  (forall k, k ∈ omap fst A -> sum_skipna (group k A) = sum_skipna (group k B)) ->
  groupby_sum cmp A = groupby_sum cmp B.
Proof.
  intros Hk Hs. unfold groupby_sum.
  rewrite <- (sort_remove_dups_ext _ _ Hk).
  apply list_fmap_ext. intros i k Hi. f_equal. apply Hs.
  apply list_elem_of_lookup_2 in Hi. rewrite sort_perm in Hi.
  by rewrite elem_of_remove_dups in Hi.
Qed.

Lemma groupby_sum_perm (kvs kvs' : list (option K * option Qc)) :
  kvs ≡ₚ kvs' -> groupby_sum cmp kvs = groupby_sum cmp kvs'.
Proof.
  intros Hp. apply groupby_sum_eq.
  - intros k. by rewrite Hp.
  - intros k _. apply sum_skipna_perm. unfold group. by rewrite Hp.
Qed.

End GroupByOrder.

(** ** The table of [aggregate] *)

Section AggregateStructure.
Import Processing.

Variable rd : string -> option Timestamp.

Lemma StronglySorted_strict {A B} (R R' : A -> A -> Prop) (f : A -> B) (l : list A) :
  (forall x y, R x y -> f x <> f y -> R' x y) ->
  StronglySorted R l -> NoDup (f <$> l) -> StronglySorted R' l.
Proof.
  intros HR Hs. induction Hs as [|x l Hs IH Hx]; intros Hn; [constructor|].
  rewrite fmap_cons in Hn. apply NoDup_cons in Hn as [Hx' Hn].
  constructor; [by apply IH|].
  apply Forall_forall. intros y Hy. apply HR.
  - by eapply Forall_forall in Hx.
  - intros Heq. apply Hx'. rewrite Heq. by apply list_elem_of_fmap_2.
Qed.

#[local] Instance cmp_sort_key_order : Order cmp_sort_key.
Proof. unfold cmp_sort_key. apply _. Qed.

Lemma le_cmp_row_strict (a b : Agg.t) :
  le cmp_row a b -> sort_key a <> sort_key b -> ascending a b.
Proof.
  unfold le, leb, ascending. rewrite cmp_row_sort_key. intros Hle Hne.
  destruct (cmp_sort_key (sort_key a) (sort_key b)) eqn:Hc; [|done..].
  by apply (cmp_eq (cmp:=cmp_sort_key)) in Hc.
Qed.

Lemma sort_key_groups (G : list (key * Qc)) :
  sort_key <$> (row_of_group <$> G)
  = (fun k : key => (Some k.1.2, Some k.2, Some k.1.1)) <$> G.*1.
Proof. rewrite <- !list_fmap_compose. by apply list_fmap_ext. Qed.

Lemma groups_ascending (G : list (key * Qc)) :
  NoDup G.*1 -> StronglySorted ascending (sort cmp_row (row_of_group <$> G)).
Proof.
  intros Hn.
  apply (StronglySorted_strict (le cmp_row) ascending sort_key).
  - apply le_cmp_row_strict.
  - apply Sorted_StronglySorted; [apply le_cmp_row_trans|].
    apply sort_Sorted_total, cmp_row_opp.
  - rewrite sort_perm, sort_key_groups. apply NoDup_fmap_2; [|done].
    intros [[p c] m] [[p' c'] m'] Heq. simpl in Heq. congruence.
Qed.

Lemma group_keyed (floor : Timestamp -> Timestamp) (k : key) (l : list Fact.t) :
  group k (keyed rd floor l) = Fact.registrations <$> filter (in_bucket rd floor k) l.
Proof.
  unfold group, keyed. rewrite filter_fmap, <- list_fmap_compose. done.
Qed.

(** X1. The rows of an aggregated table come strictly ascending in
    (vehicle_category, manufacturer, period), so that no two of them share
    a key; none of the three key cells is missing; and the columns are
    period, vehicle_category, manufacturer and total. *)
Theorem aggregate_sorted_keys (df : frame Fact.t) (freq : string) (out : frame Agg.t) :
  aggregate rd df freq = Ok out ->
  columns out = ["period"; "vehicle_category"; "manufacturer"; "total"]
  /\ StronglySorted ascending (rows out)
  /\ Forall (fun r => is_Some (Agg.period r) /\ is_Some (Agg.vehicle_category r)
                      /\ is_Some (Agg.manufacturer r)) (rows out).
Proof.
  intros Hagg.
  apply aggregate_Ok in Hagg as [[_ ->]|(floor & _ & _ & _ & _ & _ & _ & ->)].
  - repeat split; constructor.
  - split; [done|]. cbn [rows]. split.
    + apply groups_ascending, groupby_sum_NoDup.
    + apply Forall_forall. intros r Hr. rewrite sort_perm in Hr.
      apply list_elem_of_fmap in Hr as (g & -> & _). by repeat split.
Qed.

(** X2. The groups of [aggregate]: the result has one row for each key
    (bucket, vehicle_category, manufacturer) that some row of the input
    has, and the total of that row is the NaN-skipping sum of the
    registrations of the rows of the input with that key. *)
Theorem aggregate_groups (df : frame Fact.t) (freq : string)
    (floor : Timestamp -> Timestamp) (out : frame Agg.t) (r : Agg.t) :
  has_column "registrations" df = true ->
  period_floor freq = Ok floor ->
  aggregate rd df freq = Ok out ->
  r ∈ rows out
  <-> exists k,
        (exists r0, r0 ∈ rows df /\ in_bucket rd floor k r0)
        /\ r = row_of_group
                 (k, sum_skipna (Fact.registrations <$> filter (in_bucket rd floor k) (rows df))).
Proof.
  intros Hreg Hf Hagg.
  apply aggregate_Ok in Hagg as [[Hg ->]|(floor' & _ & _ & _ & Hf' & _ & _ & ->)].
  - rewrite Hreg, orb_false_r in Hg. unfold empty in Hg.
    apply orb_true_iff in Hg as [Hg|Hg].
    { apply bool_decide_eq_true in Hg. unfold has_column in Hreg.
      apply bool_decide_eq_true in Hreg. rewrite Hg in Hreg. by apply elem_of_nil in Hreg. }
    apply bool_decide_eq_true, length_zero_iff_nil in Hg. rewrite Hg. cbn [rows].
    split; [intros Hin; by apply elem_of_nil in Hin|].
    intros (k & (r0 & Hin & _) & _). by apply elem_of_nil in Hin.
  - rewrite Hf in Hf'. injection Hf' as <-. cbn [rows]. rewrite sort_perm.
    rewrite list_elem_of_fmap. split.
    + intros ([k t] & -> & Hin).
      apply elem_of_groupby_sum in Hin as [[v Hin] ->].
      exists k. rewrite group_keyed. split; [|done].
      unfold keyed in Hin. apply list_elem_of_fmap in Hin as (r0 & Heq & Hin).
      exists r0. split; [done|]. unfold in_bucket. congruence.
    + intros (k & (r0 & Hin & Hk) & ->).
      exists (k, sum_skipna (Fact.registrations <$> filter (in_bucket rd floor k) (rows df))).
      split; [done|]. apply elem_of_groupby_sum. rewrite group_keyed.
      split; [|done]. exists (Fact.registrations r0).
      unfold keyed. apply list_elem_of_fmap. exists r0. split; [|done].
      unfold in_bucket in Hk. by rewrite Hk.
Qed.

(** With sums taken exactly, the result of [aggregate] does not depend on
    the order of the rows of its input. *)
Lemma aggregate_row_order_exactly (df df' : frame Fact.t) (freq : string) :
  columns df = columns df' -> rows df ≡ₚ rows df' ->
  aggregate rd df freq = aggregate rd df' freq.
Proof.
  destruct df as [cols l], df' as [cols' l']. cbn [columns rows]. intros <- Hp.
  unfold aggregate, empty, has_column, require_columns, has_column. cbn [columns rows].
  rewrite <- (Permutation_length Hp).
  destruct (_ || _); [done|].
  destruct (bool_decide ("period" ∈ cols)); [|done]. cbn [bind Ok].
  destruct (period_floor freq) as [e|floor]; [done|]. cbn [bind Ok].
  destruct (bool_decide ("vehicle_category" ∈ cols)); [|done].
  destruct (bool_decide ("manufacturer" ∈ cols)); [|done]. cbn [bind Ok].
  do 4 f_equal. apply groupby_sum_perm; [apply _|]. by rewrite Hp.
Qed.

(** X3. When the registrations of the rows that [groupby] keeps are whole
    numbers whose absolute values add up to at most 2^53, the result of
    [aggregate], its sums taken in float64, does not depend on the order
    of the rows of its input. *)
Theorem aggregate_row_order (df df' : frame Fact.t) (freq : string) :
  columns df = columns df' -> rows df ≡ₚ rows df' ->
  whole_counts (Fact.registrations <$> filter (kept rd) (rows df)) ->
  aggregate64 rd df freq = aggregate64 rd df' freq.
Proof.
  intros Hc Hp Hw.
  rewrite (aggregate64_whole rd df freq Hw), (aggregate64_whole rd df' freq).
  - by apply aggregate_row_order_exactly.
  - apply (whole_counts_perm (Fact.registrations <$> filter (kept rd) (rows df))); [|done].
    by rewrite Hp.
Qed.

Lemma refines_floor (fine coarse : string) :
  refines fine coarse ->
  exists f1 f2, period_floor fine = Ok f1 /\ period_floor coarse = Ok f2
                /\ forall t, f2 (f1 t) = f2 t.
Proof.
  unfold refines. rewrite !elem_of_cons, elem_of_nil.
  intros [H|[H|[H|[H|[H|[H|[]]]]]]]; injection H as -> ->;
    eexists _, _; (split; [reflexivity|]); (split; [reflexivity|]); intros t;
    first [reflexivity | by apply (period_floor_idempotent "Q")].
Qed.

(** The groups of a list of groups whose keys are coarsened by [h] are
    the groups of the cells under the coarsened keys. *)
Lemma groupby_sum_coarsen {K} `{EqDecision K} (cmp : K -> K -> comparison) `{!Order cmp}
    (h : K -> K) (kvs : list (option K * option Qc)) (l : list (K * Qc)) :
  l ≡ₚ groupby_sum cmp kvs ->
  groupby_sum cmp ((fun g : K * Qc => (Some (h g.1), Some g.2)) <$> l)
  = groupby_sum cmp ((fun kv : option K * option Qc => (h <$> kv.1, kv.2)) <$> kvs).
Proof.
  intros Hl.
  rewrite (groupby_sum_perm cmp _
             ((fun g : K * Qc => (Some (h g.1), Some g.2)) <$> groupby_sum cmp kvs))
    by (by rewrite Hl).
  assert (Hkeys : forall k2,
            k2 ∈ omap fst ((fun g : K * Qc => (Some (h g.1), Some g.2)) <$> groupby_sum cmp kvs)
            <-> exists k v, (Some k, v) ∈ kvs /\ h k = k2).
  { intros k2. rewrite elem_of_keys. split.
    - intros (v & Hin). apply list_elem_of_fmap in Hin as ([k t] & Heq & Hin).
      simpl in Heq. injection Heq as -> ->.
      apply elem_of_groupby_sum in Hin as [[v Hin] _]. by exists k, v.
    - intros (k & v & Hin & <-). exists (Some (sum_skipna (group k kvs))).
      apply list_elem_of_fmap. exists (k, sum_skipna (group k kvs)). split; [done|].
      apply elem_of_groupby_sum. split; [by exists v|done]. }
  apply groupby_sum_eq; [done| |].
  - intros k2. rewrite Hkeys, elem_of_keys. split.
    + intros (k & v & Hin & <-). exists v. apply list_elem_of_fmap. by exists (Some k, v).
    + intros (v & Hin). apply list_elem_of_fmap in Hin as ([[k|] v'] & Heq & Hin);
        simpl in Heq; [|done]. injection Heq as -> ->. by exists k, v'.
  - intros k2 _.
    set (L := filter (fun k => h k = k2) (sort cmp (remove_dups (omap fst kvs)))).
    assert (HL : NoDup L).
    { apply NoDup_filter. rewrite sort_perm. apply NoDup_remove_dups. }
    transitivity (Qsum ((fun k => sum_skipna (group k kvs)) <$> L)).
    + rewrite <- sum_skipna_somes. f_equal. unfold groupby_sum, L.
      generalize (sort cmp (remove_dups (omap fst kvs))). intros LL.
      induction LL as [|k LL IH]; [done|].
      rewrite !fmap_cons, group_cons, filter_cons. cbn [fst snd].
      destruct (decide (Some (h k) = Some k2)), (decide (h k = k2)); try congruence.
      by rewrite !fmap_cons, IH.
    + rewrite (sum_groups L kvs HL). f_equal. unfold group.
      rewrite filter_fmap, <- list_fmap_compose.
      change (snd ∘ _) with (snd (A:=option K) (B:=option Qc)). f_equal.
      apply filter_ext_in. intros [[k|] v] Hin; unfold key_in; simpl.
      * unfold L. rewrite list_elem_of_filter, sort_perm, elem_of_remove_dups, elem_of_keys.
        split; [intros [-> _]; done|]. intros Heq. injection Heq as <-.
        split; [done|]. by exists v.
      * split; [done|]. discriminate.
Qed.

Lemma fact_key_coarsen (f1 f2 : Timestamp -> Timestamp) (r : Fact.t) :
  (forall t, f2 (f1 t) = f2 t) ->
  fact_key rd f2 r
  = (fun k : key => (f2 k.1.1, k.1.2, k.2)) <$> fact_key rd f1 r.
Proof.
  intros Hf. unfold fact_key.
  destruct (to_datetime rd (Fact.period r)), (Fact.vehicle_category r),
    (Fact.manufacturer r); simpl; by rewrite ?Hf.
Qed.

(** With sums taken exactly, aggregating an aggregated table again at a
    coarser frequency, its totals taken as registrations, gives what
    [aggregate] gives for the original table at the coarser frequency. *)
Lemma aggregate_coarsen_exactly (df : frame Fact.t) (fine coarse : string)
    (out : frame Agg.t) :
  refines fine coarse ->
  aggregate rd df fine = Ok out ->
  aggregate rd (as_registrations out) coarse = aggregate rd df coarse.
Proof.
  intros Href Hagg.
  destruct (refines_floor _ _ Href) as (f1 & f2 & Hf1 & Hf2 & Hf).
  apply aggregate_Ok in Hagg as [[Hg ->]|(floor & He & Hr & Hp & Hf' & Hc & Hm & ->)].
  - unfold aggregate at 2. by rewrite Hg.
  - rewrite Hf1 in Hf'. injection Hf' as <-.
    rewrite (aggregate_as_registrations rd _ coarse f2 Hf2).
    unfold aggregate. rewrite He, Hr. cbn [orb negb].
    unfold require_columns. rewrite Hp, Hc, Hm. cbn [bind Ok]. rewrite Hf2. cbn [bind Ok].
    do 4 f_equal.
    set (G := groupby_sum cmp_key (keyed rd f1 (rows df))).
    rewrite sort_fmap.
    set (G2 := sort (fun a b => cmp_row (row_of_group a) (row_of_group b)) G).
    assert (Hperm : G2 ≡ₚ G) by apply sort_perm.
    unfold keyed at 1. rewrite <- !list_fmap_compose.
    erewrite (list_fmap_ext _ (fun g : key * Qc => (Some (f2 g.1.1.1, g.1.1.2, g.1.2), Some g.2)) G2);
      [|intros i g _; reflexivity].
    pose proof (groupby_sum_coarsen cmp_key (fun k : key => (f2 k.1.1, k.1.2, k.2))
                  (keyed rd f1 (rows df)) G2 Hperm) as Hco.
    cbv beta in Hco. etrans; [exact Hco|].
    f_equal. unfold keyed. rewrite <- list_fmap_compose.
    apply list_fmap_ext. intros i r _. simpl. by rewrite (fact_key_coarsen f1 f2 r Hf).
Qed.

(** X4. When the registrations of the rows that [groupby] keeps are whole
    numbers whose absolute values add up to at most 2^53, aggregating an
    aggregated table again at a coarser frequency (months into quarters or
    years, quarters into years), its totals taken as registrations, gives
    what [aggregate] gives for the original table at the coarser
    frequency, all sums taken in float64. *)
Theorem aggregate_coarsen (df : frame Fact.t) (fine coarse : string) (out : frame Agg.t) :
  refines fine coarse ->
  whole_counts (Fact.registrations <$> filter (kept rd) (rows df)) ->
  aggregate64 rd df fine = Ok out ->
  aggregate64 rd (as_registrations out) coarse = aggregate64 rd df coarse.
Proof.
  intros Href Hw Hagg. rewrite (aggregate64_whole rd df fine Hw) in Hagg.
  destruct (aggregate_whole_totals rd df fine out Hw Hagg) as [Hwt Hregs].
  rewrite (aggregate64_whole rd df coarse Hw).
  rewrite (aggregate64_whole rd (as_registrations out) coarse) by (by rewrite Hregs).
  by apply (aggregate_coarsen_exactly df fine coarse out).
Qed.

(** X5. [aggregate] applied to an aggregated table as it is, without its
    [total] renamed to [registrations], returns the empty table at any
    frequency: this is the table that [load_df_to_duckdb] stores when it
    is handed an aggregated table. *)
Theorem aggregate_of_aggregated_is_empty (df : frame Fact.t) (freq freq' : string)
    (out : frame Agg.t) :
  aggregate rd df freq = Ok out ->
  aggregate rd (as_facts out) freq' = Ok (Frame agg_columns []).
Proof.
  intros Hagg.
  apply aggregate_Ok in Hagg as [[_ ->]|(floor & _ & _ & _ & _ & _ & _ & ->)]; [done|].
  unfold aggregate, as_facts. cbn [columns].
  replace (has_column "registrations" _) with false by done.
  by rewrite orb_true_r.
Qed.

End AggregateStructure.

(** ** The tables of [compute_growth] *)

Section GrowthStructure.
Import Processing.

Lemma sort_sorted_id {A} (cmp : A -> A -> comparison) (l : list A) :
  Sorted (le cmp) l -> sort cmp l = l.
Proof.
  induction 1 as [|x l Hl IH Hx]; [done|].
  unfold sort. cbn [foldr]. fold (sort cmp l). rewrite IH.
  destruct Hx as [|y l Hxy]; [done|]. cbn [insert_sorted]. by rewrite Hxy.
Qed.

Lemma fmap_zip_with_l {A C B} (h : A -> B) (g : A -> C -> A) (l : list A) (cs : list C) :
  length cs = length l -> (forall r c, h (g r c) = h r) ->
  h <$> zip_with g l cs = h <$> l.
Proof.
  intros Hlen Hg. revert cs Hlen.
  induction l as [|x l IH]; intros [|c cs] Hlen; try done.
  cbn [zip_with]. rewrite !fmap_cons, Hg, IH; [done|]. simpl in Hlen. lia.
Qed.

Lemma length_growth (n : nat) (df : list Agg.t) : length (growth n df) = length df.
Proof. apply length_imap. Qed.

Lemma elem_of_with_column (label l : string) (cols : list string) :
  l ∈ with_column label cols <-> l = label \/ l ∈ cols.
Proof.
  unfold with_column. case_bool_decide as Hin.
  - split; [by right|]. by intros [->|].
  - rewrite elem_of_app, list_elem_of_singleton. tauto.
Qed.

Lemma with_column_present (label : string) (cols : list string) :
  label ∈ cols -> with_column label cols = cols.
Proof. intros Hin. unfold with_column. by rewrite bool_decide_eq_true_2. Qed.

Lemma elem_of_growth_columns (l : string) (cols : list string) :
  l ∈ growth_columns cols <-> l ∈ ["yoy_pct"; "qoq_pct"; "pop_pct"] \/ l ∈ cols.
Proof.
  unfold growth_columns. rewrite !elem_of_with_column, !elem_of_cons, elem_of_nil. tauto.
Qed.

Lemma growth_columns_idempotent (cols : list string) :
  growth_columns (growth_columns cols) = growth_columns cols.
Proof.
  unfold growth_columns at 1.
  rewrite (with_column_present "yoy_pct") by (rewrite elem_of_growth_columns, !elem_of_cons; tauto).
  rewrite (with_column_present "qoq_pct") by (rewrite elem_of_growth_columns, !elem_of_cons; tauto).
  rewrite (with_column_present "pop_pct") by (rewrite elem_of_growth_columns, !elem_of_cons; tauto).
  done.
Qed.

Lemma require_columns_Ok {R} (labels : list string) (df : frame R) :
  require_columns labels df = Ok tt <-> forall l, l ∈ labels -> has_column l df = true.
Proof.
  induction labels as [|l labels IH]; cbn [require_columns].
  - split; [|done]. intros _ l Hl. by apply elem_of_nil in Hl.
  - destruct (has_column l df) eqn:Hl.
    + rewrite IH. split.
      * intros H l' [->|Hin]%elem_of_cons; [done|by apply H].
      * intros H l' Hin. apply H. by right.
    + split; [done|]. intros H. rewrite H in Hl; [done|by left].
Qed.

Lemma require_columns_unit {R} (labels : list string) (df : frame R) (u : unit) :
  require_columns labels df = Ok u -> require_columns labels df = Ok tt.
Proof. by destruct u. Qed.

(** The shape of the main table of [compute_growth] on a table that is
    not empty and has a total column: the sorted rows of the input, each
    with growth cells of its own. *)
Lemma compute_growth_Ok (agg : frame Agg.t) (freq : string) (out : frame Agg.t)
    (q : option (frame Agg.t)) :
  empty agg = false -> has_column "total" agg = true ->
  compute_growth agg freq = Ok (out, q) ->
  require_columns ["vehicle_category"; "manufacturer"; "period"] agg = Ok tt
  /\ freq ∈ ["M"; "Q"; "Y"]
  /\ exists (cells : list (float * float * float)),
       length cells = length (rows agg)
       /\ out = Frame (growth_columns (columns agg))
                  (zip_with (fun r c => Agg.with_growth r c.1.1 c.1.2 c.2)
                     (clear_growth <$> sort cmp_row (rows agg)) cells).
Proof.
  intros He Ht. unfold compute_growth. rewrite He, Ht. cbn [orb negb].
  destruct (require_columns _ agg) as [e|[]]; [done|]. cbn [bind Ok].
  fold clear_growth.
  set (df := clear_growth <$> sort cmp_row (rows agg)).
  assert (Hlen : length df = length (rows agg)).
  { unfold df. by rewrite length_fmap, sort_perm. }
  intros Hcg. split; [done|].
  assert (Hzip : forall (cs : list float) (mk : float -> float * float * float),
            length cs = length df ->
            zip_with (fun r c => Agg.with_growth r (mk c).1.1 (mk c).1.2 (mk c).2) df cs
            = zip_with (fun r c => Agg.with_growth r c.1.1 c.1.2 c.2) df (mk <$> cs)).
  { intros cs mk _. by rewrite zip_with_fmap_r. }
  destruct (bool_decide_reflect (freq = "M")) as [->|_].
  { split; [rewrite !elem_of_cons; tauto|].
    exists ((fun y => (y, NaN, NaN)) <$> growth 12 df).
    rewrite length_fmap, length_growth. split; [done|].
    injection Hcg as <- _. f_equal.
    by rewrite <- (Hzip _ (fun y => (y, NaN, NaN))) by apply length_growth. }
  destruct (bool_decide_reflect (freq = "Q")) as [->|_].
  { split; [rewrite !elem_of_cons; tauto|].
    exists ((fun g : float * float => (g.1, g.2, NaN)) <$> zip (growth 4 df) (growth 1 df)).
    rewrite length_fmap, length_zip, !length_growth. split; [lia|].
    injection Hcg as <- _. f_equal. by rewrite zip_with_fmap_r. }
  destruct (bool_decide_reflect (freq = "Y")) as [->|_]; [|done].
  split; [rewrite !elem_of_cons; tauto|].
  exists ((fun y => (y, NaN, y)) <$> growth 1 df).
  rewrite length_fmap, length_growth. split; [done|].
  injection Hcg as <- _. f_equal.
  by rewrite <- (Hzip _ (fun y => (y, NaN, y))) by apply length_growth.
Qed.

Lemma clear_growth_idempotent (r : Agg.t) (a b c : float) :
  clear_growth (Agg.with_growth r a b c) = clear_growth r.
Proof. done. Qed.

(** X7. [compute_growth] keeps the rows of a table that is not empty and
    has a total column: its main table, growth cells aside, is the input
    sorted by (vehicle_category, manufacturer, period), growth cells
    aside; and its columns are those of the input and the three growth
    columns. *)
Theorem compute_growth_keeps_rows (agg : frame Agg.t) (freq : string) (out : frame Agg.t)
    (q : option (frame Agg.t)) :
  empty agg = false -> has_column "total" agg = true ->
  compute_growth agg freq = Ok (out, q) ->
  clear_growth <$> rows out = clear_growth <$> sort cmp_row (rows agg)
  /\ forall l, l ∈ columns out <-> l ∈ ["yoy_pct"; "qoq_pct"; "pop_pct"] \/ l ∈ columns agg.
Proof.
  intros He Ht Hcg.
  destruct (compute_growth_Ok _ _ _ _ He Ht Hcg) as (_ & _ & cells & Hlen & ->).
  cbn [rows columns]. split; [|intros l; apply elem_of_growth_columns].
  rewrite fmap_zip_with_l.
  - rewrite <- list_fmap_compose. by apply list_fmap_ext.
  - by rewrite length_fmap, sort_perm.
  - done.
Qed.

End GrowthStructure.

(** ** [compute_growth] composed with itself and with [aggregate] *)

Section GrowthRows.
Import Processing.

Lemma transform_missing_key {R K} `{EqDecision K} (key : R -> option K) (value : R -> Qc)
    (f : list Qc -> list float) (df : list R) (i : nat) (r : R) :
  df !! i = Some r -> key r = None -> transform key value f df !! i = Some NaN.
Proof.
  intros Hi Hk. unfold transform. rewrite list_lookup_imap, Hi. simpl. by rewrite Hk.
Qed.

Lemma clear_growth_sorted (l : list Agg.t) :
  Sorted (le cmp_row) (clear_growth <$> sort cmp_row l).
Proof.
  apply StronglySorted_Sorted.
  apply (StronglySorted_fmap _ (le cmp_row)); [by intros ??|].
  apply Sorted_StronglySorted; [apply le_cmp_row_trans|].
  apply sort_Sorted_total, cmp_row_opp.
Qed.

Lemma zip_with_sorted {C} (g : Agg.t -> C -> Agg.t) (l : list Agg.t) (cs : list C) :
  (forall r c, sort_key (g r c) = sort_key r) ->
  Sorted (le cmp_row) l -> Sorted (le cmp_row) (zip_with g l cs).
Proof.
  intros Hg Hl. apply StronglySorted_Sorted, StronglySorted_zip_with.
  - intros x y c d. unfold le, leb. by rewrite !cmp_row_sort_key, !Hg.
  - apply Sorted_StronglySorted; [apply le_cmp_row_trans|done].
Qed.

(** X8. [compute_growth] is idempotent: applied to its own main table at
    the same frequency, it returns the same two tables. *)
Theorem compute_growth_idempotent (agg : frame Agg.t) (freq : string) (out : frame Agg.t)
    (q : option (frame Agg.t)) :
  compute_growth agg freq = Ok (out, q) ->
  compute_growth out freq = Ok (out, q).
Proof.
  intros Hcg.
  destruct (empty agg || negb (has_column "total" agg)) eqn:Hg.
  { unfold compute_growth in Hcg. rewrite Hg in Hcg. injection Hcg as <- <-.
    unfold compute_growth. by rewrite Hg. }
  apply orb_false_iff in Hg as [He Ht]. apply negb_false_iff in Ht.
  destruct (compute_growth_Ok _ _ _ _ He Ht Hcg) as (Hreq & _ & cells & Hlen & Hout).
  rewrite <- Hcg.
  assert (Hcol : forall l, has_column l agg = true -> has_column l out = true).
  { intros l. unfold has_column. rewrite !bool_decide_eq_true, Hout. cbn [columns].
    rewrite elem_of_growth_columns. tauto. }
  assert (He' : empty out = false).
  { unfold empty in *. apply orb_false_iff in He as [_ He]. apply orb_false_iff. split.
    - apply bool_decide_eq_false. intros Hnil.
      specialize (Hcol "total" Ht). unfold has_column in Hcol.
      apply bool_decide_eq_true in Hcol. rewrite Hnil in Hcol. by apply elem_of_nil in Hcol.
    - apply bool_decide_eq_false in He. apply bool_decide_eq_false.
      rewrite Hout. cbn [rows]. rewrite length_zip_with, length_fmap, sort_perm. lia. }
  assert (Hreq' : require_columns ["vehicle_category"; "manufacturer"; "period"] out = Ok tt).
  { apply require_columns_Ok. intros l Hl. apply Hcol. revert l Hl. by apply require_columns_Ok. }
  assert (Hrows : clear_growth <$> sort cmp_row (rows out)
                  = clear_growth <$> sort cmp_row (rows agg)).
  { rewrite sort_sorted_id.
    - rewrite Hout. cbn [rows]. rewrite fmap_zip_with_l; [|by rewrite length_fmap, sort_perm|done].
      rewrite <- list_fmap_compose. by apply list_fmap_ext.
    - rewrite Hout. cbn [rows]. apply zip_with_sorted; [done|apply clear_growth_sorted]. }
  assert (Hcols : growth_columns (columns out) = growth_columns (columns agg)).
  { rewrite Hout. cbn [columns]. apply growth_columns_idempotent. }
  unfold compute_growth. rewrite He, Ht, He', (Hcol "total" Ht), Hreq, Hreq'.
  cbn [orb negb bind Ok]. fold clear_growth. by rewrite Hrows, Hcols.
Qed.

(** X9. In the main table of [compute_growth], a row whose
    vehicle_category or manufacturer is missing has NaN in the three
    growth columns. *)
Theorem compute_growth_missing_key (agg : frame Agg.t) (freq : string) (out : frame Agg.t)
    (q : option (frame Agg.t)) (r : Agg.t) :
  empty agg = false -> has_column "total" agg = true ->
  compute_growth agg freq = Ok (out, q) ->
  r ∈ rows out -> series_key r = None ->
  Agg.yoy_pct r = NaN /\ Agg.qoq_pct r = NaN /\ Agg.pop_pct r = NaN.
Proof.
  intros He Ht. unfold compute_growth. rewrite He, Ht. cbn [orb negb].
  destruct (require_columns _ agg); [done|]. cbn [bind Ok]. fold clear_growth.
  set (df := clear_growth <$> sort cmp_row (rows agg)).
  assert (Hnan : forall n i r0, df !! i = Some r0 -> series_key r0 = None ->
                                growth n df !! i = Some NaN).
  { intros n i r0. apply transform_missing_key. }
  destruct (bool_decide (freq = "M")).
  { intros [= <- _]. cbn [rows]. intros [i Hi]%list_elem_of_lookup Hk.
    apply lookup_zip_with_Some in Hi as (r0 & c & -> & Hr0 & Hc).
    rewrite (Hnan 12%nat i r0 Hr0 Hk) in Hc. by injection Hc as <-. }
  destruct (bool_decide (freq = "Q")).
  { intros [= <- _]. cbn [rows]. intros [i Hi]%list_elem_of_lookup Hk.
    apply lookup_zip_with_Some in Hi as (r0 & [c4 c1] & -> & Hr0 & Hc).
    apply lookup_zip_with_Some in Hc as (c4' & c1' & [= <- <-] & H4 & H1).
    rewrite (Hnan 4%nat i r0 Hr0 Hk) in H4. rewrite (Hnan 1%nat i r0 Hr0 Hk) in H1.
    injection H4 as <-. by injection H1 as <-. }
  destruct (bool_decide (freq = "Y")); [|done].
  intros [= <- _]. cbn [rows]. intros [i Hi]%list_elem_of_lookup Hk.
  apply lookup_zip_with_Some in Hi as (r0 & c & -> & Hr0 & Hc).
  rewrite (Hnan 1%nat i r0 Hr0 Hk) in Hc. by injection Hc as <-.
Qed.

End GrowthRows.

Section GrowthComposition.
Import Processing.

Variable rd : string -> option Timestamp.

Lemma quarter_key_fact (r : Agg.t) :
  fact_key rd floor_quarter (fact_of_row r) = quarter_key r.
Proof.
  unfold fact_key, quarter_key, fact_of_row. cbn [Fact.period Fact.vehicle_category Fact.manufacturer].
  by destruct (Agg.period r).
Qed.

Lemma has_column_as_registrations (l : string) (agg : frame Agg.t) :
  l <> "total" -> l <> "registrations" ->
  has_column l (as_registrations agg) = has_column l agg.
Proof.
  intros H1 H2. unfold has_column, as_registrations. cbn [columns].
  apply bool_decide_ext. rewrite list_elem_of_fmap. split.
  - intros (c & -> & Hin). by case_bool_decide; subst.
  - intros Hin. exists l. split; [|done]. by rewrite bool_decide_eq_false_2.
Qed.

Lemma has_registrations_as_registrations (agg : frame Agg.t) :
  has_column "total" agg = true -> has_column "registrations" (as_registrations agg) = true.
Proof.
  unfold has_column, as_registrations. cbn [columns]. rewrite !bool_decide_eq_true.
  intros Hin. apply list_elem_of_fmap. exists "total". split; [done|done].
Qed.

Lemma clear_growth_groups (G : list (key * Qc)) :
  clear_growth <$> sort cmp_row (row_of_group <$> G) = sort cmp_row (row_of_group <$> G).
Proof.
  rewrite <- (list_fmap_id (sort cmp_row (row_of_group <$> G))) at 2.
  apply list_fmap_ext. intros i r Hi. apply list_elem_of_lookup_2 in Hi.
  rewrite sort_perm in Hi. by apply list_elem_of_fmap in Hi as (g & -> & _).
Qed.


End GrowthComposition.

(** ** The cut of [top_n_manufacturers] *)

Section TopCut.
Import Processing.

Variable rd : string -> option Timestamp.
Variable srt : list Top.t -> list Top.t.
Hypothesis srt_perm : forall l, srt l ≡ₚ l.
Hypothesis srt_sorted : forall l, Sorted descending (srt l).

Lemma length_head {A} (n : Z) (l : list A) : length (head n l) = kept_by_head n (length l).
Proof.
  unfold head, kept_by_head. destruct (0 <=? n); rewrite length_take; lia.
Qed.

Lemma head_prefix {A} (n : Z) (l : list A) : exists k, head n l = take k l.
Proof. unfold head. destruct (0 <=? n); by eexists. Qed.

#[local] Instance descending_trans : Transitive descending.
Proof. intros a b c Hab Hbc. unfold descending in *. by eapply Qcle_trans. Qed.

(** The ranking of which [top_n_manufacturers] returns the head. *)
Lemma top_n_manufacturers_Ok (df_agg : frame Agg.t) (period : datetime_cell)
    (n : option Z) (p : option Timestamp) (out : frame Top.t) :
  has_column "manufacturer" df_agg = true ->
  to_datetime_scalar rd period = Ok p ->
  top_n_manufacturers rd srt df_agg period n = Ok out ->
  out = Frame top_columns
          (head (default 10 n)
             (srt ((fun g => Top.Make g.1 g.2)
                     <$> groupby_sum String.compare
                           ((fun r => (Agg.manufacturer r, Some (Agg.total r)))
                              <$> filter (at_period p) (rows df_agg))))).
Proof.
  intros Hm Hp. unfold top_n_manufacturers. rewrite Hm, orb_false_r.
  assert (Hnil : head (default 10 n)
                   (srt ((fun g => Top.Make g.1 g.2)
                           <$> groupby_sum String.compare
                                 ((fun r : Agg.t => (Agg.manufacturer r, Some (Agg.total r)))
                                    <$> []))) = []).
  { assert (Hs : srt [] = []) by apply Permutation_nil_r, srt_perm.
    change (groupby_sum String.compare _) with (@nil (string * Qc)).
    rewrite fmap_nil, Hs. unfold head. destruct (0 <=? default 10 n); apply take_nil. }
  destruct (empty df_agg) eqn:He.
  - intros [= <-]. f_equal.
    unfold empty in He. apply orb_true_iff in He as [He|He].
    + apply bool_decide_eq_true in He. unfold has_column in Hm.
      rewrite He in Hm. apply bool_decide_eq_true in Hm. by apply elem_of_nil in Hm.
    + apply bool_decide_eq_true, length_zero_iff_nil in He. rewrite He. by rewrite filter_nil, Hnil.
  - cbv iota. unfold require_columns at 1.
    destruct (has_column "period" df_agg); [|done]. cbn [bind Ok].
    rewrite Hp. cbn [bind Ok]. cbv beta zeta.
    erewrite (list_filter_iff _ (at_period p)); [|intros r; by rewrite bool_decide_eq_true].
    destruct (filter (at_period p) (rows df_agg)) as [|r0 sel'].
    + intros [= <-]. by rewrite Hnil.
    + unfold require_columns.
      destruct (has_column "total" df_agg); [|done]. cbn [bind Ok].
      by intros [= <-].
Qed.

(** X13. The cut of [top_n_manufacturers]: the result has as many rows as
    [head(n)] keeps of one row per manufacturer of the rows at the period,
    and a manufacturer at the period that is left out has a total that is
    at most the total of every row of the result. *)
Theorem top_n_manufacturers_cut (df_agg : frame Agg.t) (period : datetime_cell)
    (n : option Z) (p : option Timestamp) (out : frame Top.t) :
  has_column "manufacturer" df_agg = true ->
  to_datetime_scalar rd period = Ok p ->
  top_n_manufacturers rd srt df_agg period n = Ok out ->
  length (rows out)
  = kept_by_head (default 10 n) (length (manufacturers_at p (rows df_agg)))
  /\ forall m a,
       m ∈ manufacturers_at p (rows df_agg) ->
       m ∉ Top.manufacturer <$> rows out ->
       a ∈ rows out ->
       (total_at p m (rows df_agg) <= Top.total a)%Qc.
Proof.
  intros Hm Hp Hout.
  rewrite (top_n_manufacturers_Ok _ _ _ _ _ Hm Hp Hout). cbn [rows].
  set (sel := filter (at_period p) (rows df_agg)).
  set (kvs := (fun r => (Agg.manufacturer r, Some (Agg.total r))) <$> sel).
  set (ranked := srt ((fun g => Top.Make g.1 g.2) <$> groupby_sum String.compare kvs)).
  assert (Hkeys : omap fst kvs = omap Agg.manufacturer sel).
  { unfold kvs. clear. induction sel as [|r l IH]; [done|].
    rewrite fmap_cons. cbn [omap list_omap fst]. by rewrite IH. }
  split.
  - rewrite length_head. f_equal. unfold ranked.
    rewrite srt_perm, length_fmap. unfold groupby_sum.
    by rewrite length_fmap, sort_perm, Hkeys.
  - intros m a Hin Hout' Ha.
    destruct (head_prefix (default 10 n) ranked) as [k Hk]. rewrite Hk in Hout', Ha.
    assert (Hrk : Top.Make m (total_at p m (rows df_agg)) ∈ ranked).
    { unfold ranked. rewrite srt_perm. apply list_elem_of_fmap.
      exists (m, total_at p m (rows df_agg)). split; [done|].
      apply elem_of_groupby_sum. split.
      - apply elem_of_keys. rewrite Hkeys.
        unfold manufacturers_at in Hin. by rewrite elem_of_remove_dups in Hin.
      - symmetry. apply group_manufacturer. }
    rewrite <- (take_drop k ranked) in Hrk. apply elem_of_app in Hrk as [Hrk|Hrk].
    { exfalso. apply Hout'. apply list_elem_of_fmap.
      by exists (Top.Make m (total_at p m (rows df_agg))). }
    assert (Hs : StronglySorted descending (take k ranked ++ drop k ranked)).
    { rewrite take_drop. apply Sorted_StronglySorted; [apply descending_trans|]. apply srt_sorted. }
    apply (StronglySorted_app_1_elem_of _ _ _ _ _ Hs Ha Hrk).
Qed.

End TopCut.

(** ** The folder of [load_and_normalize] *)

Section FolderFacts.
Import DataLoader.

Variable to_numeric_str : string -> option Qc.
Variable to_datetime_str : string -> option Timestamp.

Lemma traverse_app {A B} (f : A -> result B) (l1 l2 : list A) :
  traverse f (l1 ++ l2)
  = let* a := traverse f l1 in let* b := traverse f l2 in Ok (a ++ b).
Proof.
  induction l1 as [|x l1 IH]; simpl.
  - by destruct (traverse f l2).
  - destruct (f x) as [e|y]; [done|]. simpl. rewrite IH.
    destruct (traverse f l1) as [e|a]; [done|]. simpl.
    by destruct (traverse f l2).
Qed.

Lemma traverse_Raise {A B} (f : A -> result B) (l : list A) (e : exn) :
  traverse f l = Raise e -> exists x, x ∈ l /\ f x = Raise e.
Proof.
  induction l as [|x l IH]; simpl; [done|].
  destruct (f x) as [e'|y] eqn:Hx; simpl.
  - intros [= ->]. exists x. split; [by left|done].
  - destruct (traverse f l) as [e'|ys]; [|done]. simpl. intros [= ->].
    destruct IH as (x' & Hin & Hx'); [done|]. exists x'. split; [by right|done].
Qed.

(** The exceptions of the body of the loop. *)
Lemma normalize_file_Raise (src : Source) (e : exn) :
  normalize_file to_numeric_str to_datetime_str src = Raise e ->
  e ∈ [KeyError "year"; TypeError; AttributeError; KeyError "manufacturer"].
Proof.
  unfold normalize_file. set (t := standardize src). rewrite !elem_of_cons.
  destruct (count_label "year" t) as [|[|n]]; cbn [bind Ok Raise];
    [intros [= <-]; tauto| |intros [= <-]; tauto].
  destruct (forallb _ (cells t)); cbn [bind Ok Raise]; [|intros [= <-]; tauto].
  destruct (has_label "registrations" t).
  - destruct (count_label "registrations" t) as [|[|n]]; cbn [bind Ok Raise];
      [intros [= <-]; tauto| |intros [= <-]; tauto].
    destruct (has_label "manufacturer" t); [done|intros [= <-]; tauto].
  - cbn [bind Ok Raise].
    destruct (has_label "manufacturer" t); [done|intros [= <-]; tauto].
Qed.

Lemma load_and_normalize_found (folder : list Source) (file : Source) :
  found folder !! 0%nat = Some file ->
  load_and_normalize to_numeric_str to_datetime_str folder
  = let* df_list := traverse (normalize_file to_numeric_str to_datetime_str) (found folder) in
    if forallb (fun src => bool_decide (file_columns src = file_columns file)) (found folder)
    then Ok (Frame (file_columns file) (concat df_list), [("granularity", "yearly")])
    else Raise InvalidIndexError.
Proof.
  unfold load_and_normalize. fold (found folder).
  destruct (found folder); [done|]. by intros [= ->].
Qed.

(** X14. [load_and_normalize] raises [FileNotFoundError] exactly when no
    file of the folder has a name that the pattern [maker *.csv] matches. *)
Theorem load_and_normalize_no_files (folder : list Source) :
  load_and_normalize to_numeric_str to_datetime_str folder = Raise FileNotFoundError
  <-> forall src, src ∈ folder -> glob_match (basename src) = false.
Proof.
  split.
  - intros Hload src Hin. destruct (glob_match (basename src)) eqn:Hg; [|done].
    assert (Hf : src ∈ found folder).
    { apply list_elem_of_filter. split; [by rewrite Hg|done]. }
    destruct (found folder !! 0%nat) as [file|] eqn:H0;
      [|destruct (found folder); [by apply elem_of_nil in Hf|done]].
    rewrite (load_and_normalize_found folder file H0) in Hload.
    destruct (traverse _ (found folder)) as [e|df_list] eqn:Ht;
      [|cbn [bind Ok] in Hload; by destruct (forallb _ _)].
    injection Hload as ->.
    apply traverse_Raise in Ht as (x & _ & Hx).
    apply normalize_file_Raise in Hx. rewrite !elem_of_cons, elem_of_nil in Hx.
    by destruct Hx as [|[|[|[|]]]].
  - intros Hnone. unfold load_and_normalize. fold (found folder).
    assert (found folder = []) as ->; [|done].
    apply elem_of_nil_inv. intros src Hin.
    apply list_elem_of_filter in Hin as [Hg Hin]. by rewrite (Hnone src Hin) in Hg.
Qed.

Lemma length_standardize (src : Source) : length (cells (standardize src)) = data_rows src.
Proof.
  destruct (standardize_year src) as [-> _]. unfold year_from_file, data_rows.
  destruct (year_from_name (basename src)) as [y|].
  - unfold assign_scalar. destruct (list_find _ _) as [[i l]|]; cbn [cells];
      rewrite length_fmap; unfold read_csv; cbn [cells]; by rewrite length_fmap.
  - unfold read_csv. cbn [cells]. by rewrite length_fmap.
Qed.

Lemma length_concat_records (files : list Source) (df_list : list (list Canonical.t)) :
  Forall2 (fun src rs => normalize_file to_numeric_str to_datetime_str src = Ok rs)
    files df_list ->
  length (concat df_list) = sum_list (data_rows <$> files).
Proof.
  induction 1 as [|src rs fs dfs Hrs _ IH]; [done|].
  rewrite fmap_cons. cbn [concat sum_list sum_list_with]. rewrite length_app.
  fold (sum_list (data_rows <$> fs)). rewrite <- IH. f_equal.
  apply normalize_file_Ok in Hrs as (_ & _ & ->).
  by rewrite length_fmap, length_standardize.
Qed.

(** X15. The canonical table has one row for each line that [read_csv]
    keeps of each file that the pattern finds: the lines with no more
    fields than the header and the index have, the index being the fields
    by which the first line is longer than the header.  Its columns are
    those of the first file, which are those of every file: period, year,
    vehicle_category, manufacturer once for each column of the file that
    carries this label, and registrations.  The granularity that comes
    with it is always yearly. *)
Theorem load_and_normalize_row_count (folder : list Source) (df : frame Canonical.t)
    (meta : list (string * string)) :
  load_and_normalize to_numeric_str to_datetime_str folder = Ok (df, meta) ->
  length (rows df) = sum_list (data_rows <$> found folder)
  /\ (exists file, found folder !! 0%nat = Some file /\ columns df = file_columns file)
  /\ Forall (fun src =>
       columns df
       = ["period"; "year"; "vehicle_category"]
         ++ replicate (count_label "manufacturer" (standardize src)) "manufacturer"
         ++ ["registrations"]) (found folder)
  /\ meta = [("granularity", "yearly")].
Proof.
  intros Hload.
  apply load_and_normalize_Ok in Hload as (file & df_list & H0 & Ht & Hcols & -> & ->).
  cbn [rows columns]. split; [by apply length_concat_records|].
  split; [by exists file|]. split; [|done].
  apply Forall_forall. intros src Hin. rewrite Forall_forall in Hcols.
  by rewrite <- (Hcols src Hin).
Qed.

(** X16. When the two parts of a folder load, the folder loads exactly
    when their tables have the same columns: its table is then the table
    of the first part followed by the table of the second, and otherwise
    [pd.concat] raises. *)
Theorem load_and_normalize_app (folder1 folder2 : list Source)
    (df1 df2 : frame Canonical.t) (meta1 meta2 : list (string * string)) :
  load_and_normalize to_numeric_str to_datetime_str folder1 = Ok (df1, meta1) ->
  load_and_normalize to_numeric_str to_datetime_str folder2 = Ok (df2, meta2) ->
  load_and_normalize to_numeric_str to_datetime_str (folder1 ++ folder2)
  = if bool_decide (columns df1 = columns df2)
    then Ok (Frame (columns df1) (rows df1 ++ rows df2), [("granularity", "yearly")])
    else Raise InvalidIndexError.
Proof.
  intros H1 H2.
  apply load_and_normalize_Ok in H1 as (f1 & l1 & Hf1 & Ht1 & Hc1 & -> & _).
  apply load_and_normalize_Ok in H2 as (f2 & l2 & Hf2 & Ht2 & Hc2 & -> & _).
  cbn [rows columns].
  assert (H0 : found (folder1 ++ folder2) !! 0%nat = Some f1).
  { unfold found in *. rewrite filter_app. by apply lookup_app_l_Some. }
  rewrite (load_and_normalize_found _ f1 H0).
  unfold found in *. rewrite filter_app. fold (found folder1) (found folder2) in *.
  rewrite traverse_app.
  rewrite (Forall2_traverse _ _ _ Ht1), (Forall2_traverse _ _ _ Ht2). cbn [bind Ok].
  rewrite concat_app, forallb_app.
  assert (forallb (fun src => bool_decide (file_columns src = file_columns f1))
            (found folder1) = true) as ->.
  { apply forallb_forall. intros src Hin. apply list_elem_of_In in Hin.
    rewrite Forall_forall in Hc1. by apply bool_decide_eq_true_2, Hc1. }
  cbn [andb].
  destruct (bool_decide (file_columns f1 = file_columns f2)) eqn:Heq.
  - apply bool_decide_eq_true_1 in Heq.
    assert (forallb (fun src => bool_decide (file_columns src = file_columns f1))
              (found folder2) = true) as ->; [|done].
    apply forallb_forall. intros src Hin. apply list_elem_of_In in Hin.
    rewrite Forall_forall in Hc2. apply bool_decide_eq_true_2.
    by rewrite (Hc2 src Hin).
  - apply bool_decide_eq_false_1 in Heq.
    assert (forallb (fun src => bool_decide (file_columns src = file_columns f1))
              (found folder2) = false) as ->; [|done].
    apply not_true_is_false. intros Hall. rewrite forallb_forall in Hall.
    apply list_elem_of_lookup_2, list_elem_of_In, Hall, bool_decide_eq_true_1 in Hf2.
    by apply Heq.
Qed.

Lemma map_category_closed (x : string) : Classifier.map_category x ∈ categories.
Proof.
  unfold Classifier.map_category, categories. cbv zeta. rewrite !elem_of_cons.
  repeat (destruct (_ || _); [tauto|]). tauto.
Qed.

Lemma integral_inject (q : Qc) : is_integral q = true -> q = Q2Qc (inject_Z (Qnum q)).
Proof.
  unfold is_integral. rewrite bool_decide_eq_true. intros Hd.
  apply Qc_is_canon. simpl. rewrite Qred_correct.
  destruct q as [[n d] Hc]. simpl in *. by rewrite Hd.
Qed.

Lemma normalize_file_integral (src : Source) (rs : list Canonical.t) (r : Canonical.t) :
  normalize_file to_numeric_str to_datetime_str src = Ok rs -> r ∈ rs ->
  from_option is_integral true (Canonical.year r) = true.
Proof.
  intros Hn Hr. pose proof Hn as Hn'. apply normalize_file_Ok in Hn' as (_ & _ & Hrs).
  revert Hn. unfold normalize_file. set (t := standardize src) in *.
  destruct (count_label "year" t) as [|[|n]]; [done| |done]. cbn [bind Ok].
  destruct (forallb _ (cells t)) eqn:Hall; [|done]. intros _.
  rewrite Hrs in Hr. apply list_elem_of_fmap in Hr as (line & -> & Hline).
  rewrite forallb_forall in Hall. apply list_elem_of_In in Hline.
  apply (Hall line Hline).
Qed.

(** X17. In the canonical table the vehicle_category of every row is one
    of 2W, 3W, 4W and OTHER; the year is missing or a whole number; and
    the period is what [pd.to_datetime] reads in the text of the year
    followed by -01-01, the text of a missing year being <NA>. *)
Theorem load_and_normalize_cells (folder : list Source) (df : frame Canonical.t)
    (meta : list (string * string)) (r : Canonical.t) :
  load_and_normalize to_numeric_str to_datetime_str folder = Ok (df, meta) ->
  r ∈ rows df ->
  Canonical.vehicle_category r ∈ ["2W"; "3W"; "4W"; "OTHER"]
  /\ match Canonical.year r with
     | Some q =>
         exists y : Z, q = Q2Qc (inject_Z y)
                       /\ Canonical.period r = to_datetime_str (year_start y)
     | None => Canonical.period r = to_datetime_str "<NA>-01-01"
     end.
Proof.
  intros Hload Hr.
  destruct (load_and_normalize_rows _ _ _ _ _ _ Hload Hr) as (src & rs & _ & _ & Hn & Hin).
  pose proof (normalize_file_integral _ _ _ Hn Hin) as Hint.
  apply normalize_file_Ok in Hn as (_ & _ & ->).
  apply list_elem_of_fmap in Hin as (line & -> & _).
  unfold record_of in *. cbn [Canonical.vehicle_category Canonical.year Canonical.period] in *.
  split.
  - unfold category_of. destruct (has_label _ _); [apply map_category_closed|].
    rewrite !elem_of_cons. tauto.
  - destruct (to_numeric _ _) as [q|]; [|done]. simpl in Hint.
    exists (Qnum q). split; [by apply integral_inject|done].
Qed.

End FolderFacts.

(** ** The year of a file name *)

Section NameFacts.
Import DataLoader.

Lemma append_cons (c : ascii) (s r : string) : String c s +:+ r = String c (s +:+ r).
Proof. reflexivity. Qed.

Lemma append_nil (r : string) : "" +:+ r = r.
Proof. reflexivity. Qed.

Lemma substring_split (n : nat) (s : string) :
  String.length (String.substring 0 n s) = n ->
  exists r, s = String.substring 0 n s +:+ r
            /\ forall k, String.substring n k s = String.substring 0 k r.
Proof.
  revert s. induction n as [|n IH]; intros s Hlen.
  - exists s. split; [by destruct s|done].
  - destruct s as [|c s]; [done|]. simpl in Hlen. injection Hlen as Hlen.
    destruct (IH s Hlen) as (r & Hs & Hk). exists r. split.
    + cbn [String.substring]. rewrite append_cons. f_equal. exact Hs.
    + intros k. simpl. apply Hk.
Qed.

Lemma substring_prefix (m r : string) :
  String.substring 0 (String.length m) (m +:+ r) = m
  /\ forall k, String.substring (String.length m) k (m +:+ r) = String.substring 0 k r.
Proof.
  induction m as [|c m [IH1 IH2]].
  - rewrite append_nil. split; [by destruct r|done].
  - rewrite append_cons. cbn [String.length String.substring]. split; [by rewrite IH1|done].
Qed.

Lemma length_lower (s : string) : String.length (PyStr.lower s) = String.length s.
Proof. induction s as [|c s IH]; simpl; congruence. Qed.

Lemma maker_year_lengths (m d : string) :
  maker_year m d -> String.length m = 6%nat /\ String.length d = 4%nat.
Proof.
  intros (Hm & Hd & _). split; [|done]. by rewrite <- length_lower, Hm.
Qed.

(** The pattern at the start of a text. *)
Lemma match_maker_year_Some (s : string) (y : Z) :
  match_maker_year s = Some y
  <-> exists m d post, s = m +:+ d +:+ post /\ maker_year m d /\ y = int_of_digits d.
Proof.
  unfold match_maker_year. cbv zeta. split.
  - destruct (bool_decide_reflect (PyStr.lower (String.substring 0 6 s) = "maker ")) as [Hm|];
      [|done].
    destruct (bool_decide_reflect (String.length (String.substring 6 4 s) = 4%nat)) as [Hd|];
      [|done].
    destruct (forallb _ _) eqn:Hdigits; [|done]. cbn [andb]. intros [= <-].
    assert (Hlen : String.length (String.substring 0 6 s) = 6%nat).
    { by rewrite <- length_lower, Hm. }
    destruct (substring_split 6 s Hlen) as (r & Hs & Hr).
    rewrite Hr in Hd, Hdigits |- *.
    destruct (substring_split 4 r Hd) as (post & Hpost & _).
    exists (String.substring 0 6 s), (String.substring 0 4 r), post.
    split; [by rewrite <- Hpost|]. by repeat split.
  - intros (m & d & post & -> & Hmd & ->).
    destruct (maker_year_lengths m d Hmd) as [Lm Ld]. destruct Hmd as (Hm & _ & Hdigits).
    destruct (substring_prefix m (d +:+ post)) as [S1 S2]. rewrite Lm in S1, S2.
    destruct (substring_prefix d post) as [S3 _]. rewrite Ld in S3.
    rewrite S1, S2, S3, Hm, Ld, Hdigits. done.
Qed.

Lemma is_digit_value (c : ascii) : PyStr.is_digit c = true -> 0 <= PyStr.digit_value c <= 9.
Proof.
  unfold PyStr.is_digit, PyStr.digit_value. cbv zeta.
  rewrite andb_true_iff, !N.leb_le. lia.
Qed.

Lemma four_digits_bounds (d : string) :
  String.length d = 4%nat -> forallb PyStr.is_digit (list_ascii_of_string d) = true ->
  0 <= int_of_digits d <= 9999.
Proof.
  destruct d as [|a [|b [|c [|e [|]]]]]; try done. intros _. simpl.
  rewrite !andb_true_iff. intros (Ha & Hb & Hc & He & _).
  apply is_digit_value in Ha, Hb, Hc, He. unfold int_of_digits. simpl. lia.
Qed.

(** X18. The year of a file name.  [year_from_name] finds a year exactly
    in the names in which the word maker in any case, a blank and four
    digits follow each other; the year is the number that four such digits
    write, from 0 to 9999, and it is the one of the leftmost place where
    they occur; and a file named maker, a blank, four digits and .csv is
    one that the pattern of the folder finds. *)
Theorem year_from_name_search (s : string) :
  (forall y, year_from_name s = Some y ->
     exists pre m d post,
       s = pre +:+ m +:+ d +:+ post /\ maker_year m d
       /\ y = int_of_digits d /\ 0 <= y <= 9999)
  /\ (forall pre m d post,
        s = pre +:+ m +:+ d +:+ post -> maker_year m d -> is_Some (year_from_name s))
  /\ (forall m d post,
        s = m +:+ d +:+ post -> maker_year m d ->
        year_from_name s = Some (int_of_digits d))
  /\ (forall d,
        s = "maker " +:+ d +:+ ".csv" -> maker_year "maker " d ->
        glob_match s = true).
Proof.
  split; [|split; [|split]].
  - induction s as [|c s IH]; intros y.
    + intros Hy. discriminate Hy.
    + simpl. destruct (match_maker_year (String c s)) eqn:Hm.
      * intros [= <-].
        apply match_maker_year_Some in Hm as (m & d & post & Hs & Hmd & ->).
        exists "", m, d, post. split; [done|]. split; [done|]. split; [done|].
        destruct Hmd as (_ & Hd & Hdig). by apply four_digits_bounds.
      * intros Hy. destruct (IH y Hy) as (pre & m & d & post & -> & Hmd & Hyd & Hb).
        exists (String c pre), m, d, post. by rewrite append_cons.
  - intros pre m d post -> Hmd. induction pre as [|c pre IH].
    + rewrite append_nil. assert (Hm : match_maker_year (m +:+ d +:+ post) = Some (int_of_digits d)).
      { apply match_maker_year_Some. by exists m, d, post. }
      apply is_Some_alt. destruct (m +:+ d +:+ post); cbn [year_from_name]; by rewrite Hm.
    + rewrite append_cons. cbn [year_from_name].
      destruct (match_maker_year _); [done|apply IH].
  - intros m d post -> Hmd.
    assert (Hm : match_maker_year (m +:+ d +:+ post) = Some (int_of_digits d)).
    { apply match_maker_year_Some. by exists m, d, post. }
    destruct (m +:+ d +:+ post); cbn [year_from_name]; by rewrite Hm.
  - intros d -> (_ & Hlen & _).
    destruct d as [|a [|b [|c [|e [|]]]]]; try done.
Qed.

End NameFacts.

(** ** [add_time_period_columns] *)

Section TimeColumnFacts.
Import Processing TimeColumns.

Variable rd : string -> option Timestamp.

Lemma to_datetime_parsed (c : datetime_cell) :
  to_datetime rd (from_option Stamp NaT (to_datetime rd c)) = to_datetime rd c.
Proof. by destruct (to_datetime rd c). Qed.

Lemma has_column_with_column {R} (l label : string) (cols : list string) (rs rs' : list R) :
  l <> label ->
  has_column l (Frame (with_column label cols) rs) = has_column l (Frame cols rs').
Proof.
  intros Hne. unfold has_column. cbn [columns]. apply bool_decide_ext.
  rewrite elem_of_with_column. split; [by intros [|]|by right].
Qed.

Lemma with_column_nonempty (label : string) (cols : list string) :
  with_column label cols <> [].
Proof.
  intros Hnil. assert (Hin : label ∈ with_column label cols).
  { apply elem_of_with_column. by left. }
  rewrite Hnil in Hin. by apply elem_of_nil in Hin.
Qed.

(** X21. The helper columns do not change what [aggregate] computes: the
    table with the columns of [add_time_period_columns] aggregates to what
    the table itself aggregates to, at every frequency. *)
Theorem add_time_period_columns_aggregate (df : frame Timed.t) (freq : string) :
  aggregate rd (facts (add_time_period_columns rd df)) freq = aggregate rd (facts df) freq.
Proof.
  unfold add_time_period_columns.
  destruct (empty df || negb (has_column "period" df)) eqn:Hg; [done|].
  apply orb_false_iff in Hg as [He Hp]. apply negb_false_iff in Hp.
  unfold aggregate, facts. cbn [columns rows].
  assert (Hempty : forall cols (f : Timed.t -> Fact.t),
            cols <> [] -> empty (Frame cols (f <$> rows df)) = false).
  { intros cols f Hc. unfold empty in *. cbn [columns rows].
    apply orb_false_iff in He as [_ He]. rewrite length_fmap.
    by rewrite bool_decide_eq_false_2, He. }
  rewrite <- list_fmap_compose.
  rewrite !Hempty; [|by destruct df as [[|] ?]|apply with_column_nonempty].
  assert (Hcol : forall l rs rs', l ∉ ["year"; "month"; "quarter"] ->
            has_column (R:=Fact.t) l
              (Frame (with_column "quarter" (with_column "month" (with_column "year" (columns df)))) rs)
            = has_column (R:=Fact.t) l (Frame (columns df) rs')).
  { intros l rs rs' Hl. rewrite !elem_of_cons, elem_of_nil in Hl.
    rewrite (has_column_with_column l "quarter" _ rs rs) by tauto.
    rewrite (has_column_with_column l "month" _ rs rs) by tauto.
    apply has_column_with_column. tauto. }
  unfold require_columns.
  rewrite !(Hcol _ _ (Timed.fact <$> rows df)) by (rewrite !elem_of_cons, elem_of_nil; intros H; decompose [or] H; done).
  destruct (has_column "registrations" _); [|done]. cbn [orb negb].
  destruct (has_column "period" _); [|done]. cbn [bind Ok].
  destruct (period_floor freq) as [e|floor]; [done|]. cbn [bind Ok].
  destruct (has_column "vehicle_category" _); [|done].
  destruct (has_column "manufacturer" _); [|done]. cbn [bind Ok].
  do 4 f_equal. apply (f_equal (groupby_sum cmp_key)).
  rewrite <- !list_fmap_compose. apply list_fmap_ext. intros i r _.
  cbn. unfold fact_key. cbn. by rewrite to_datetime_parsed.
Qed.

(** X22. [add_time_period_columns] is idempotent, it keeps the number of
    rows, and it returns an empty table or one without a period column
    unchanged. *)
Theorem add_time_period_columns_idempotent (df : frame Timed.t) :
  add_time_period_columns rd (add_time_period_columns rd df) = add_time_period_columns rd df
  /\ length (rows (add_time_period_columns rd df)) = length (rows df)
  /\ (empty df || negb (has_column "period" df) = true ->
      add_time_period_columns rd df = df).
Proof.
  destruct (empty df || negb (has_column "period" df)) eqn:Hg.
  { unfold add_time_period_columns. by rewrite !Hg. }
  destruct (add_time_period_columns rd df) as [cols' rows'] eqn:Hadd.
  unfold add_time_period_columns in Hadd. rewrite Hg in Hadd.
  injection Hadd as Hc Hr.
  apply orb_false_iff in Hg as [He Hp]. apply negb_false_iff in Hp.
  assert (Hlen : length rows' = length (rows df)) by (by rewrite <- Hr, length_fmap).
  split; [|done].
  assert (He' : empty (Frame cols' rows') = false).
  { unfold empty in *. cbn [columns rows]. apply orb_false_iff in He as [_ He].
    rewrite Hlen, He, orb_false_r, <- Hc. apply bool_decide_eq_false, with_column_nonempty. }
  assert (Hp' : has_column "period" (Frame cols' rows') = true).
  { unfold has_column in *. cbn [columns]. apply bool_decide_eq_true in Hp.
    apply bool_decide_eq_true. rewrite <- Hc, !elem_of_with_column. tauto. }
  unfold add_time_period_columns. rewrite He', Hp'. cbn [orb negb columns rows]. f_equal.
  - rewrite <- Hc.
    rewrite (with_column_present "year") by (rewrite !elem_of_with_column; tauto).
    rewrite (with_column_present "month") by (rewrite !elem_of_with_column; tauto).
    by rewrite (with_column_present "quarter") by (rewrite !elem_of_with_column; tauto).
  - rewrite <- Hr at 2. rewrite <- Hr, <- list_fmap_compose. apply list_fmap_ext. intros i r _.
    cbn. rewrite to_datetime_parsed. done.
Qed.

End TimeColumnFacts.

(** ** The chart and the indicators of the dashboard *)

Section ChartFacts.
Import Processing Plots.

Variable rd : string -> option Timestamp.
Variable srt : list Top.t -> list Top.t.
Hypothesis srt_perm : forall l, srt l ≡ₚ l.
Hypothesis srt_sorted : forall l, Sorted descending (srt l).

(** X23. The bar chart of the dashboard draws the table of
    [top_n_manufacturers]: on the manufacturer and total columns of the
    rows at a period that the table has, [plot_top_manufacturers] draws
    the rows that [top_n_manufacturers] returns for the table and that
    period. *)
Theorem plot_top_manufacturers_table (df_agg : frame Agg.t) (t : Timestamp)
    (n : option Z) (out : frame Top.t) :
  has_column "manufacturer" df_agg = true ->
  filter (at_period (Some t)) (rows df_agg) <> [] ->
  top_n_manufacturers rd srt df_agg (Stamp t) n = Ok out ->
  plot_top_manufacturers srt
    (Frame ["manufacturer"; "total"] (filter (at_period (Some t)) (rows df_agg))) n
  = Chart (rows out).
Proof.
  intros Hm Hsel Hout.
  rewrite (top_n_manufacturers_Ok rd srt srt_perm df_agg (Stamp t) n (Some t) out Hm eq_refl Hout).
  unfold plot_top_manufacturers, _validate_df, empty. cbn [columns rows].
  destruct (filter (at_period (Some t)) (rows df_agg)) as [|r0 sel]; done.
Qed.

End ChartFacts.

Section IndicatorFacts.
Import Processing App Utils.

Lemma change_pct (x d : Qc) : change x d = pct x d.
Proof. done. Qed.

Lemma prev_change_finite (series : list (Timestamp * Qc)) (x : float) :
  prev_change series = Some x -> exists q, x = Finite q.
Proof.
  unfold prev_change.
  destruct (last series) as [l|]; [|done].
  destruct (series !! _) as [prev|]; [|done].
  case_bool_decide as Hz; [|done]. intros [= <-].
  rewrite change_pct, pct_nonzero by done. by eexists.
Qed.

Lemma safe_pct_not_available (format_2f : Qc -> string) (x : option float) :
  safe_pct format_2f x = "N/A" <-> x = None \/ x = Some NaN.
Proof.
  split; [|by intros [->| ->]].
  destruct x as [[q| | |]|]; cbn [safe_pct]; try (by auto); try done.
  intros Heq. exfalso. revert Heq.
  destruct (format_2f q) as [|a [|b [|c s]]];
    rewrite ?append_cons, ?append_nil; try discriminate.
  intros [= _ _ _ Hs]. destruct s; rewrite ?append_cons, ?append_nil in Hs; discriminate.
Qed.

(** X24. The two indicators away from the monthly frequency.  The QoQ /
    PoP indicator, and the YoY indicator at a frequency other than "M",
    are never infinite and never NaN: each is absent or a finite number,
    so that [safe_pct] shows N/A exactly when the indicator is absent. *)
Theorem indicators_finite (format_2f : Qc -> string) (freq : string)
    (agg_growth : list Agg.t) (agg_q : option (frame Agg.t)) :
  freq <> "M" ->
  (forall x, yoy_pct freq agg_growth = Some x -> exists q, x = Finite q)
  /\ (forall x, qoq_pct agg_growth agg_q = Some x -> exists q, x = Finite q)
  /\ (safe_pct format_2f (yoy_pct freq agg_growth) = "N/A"
      <-> yoy_pct freq agg_growth = None)
  /\ (safe_pct format_2f (qoq_pct agg_growth agg_q) = "N/A"
      <-> qoq_pct agg_growth agg_q = None).
Proof.
  intros Hf.
  assert (Hy : forall x, yoy_pct freq agg_growth = Some x -> exists q, x = Finite q).
  { intros x. unfold yoy_pct. cbv zeta. destruct (2 <=? _)%nat; [|done].
    rewrite bool_decide_eq_false_2 by done. apply prev_change_finite. }
  assert (Hq : forall x, qoq_pct agg_growth agg_q = Some x -> exists q, x = Finite q).
  { intros x. unfold qoq_pct, last_change.
    destruct agg_q as [q|]; [destruct (negb (empty q))|];
      (destruct (2 <=? _)%nat; [apply prev_change_finite|done]). }
  split; [done|]. split; [done|].
  split; rewrite safe_pct_not_available; (split; [|by left]); (intros [H|H]; [done|]).
  - by destruct (Hy _ H).
  - by destruct (Hq _ H).
Qed.

End IndicatorFacts.

(** ** The latest period *)

Section LatestFacts.
Import Processing App.

Lemma le_cmp (A : Type) (cmp : A -> A -> comparison) (x y : A) :
  le cmp x y <-> cmp x y <> Gt.
Proof. unfold le, leb. by destruct (cmp x y). Qed.

Lemma le_same {A} (cmp : A -> A -> comparison) `{!Order cmp} (x : A) : le cmp x x.
Proof. unfold le, leb. by rewrite (proj2 (cmp_eq x x) eq_refl). Qed.

Lemma latest_period_Some (l : list Agg.t) (m : Timestamp) :
  latest_period l = Some m ->
  (exists r, r ∈ l /\ Agg.period r = Some m)
  /\ forall r t, r ∈ l -> Agg.period r = Some t -> le cmp_timestamp t m.
Proof.
  revert m. induction l as [|r l IH]; intros m; [done|].
  cbn [latest_period foldr]. fold (latest_period l).
  destruct (Agg.period r) as [t|] eqn:Hr.
  - destruct (latest_period l) as [a|] eqn:Hl.
    + destruct (IH a eq_refl) as [(r' & Hin & Hr') Hmax].
      destruct (cmp_timestamp a t) eqn:Hc; intros [= <-].
      * apply (cmp_eq (cmp:=cmp_timestamp)) in Hc as ->. split.
        -- exists r'. split; [by right|done].
        -- intros r0 t0 [->|Hin0]%elem_of_cons Hr0; [|by eapply Hmax].
           rewrite Hr in Hr0. injection Hr0 as <-. apply le_same, _.
      * split; [exists r; split; [by left|done]|].
        intros r0 t0 [->|Hin0]%elem_of_cons Hr0.
        -- rewrite Hr in Hr0. injection Hr0 as <-. apply le_same, _.
        -- apply (le_trans cmp_timestamp _ a); [by eapply Hmax|].
           apply le_cmp. by rewrite Hc.
      * split; [exists r'; split; [by right|done]|].
        intros r0 t0 [->|Hin0]%elem_of_cons Hr0; [|by eapply Hmax].
        rewrite Hr in Hr0. injection Hr0 as <-. apply le_cmp.
        by rewrite (cmp_antisym (cmp:=cmp_timestamp) a t), Hc.
    + intros [= <-]. split; [exists r; split; [by left|done]|].
      intros r0 t0 [->|Hin0]%elem_of_cons Hr0.
      * rewrite Hr in Hr0. injection Hr0 as <-. apply le_same, _.
      * exfalso. clear IH. induction l as [|r1 l IH']; [by apply elem_of_nil in Hin0|].
        cbn [latest_period foldr] in Hl. fold (latest_period l) in Hl.
        apply elem_of_cons in Hin0 as [->|Hin0].
        -- rewrite Hr0 in Hl. by destruct (latest_period l).
        -- apply IH'; [|done]. destruct (Agg.period r1); [|done]. by destruct (latest_period l).
  - intros Hm. destruct (IH m Hm) as [(r' & Hin & Hr') Hmax]. split.
    + exists r'. split; [by right|done].
    + intros r0 t0 [->|Hin0]%elem_of_cons Hr0; [congruence|by eapply Hmax].
Qed.

Lemma Sorted_fmap_inv {A B} (R : B -> B -> Prop) (f : A -> B) (l : list A) :
  Sorted R (f <$> l) -> Sorted (fun a b => R (f a) (f b)) l.
Proof.
  induction l as [|x l IH]; [constructor|].
  rewrite fmap_cons. intros Hs. apply Sorted_inv in Hs as [Hs Hh].
  constructor; [by apply IH|]. destruct l as [|y l]; [constructor|].
  rewrite fmap_cons in Hh. apply HdRel_inv in Hh. by constructor.
Qed.

(** The series of the indicators: one row for each period, in ascending
    period. *)
Lemma agg_ts_groups (l : list Agg.t) :
  agg_ts l
  = groupby_sum cmp_timestamp ((fun r => (Agg.period r, Some (Agg.total r))) <$> l).
Proof.
  unfold agg_ts. apply sort_sorted_id.
  apply (Sorted_fmap_inv (le cmp_timestamp) fst).
  rewrite groupby_sum_keys. apply sort_Sorted. apply _.
Qed.

Lemma elem_of_period_keys (l : list Agg.t) (p : Timestamp) :
  p ∈ (agg_ts l).*1 <-> exists r, r ∈ l /\ Agg.period r = Some p.
Proof.
  rewrite agg_ts_groups, groupby_sum_keys, sort_perm, elem_of_remove_dups, elem_of_keys.
  split.
  - intros (v & Hin). apply list_elem_of_fmap in Hin as (r & [= ? ?] & Hin). by exists r.
  - intros (r & Hin & Hr). exists (Some (Agg.total r)). apply list_elem_of_fmap.
    exists r. by rewrite Hr.
Qed.


(** X26. Away from the monthly frequency, [compute_growth] returns no
    quarterly table, and the YoY indicator and the QoQ / PoP indicator of
    the dashboard are one and the same. *)
Theorem yoy_is_qoq (agg : frame Agg.t) (freq : string) (out : frame Agg.t)
    (q : option (frame Agg.t)) :
  freq <> "M" ->
  compute_growth agg freq = Ok (out, q) ->
  q = None /\ yoy_pct freq (rows out) = qoq_pct (rows out) q.
Proof.
  intros Hf Hcg.
  assert (Hq : q = None).
  { revert Hcg. unfold compute_growth.
    destruct (_ || _); [by intros [= _ <-]|].
    destruct (require_columns _ agg); [done|]. cbn [bind Ok].
    rewrite bool_decide_eq_false_2 by done.
    destruct (bool_decide (freq = "Q")); [by intros [= _ <-]|].
    destruct (bool_decide (freq = "Y")); [by intros [= _ <-]|done]. }
  split; [done|]. rewrite Hq. unfold yoy_pct, qoq_pct, last_change. cbv zeta.
  by rewrite bool_decide_eq_false_2 by done.
Qed.

Section Frequency.
Import DataLoader.

Variable to_numeric_str : string -> option Qc.
Variable to_datetime_str : string -> option Timestamp.

(** X27. The dashboard always aggregates at the yearly frequency: the
    granularity that [load_and_normalize] reports is yearly, whatever the
    files hold. *)
Theorem dashboard_frequency (folder : list Source) (df : frame Canonical.t)
    (meta : list (string * string)) :
  load_and_normalize to_numeric_str to_datetime_str folder = Ok (df, meta) ->
  freq meta = "Y".
Proof.
  unfold load_and_normalize. destruct (filter _ folder); [done|].
  destruct (traverse _ _); [done|]. cbn [bind Ok].
  destruct (forallb _ _); [|done]. by intros [= _ <-].
Qed.

End Frequency.
End LatestFacts.

(** ** More evaluations *)

Section MoreEvaluations.
Import Processing DataLoader TimeColumns Plots App Utils.

Ltac evaluated :=
  vm_compute; repeat first [reflexivity | apply Qc_is_canon; reflexivity | f_equal].

Lemma aggregate_sorted_keys_witness :
  columns sample_yearly = ["period"; "vehicle_category"; "manufacturer"; "total"]
  /\ StronglySorted ascending (rows sample_yearly)
  /\ Forall (fun r => is_Some (Agg.period r) /\ is_Some (Agg.vehicle_category r)
                      /\ is_Some (Agg.manufacturer r)) (rows sample_yearly).
Proof.
  apply (aggregate_sorted_keys iso_date sample_facts "Y" sample_yearly).
  vm_compute; reflexivity.
Defined.

Lemma aggregate_groups_witness :
  agg_row 2021 "2W" "Acme" 1050 ∈ rows sample_yearly
  <-> exists k,
        (exists r0, r0 ∈ rows sample_facts /\ in_bucket iso_date floor_year k r0)
        /\ agg_row 2021 "2W" "Acme" 1050
           = row_of_group
               (k, sum_skipna (Fact.registrations
                                 <$> filter (in_bucket iso_date floor_year k)
                                       (rows sample_facts))).
Proof.
  apply (aggregate_groups iso_date sample_facts "Y" floor_year sample_yearly).
  - reflexivity.
  - reflexivity.
  - vm_compute; reflexivity.
Defined.

Lemma aggregate_row_order_witness :
  aggregate64 iso_date sample_facts "Y"
  = aggregate64 iso_date (Frame fact_columns (reverse (rows sample_facts))) "Y".
Proof.
  apply (aggregate_row_order iso_date sample_facts
           (Frame fact_columns (reverse (rows sample_facts))) "Y").
  - reflexivity.
  - symmetry. apply reverse_Permutation.
  - split; [vm_compute; repeat constructor | vm_compute; discriminate].
Defined.

Lemma aggregate_coarsen_witness :
  aggregate64 iso_date (as_registrations sample_monthly) "Y"
  = aggregate64 iso_date sample_facts "Y".
Proof.
  apply (aggregate_coarsen iso_date sample_facts "M" "Y" sample_monthly).
  - unfold refines. repeat constructor.
  - split; [vm_compute; repeat constructor | vm_compute; discriminate].
  - evaluated.
Defined.

Lemma aggregate_of_aggregated_is_empty_witness :
  aggregate iso_date (as_facts sample_yearly) "Y" = Ok (Frame agg_columns []).
Proof.
  apply (aggregate_of_aggregated_is_empty iso_date sample_facts "Y" "Y" sample_yearly).
  vm_compute; reflexivity.
Defined.

Lemma compute_growth_keeps_rows_witness :
  clear_growth <$> rows zero_base_growth = clear_growth <$> sort cmp_row (rows zero_base)
  /\ forall l, l ∈ columns zero_base_growth
               <-> l ∈ ["yoy_pct"; "qoq_pct"; "pop_pct"] \/ l ∈ columns zero_base.
Proof.
  apply (compute_growth_keeps_rows zero_base "Y" zero_base_growth None).
  - reflexivity.
  - reflexivity.
  - vm_compute; reflexivity.
Defined.

Lemma compute_growth_idempotent_witness :
  compute_growth zero_base_growth "Y" = Ok (zero_base_growth, None).
Proof.
  apply (compute_growth_idempotent zero_base "Y" zero_base_growth None).
  vm_compute; reflexivity.
Defined.

Lemma compute_growth_missing_key_witness :
  Agg.yoy_pct no_category = NaN /\ Agg.qoq_pct no_category = NaN
  /\ Agg.pop_pct no_category = NaN.
Proof.
  apply (compute_growth_missing_key unkeyed "Q" unkeyed_growth None no_category).
  - reflexivity.
  - reflexivity.
  - vm_compute; reflexivity.
  - right. left.
  - reflexivity.
Defined.


Lemma compute_growth_cells_witness :
  cells_at "Y" (sub_series ("2W", "Acme") (rows zero_base_growth)) 1
    (Agg.with_growth (agg_row 2022 "2W" "Acme" 5) PosInf NaN PosInf).
Proof.
  apply (compute_growth_cells zero_base "Y" zero_base_growth None ("2W", "Acme") 1).
  - reflexivity.
  - reflexivity.
  - vm_compute; reflexivity.
  - reflexivity.
Defined.

Lemma sub_series_ordered_witness :
  StronglySorted by_period (sub_series ("2W", "Acme") (rows zero_base_growth)).
Proof.
  apply (sub_series_ordered zero_base "Y" zero_base_growth None ("2W", "Acme")).
  - reflexivity.
  - reflexivity.
  - vm_compute; reflexivity.
Defined.

Lemma top_n_manufacturers_cut_witness :
  length [Top.Make "Acme" (Q2Qc 5)]
  = kept_by_head 1 (length (manufacturers_at (Some (jan1 2021)) (rows tied)))
  /\ forall m a,
       m ∈ manufacturers_at (Some (jan1 2021)) (rows tied) ->
       m ∉ Top.manufacturer <$> [Top.Make "Acme" (Q2Qc 5)] ->
       a ∈ [Top.Make "Acme" (Q2Qc 5)] ->
       (total_at (Some (jan1 2021)) m (rows tied) <= Top.total a)%Qc.
Proof.
  apply (top_n_manufacturers_cut iso_date sort_desc_stable sort_desc_stable_perm
           sort_desc_stable_sorted tied (Stamp (jan1 2021)) (Some 1) (Some (jan1 2021))
           (Frame top_columns [Top.Make "Acme" (Q2Qc 5)])).
  - reflexivity.
  - reflexivity.
  - vm_compute; reflexivity.
Defined.

Lemma plot_top_manufacturers_table_witness :
  plot_top_manufacturers sort_desc_stable
    (Frame ["manufacturer"; "total"] (filter (at_period (Some (jan1 2021))) (rows tied)))
    (Some 1)
  = Chart [Top.Make "Acme" (Q2Qc 5)].
Proof.
  apply (plot_top_manufacturers_table iso_date sort_desc_stable sort_desc_stable_perm
           tied (jan1 2021) (Some 1) (Frame top_columns [Top.Make "Acme" (Q2Qc 5)])).
  - reflexivity.
  - vm_compute. discriminate.
  - vm_compute; reflexivity.
Defined.

Lemma load_and_normalize_no_files_witness :
  load_and_normalize decimal_literal iso_date [MkSource "notes.csv" ["Maker"] [[Some "Acme"]] eq_refl]
  = Raise FileNotFoundError.
Proof.
  apply (load_and_normalize_no_files decimal_literal iso_date
           [MkSource "notes.csv" ["Maker"] [[Some "Acme"]] eq_refl]).
  intros src Hin. apply list_elem_of_singleton in Hin. rewrite Hin. reflexivity.
Defined.

Lemma load_maker_2021 :
  load_and_normalize decimal_literal iso_date [maker_2021]
  = Ok (Frame canonical_columns [maker_2021_record], yearly).
Proof. vm_compute; reflexivity. Qed.

Lemma load_and_normalize_row_count_witness :
  length (rows maker_2024_table) = sum_list (data_rows <$> found [maker_2024])
  /\ (exists file, found [maker_2024] !! 0%nat = Some file
                   /\ columns maker_2024_table = file_columns file)
  /\ Forall (fun src =>
       columns maker_2024_table
       = ["period"; "year"; "vehicle_category"]
         ++ replicate (count_label "manufacturer" (standardize src)) "manufacturer"
         ++ ["registrations"]) (found [maker_2024])
  /\ yearly = [("granularity", "yearly")].
Proof.
  apply (load_and_normalize_row_count decimal_literal iso_date [maker_2024]).
  vm_compute; reflexivity.
Defined.

Lemma load_and_normalize_app_witness :
  load_and_normalize decimal_literal iso_date ([maker_2021] ++ [maker_2022])
  = Ok (Frame canonical_columns
          (rows (Frame canonical_columns [maker_2021_record])
           ++ rows (Frame canonical_columns [maker_2022_record])),
        [("granularity", "yearly")]).
Proof.
  apply (load_and_normalize_app decimal_literal iso_date [maker_2021] [maker_2022]
           (Frame canonical_columns [maker_2021_record])
           (Frame canonical_columns [maker_2022_record]) yearly yearly).
  - vm_compute; reflexivity.
  - vm_compute; reflexivity.
Defined.

Lemma load_and_normalize_cells_witness :
  Canonical.vehicle_category maker_2022_record ∈ ["2W"; "3W"; "4W"; "OTHER"]
  /\ match Canonical.year maker_2022_record with
     | Some q =>
         exists y : Z, q = Q2Qc (inject_Z y)
                       /\ Canonical.period maker_2022_record = iso_date (year_start y)
     | None => Canonical.period maker_2022_record = iso_date "<NA>-01-01"
     end.
Proof.
  apply (load_and_normalize_cells decimal_literal iso_date [maker_2022]
           (Frame canonical_columns [maker_2022_record]) yearly maker_2022_record).
  - vm_compute; reflexivity.
  - left.
Defined.

Lemma year_from_name_search_witness :
  year_from_name "maker 2021.csv" = Some (int_of_digits "2021")
  /\ glob_match "maker 2021.csv" = true.
Proof.
  destruct (year_from_name_search "maker 2021.csv") as (_ & _ & H3 & H4). split.
  - apply (H3 "maker " "2021" ".csv"); [reflexivity|]. by repeat split.
  - apply (H4 "2021"); [reflexivity|]. by repeat split.
Defined.

Lemma year_of_name_overrides_witness :
  Canonical.year maker_2021_record = Some (Q2Qc (inject_Z 2021)).
Proof.
  apply (year_of_name_overrides decimal_literal iso_date maker_2021 2021 [maker_2021_record]).
  - reflexivity.
  - vm_compute; reflexivity.
  - left.
Defined.

Lemma year_missing_raises_witness :
  normalize_file decimal_literal iso_date maker_data = Raise (KeyError "year").
Proof.
  apply (year_missing_raises decimal_literal iso_date maker_data).
  - reflexivity.
  - intros l Hl. cbn in Hl. rewrite !elem_of_cons, elem_of_nil in Hl.
    destruct Hl as [->|[->|[]]]; vm_compute; discriminate.
Defined.

Lemma indicators_finite_witness :
  (forall x, yoy_pct "Y" (rows sample_yearly) = Some x -> exists q, x = Finite q)
  /\ (forall x, qoq_pct (rows sample_yearly) None = Some x -> exists q, x = Finite q)
  /\ (safe_pct (fun q => pretty (Qnum q)) (yoy_pct "Y" (rows sample_yearly)) = "N/A"
      <-> yoy_pct "Y" (rows sample_yearly) = None)
  /\ (safe_pct (fun q => pretty (Qnum q)) (qoq_pct (rows sample_yearly) None) = "N/A"
      <-> qoq_pct (rows sample_yearly) None = None).
Proof.
  apply (indicators_finite (fun q => pretty (Qnum q)) "Y" (rows sample_yearly) None).
  discriminate.
Defined.

Lemma yoy_is_qoq_witness :
  @None (frame Agg.t) = None
  /\ yoy_pct "Y" (rows zero_base_growth) = qoq_pct (rows zero_base_growth) None.
Proof.
  apply (yoy_is_qoq zero_base "Y" zero_base_growth None).
  - discriminate.
  - vm_compute; reflexivity.
Defined.

Lemma dashboard_frequency_witness : freq yearly = "Y".
Proof.
  apply (dashboard_frequency decimal_literal iso_date [maker_2022]
           (Frame canonical_columns [maker_2022_record]) yearly).
  vm_compute; reflexivity.
Defined.

Lemma add_time_period_columns_idempotent_witness :
  add_time_period_columns iso_date no_period = no_period.
Proof.
  apply (add_time_period_columns_idempotent iso_date no_period). reflexivity.
Defined.

End MoreEvaluations.
